(** * Chunked-transcription pipeline of the ML service

    A shallow embedding of [services/audio_processor.py],
    [services/transcription.py], [ml_models/asr.py] and the [/transcribe]
    endpoint of [main.py], followed by the properties of the pipeline.

    Conventions.
    - A Python [str] that is only concatenated, compared or passed on (paths,
      error codes, messages, language codes) is a [string].  A transcript,
      whose code points are inspected, is a [list Z] of code points.
    - A Python [float] that is only compared (the measured duration, the
      Cyrillic ratio, the quotient under [np.ceil]) is the rational [Q] it
      denotes, and the literals [0.1] and [0.3] are the decimals they are
      written as.  Comparisons of binary64 values are exact and no binary64
      value lies between a decimal literal and the value it is rounded to,
      so [d < 0.1] is decided as the interpreter decides it; the two
      quotients are of counts far below 2^50, for which rounding the
      quotient changes neither its ceiling nor its comparison with [0.3].
    - The libraries the code calls (librosa, pydub, soundfile, pathlib, the
      recognizer, uuid, the clock) are fields of an environment [Env]: each
      call either returns a value or raises, as the environment says.
    - The file system is a finite map from paths to file contents. *)

From Stdlib Require Import Ascii String ZArith QArith Qround Lia.
From stdpp Require Import gmap strings list fin_maps pretty.

#[local] Open Scope string_scope.
#[local] Open Scope Z_scope.

(** ** Data *)

(** An audio sample; its value plays no role. *)
Definition sample : Type := Q.

(** What a file holds: the raw bytes of an upload, a mono PCM waveform
    written by pydub or soundfile, or whatever a write that raised left
    behind. *)
Inductive blob : Type :=
| Raw (content : list Byte.byte)
| Wav (sr : Z) (y : list sample)
| Truncated.

(** A transcript, as code points. *)
Abbreviation text := (list Z).

(** The exceptions the code raises or catches.  [LibraryError] stands for
    whatever a library call raises; only [str(e)] of it is ever used. *)
Inductive exn : Type :=
| TranscriptionError (message code : string)
| AudioProcessingError (message : string)
| RuntimeError (message : string)
| ZeroDivisionError (message : string)
| LibraryError (message : string).

(** [str(e)] *)
Definition str (e : exn) : string :=
  match e with
  | TranscriptionError message _ => message
  | AudioProcessingError message => message
  | RuntimeError message => message
  | ZeroDivisionError message => message
  | LibraryError message => message
  end.

Inductive result (A : Type) : Type :=
| Ok (a : A)
| Raise (e : exn).
Arguments Ok {A} a.
Arguments Raise {A} e.

(** [TranscriptionResult] of transcription.py *)
Record TranscriptionResult : Type := mkResult {
  text_of : text;
  language_of : string;
  duration_of : Q;
  chunks_processed : Z;
  processing_time_ms : Z
}.

(** [Settings] of config.py (the fields the pipeline reads). *)
Record Settings : Type := mkSettings {
  chunk_size_seconds : Z;
  sample_rate : Z;
  max_audio_duration_seconds : Z;
  max_file_size_mb : Z;
  temp_dir : string;
  supported_formats : list string
}.

Definition default_settings : Settings :=
  {| chunk_size_seconds := 60;
     sample_rate := 16000;
     max_audio_duration_seconds := 7200;
     max_file_size_mb := 100;
     temp_dir := "/app/temp";
     supported_formats :=
       ["mp3"; "wav"; "ogg"; "m4a"; "flac"; "opus"; "webm"; "oga"] |}.

(** The only bounds [Settings] validates ([ge=10], [le=300]). *)
Definition valid_settings (s : Settings) : Prop :=
  10 <= chunk_size_seconds s <= 300.

(** ** The world outside the code *)

(** The outcome of a call that writes a file: it returns, or it raises and
    may leave a file at the path. *)
Inductive write_result : Type :=
| Written
| WriteFailed (detail : string) (leftover : bool).

(** Every call that reads or writes files is given the files as they are at
    the time of the call. *)
Record Env : Type := mkEnv {
  settings : Settings;
  (* pathlib: Path(p).suffix, .stem, .parent, parent / name and
     p.with_suffix(s), on paths that have a name *)
  path_suffix : string -> string;
  path_stem : string -> string;
  path_parent : string -> string;
  path_join : string -> string -> string;
  path_with_suffix : string -> string -> string;
  (* str.lower, str.isalpha *)
  str_lower : string -> string;
  isalpha : Z -> bool;
  (* librosa.get_duration(path=...) *)
  librosa_get_duration : gmap string blob -> string -> string + Q;
  (* AudioSegment.from_file(...).set_channels(1).set_frame_rate(sr) *)
  pydub_from_file : gmap string blob -> string -> Z -> string + list sample;
  (* audio.export(path, format="wav") *)
  pydub_export : gmap string blob -> string -> write_result;
  (* librosa.load(path, sr=..., mono=True) *)
  librosa_load : gmap string blob -> string -> Z -> string + list sample;
  (* sf.write(path, data, sr) *)
  sf_write : gmap string blob -> string -> write_result;
  (* open(path, "wb") followed by f.write(content) *)
  open_write : gmap string blob -> string -> write_result;
  (* Path.unlink of an existing file: [Some detail] when it raises *)
  os_unlink : gmap string blob -> string -> option string;
  (* ASRModel._recognizer: [None] while no model is loaded; a loaded
     recognizer reads the file and decodes it *)
  recognizer : option (gmap string blob -> string -> string + text);
  (* int((time.time() - start_time) * 1000) *)
  elapsed_ms : Z;
  (* str(uuid.uuid4()), as drawn by the one call of save_upload *)
  uuid4 : string
}.

(** ** State, exceptions and frames *)

(** The state the code acts on: the files, and the log of the paths handed
    to the recognizer, in call order. *)
Record world : Type := mkWorld {
  files : gmap string blob;
  asr_log : list string
}.

Definition set_files (f : gmap string blob -> gmap string blob) (w : world) : world :=
  {| files := f (files w); asr_log := asr_log w |}.

Definition log_call (p : string) (w : world) : world :=
  {| files := files w; asr_log := (asr_log w ++ [p])%list |}.

(** A computation over a state [S] that returns or raises. *)
Definition M (S A : Type) : Type := S -> result A * S.

Definition ret {S A} (a : A) : M S A := fun s => (Ok a, s).

Definition raise {S A} (e : exn) : M S A := fun s => (Raise e, s).

Definition bind {S A B} (m : M S A) (k : A -> M S B) : M S B :=
  fun s =>
    match m s with
    | (Ok a, s') => k a s'
    | (Raise e, s') => (Raise e, s')
    end.

Notation "'let*' x ':=' m 'in' k" := (bind m (fun x => k))
  (at level 10, x pattern, m at level 100, k at level 200).

(** [try: m except Exception as e: h e] *)
Definition try_except {S A} (m : M S A) (h : exn -> M S A) : M S A :=
  fun s =>
    match m s with
    | (Ok a, s') => (Ok a, s')
    | (Raise e, s') => h e s'
    end.

(** [try: m finally: f]; an exception of [f] replaces the outcome of [m]. *)
Definition try_finally {S A} (m : M S A) (f : M S unit) : M S A :=
  fun s =>
    match m s with
    | (r, s') =>
        match f s' with
        | (Ok _, s'') => (r, s'')
        | (Raise e, s'') => (Raise e, s'')
        end
    end.

(** A function body whose handler or [finally] block reads a local list [l]
    runs over the pair of that local and the world. *)
Definition call {L A} (m : M world A) : M (L * world) A :=
  fun s =>
    match m (snd s) with
    | (r, w') => (r, (fst s, w'))
    end.

Definition get_local {L} : M (L * world) L := fun s => (Ok (fst s), s).

Definition modify_local {L} (f : L -> L) : M (L * world) unit :=
  fun s => (Ok tt, (f (fst s), snd s)).

(** Run a body from the initial value of its local; the local dies with the
    frame. *)
Definition frame {L A} (l0 : L) (m : M (L * world) A) : M world A :=
  fun w =>
    match m (l0, w) with
    | (r, s') => (r, snd s')
    end.

(** A library call that reads: its result, or [LibraryError]. *)
Definition lib_read {A} (f : gmap string blob -> string + A) : M world A :=
  fun w =>
    match f (files w) with
    | inr a => (Ok a, w)
    | inl detail => (Raise (LibraryError detail), w)
    end.

(** A library call that writes [b] at [p]. *)
Definition lib_write (f : gmap string blob -> string -> write_result)
    (p : string) (b : blob) : M world unit :=
  fun w =>
    match f (files w) p with
    | Written => (Ok tt, set_files (insert p b) w)
    | WriteFailed detail false => (Raise (LibraryError detail), w)
    | WriteFailed detail true =>
        (Raise (LibraryError detail), set_files (insert p Truncated) w)
    end.

(** ** Strings and transcripts *)

(** The code points [str.strip()] removes (those [str.isspace] accepts). *)
Definition isspace (c : Z) : bool :=
  ((9 <=? c) && (c <=? 13)) || ((28 <=? c) && (c <=? 32))
  || (c =? 133) || (c =? 160) || (c =? 5760)
  || ((8192 <=? c) && (c <=? 8202))
  || (c =? 8232) || (c =? 8233) || (c =? 8239) || (c =? 8287) || (c =? 12288).

Fixpoint lstrip (t : text) : text :=
  match t with
  | c :: t' => if isspace c then lstrip t' else t
  | [] => []
  end.

Definition rstrip (t : text) : text := rev (lstrip (rev t)).

(** [t.strip()] *)
Definition strip (t : text) : text := rstrip (lstrip t).

(** [sep.join(ts)] *)
Fixpoint join (sep : text) (ts : list text) : text :=
  match ts with
  | [] => []
  | [t] => t
  | t :: ts' => (t ++ sep ++ join sep ts')%list
  end.

(** The separator [" "]. *)
Definition space : text := [32].

(** [if t:] on a string. *)
Definition nonempty (t : text) : bool :=
  match t with
  | [] => false
  | _ :: _ => true
  end.

(** [sum(1 for c in t if p(c))] *)
Definition count_if (p : Z -> bool) (t : text) : Z :=
  Z.of_nat (length (List.filter p t)).

(** [x < y] on the rationals two floats denote. *)
Definition Qlt_bool (x y : Q) : bool := negb (Qle_bool y x).

(** [f"{i:04d}"] for an index of [range]. *)
Definition pad04 (i : nat) : string :=
  let digits := pretty i in
  String.concat "" (replicate (4 - String.length digits) "0") ++ digits.

(** [s.lstrip(".")] *)
Fixpoint lstrip_dots (s : string) : string :=
  match s with
  | String "."%char s' => lstrip_dots s'
  | _ => s
  end.

(** [y[start:stop]] with Python's clamping of both indices. *)
Definition clamp_index (len i : Z) : Z :=
  if i <? 0 then Z.max 0 (i + len) else Z.min i len.

Definition slice {A} (y : list A) (start stop : Z) : list A :=
  let len := Z.of_nat (length y) in
  let a := clamp_index len start in
  let b := clamp_index len stop in
  take (Z.to_nat (b - a)) (drop (Z.to_nat a) y).

(** [range(n)] *)
Definition range (n : Z) : list nat := seq 0 (Z.to_nat n).

(** [a / b] on two ints. *)
Definition true_div {S} (a b : Z) : M S Q :=
  if b =? 0 then raise (ZeroDivisionError "division by zero")
  else ret (inject_Z a / inject_Z b)%Q.

(** ** The service *)

Section Service.
Context (E : Env).

(** *** services/audio_processor.py *)

Definition get_audio_duration (file_path : string) : M world Q :=
  try_except
    (lib_read (fun fs => librosa_get_duration E fs file_path))
    (fun e =>
       raise (AudioProcessingError ("Failed to get audio duration: " ++ str e))).

Definition validate_format (filename : string) : bool :=
  let ext := lstrip_dots (str_lower E (path_suffix E filename)) in
  bool_decide (ext ∈ supported_formats (settings E)).

(** [file] is what [file.read()] does: the bytes, or the detail of what it
    raises. *)
Definition save_upload (file : string + list Byte.byte) (filename : string)
    : M world string :=
  let ext := str_lower E (path_suffix E filename) in
  let ext := if String.eqb ext "" then ".wav" else ext in
  let unique_name := uuid4 E ++ ext in
  let file_path := path_join E (temp_dir (settings E)) unique_name in
  try_except
    (let* content := lib_read (fun _ => file) in
     let* _ := lib_write (open_write E) file_path (Raw content) in
     ret file_path)
    (fun e => raise (AudioProcessingError ("Failed to save upload: " ++ str e))).

(** The first [try] block of [convert_to_wav]: pydub. *)
Definition convert_pydub (input_path output_path : string) : M world string :=
  let sr := sample_rate (settings E) in
  let* audio := lib_read (fun fs => pydub_from_file E fs input_path sr) in
  let* _ := lib_write (pydub_export E) output_path (Wav sr audio) in
  ret output_path.

(** The [try] block of its handler: librosa and soundfile. *)
Definition convert_librosa (input_path output_path : string) : M world string :=
  let sr := sample_rate (settings E) in
  let* y := lib_read (fun fs => librosa_load E fs input_path sr) in
  let* _ := lib_write (sf_write E) output_path (Wav sr y) in
  ret output_path.

Definition convert_to_wav (input_path : string) : M world string :=
  let output_path := path_with_suffix E input_path ".converted.wav" in
  try_except
    (convert_pydub input_path output_path)
    (fun e =>
       try_except
         (convert_librosa input_path output_path)
         (fun e2 =>
            raise (AudioProcessingError ("Failed to convert audio: " ++ str e2)))).

(** [audio_path.parent / f"{audio_path.stem}_chunk_{i:04d}.wav"] *)
Definition chunk_path (audio_path : string) (i : nat) : string :=
  path_join E (path_parent E audio_path)
    (path_stem E audio_path ++ "_chunk_" ++ pad04 i ++ ".wav").

(** The [for i in range(num_chunks)] loop; the local is [chunks]. *)
Fixpoint split_loop (audio_path : string) (y : list sample)
    (sr total_samples chunk_samples : Z) (indices : list nat)
    : M (list string * world) unit :=
  match indices with
  | [] => ret tt
  | i :: rest =>
      let start := Z.of_nat i * chunk_samples in
      let stop := Z.min ((Z.of_nat i + 1) * chunk_samples) total_samples in
      let chunk_audio := slice y start stop in
      let* _ := call (lib_write (sf_write E) (chunk_path audio_path i)
                        (Wav sr chunk_audio)) in
      let* _ := modify_local (fun chunks => (chunks ++ [chunk_path audio_path i])%list) in
      split_loop audio_path y sr total_samples chunk_samples rest
  end.

(** [chunk.unlink()]: raises when the file is absent or cannot be removed. *)
Definition unlink (p : string) : M world unit :=
  fun w =>
    match files w !! p with
    | None =>
        (Raise (LibraryError ("[Errno 2] No such file or directory: " ++ p)), w)
    | Some _ =>
        match os_unlink E (files w) p with
        | Some detail => (Raise (LibraryError detail), w)
        | None => (Ok tt, set_files (delete p) w)
        end
    end.

(** The handler's [for chunk in chunks: try: chunk.unlink() except: pass]. *)
Fixpoint unlink_each (chunks : list string) : M world unit :=
  match chunks with
  | [] => ret tt
  | chunk :: rest =>
      let* _ := try_except (unlink chunk) (fun _ => ret tt) in
      unlink_each rest
  end.

(** The [try] block of [split_audio]; the local is [chunks]. *)
Definition split_try (audio_path : string) (chunk_duration : Z)
    : M (list string * world) (list string) :=
  let sr := sample_rate (settings E) in
  let* y := call (lib_read (fun fs => librosa_load E fs audio_path sr)) in
  let total_samples := Z.of_nat (length y) in
  let chunk_samples := chunk_duration * sr in
  let* q := true_div total_samples chunk_samples in
  let num_chunks := Qceiling q in
  let* _ := split_loop audio_path y sr total_samples chunk_samples
              (range num_chunks) in
  get_local.

(** Its [except] block. *)
Definition split_handler (e : exn) : M (list string * world) (list string) :=
  let* chunks := get_local in
  let* _ := call (unlink_each chunks) in
  raise (AudioProcessingError ("Failed to split audio: " ++ str e)).

Definition split_audio (audio_path : string) (chunk_duration : Z)
    : M world (list string) :=
  frame [] (try_except (split_try audio_path chunk_duration) split_handler).

(** [file_path.exists()] *)
Definition path_exists (p : string) : M world bool :=
  fun w => (Ok (bool_decide (is_Some (files w !! p))), w).

Definition cleanup_file (file_path : string) : M world unit :=
  try_except
    (let* present := path_exists file_path in
     if present then unlink file_path else ret tt)
    (fun _ => ret tt).

Fixpoint cleanup_files (file_paths : list string) : M world unit :=
  match file_paths with
  | [] => ret tt
  | path :: rest =>
      let* _ := cleanup_file path in
      cleanup_files rest
  end.

(** *** ml_models/asr.py *)

Definition asr_transcribe (audio_path : string) : M world text :=
  let* _ := (fun w => (Ok tt, log_call audio_path w)) in
  match recognizer E with
  | None => raise (RuntimeError "Model not loaded")
  | Some decode =>
      try_except
        (let* t := lib_read (fun fs => decode fs audio_path) in
         ret (strip t))
        (fun e => raise (RuntimeError ("Transcription failed: " ++ str e)))
  end.

(** *** services/transcription.py *)

Definition is_cyrillic (c : Z) : bool := (1024 <=? c) && (c <=? 1279).

Definition detect_language (t : text) : string :=
  if negb (nonempty t) then "en"
  else
    let cyrillic_count := count_if is_cyrillic t in
    let total_alpha := count_if (isalpha E) t in
    if total_alpha =? 0 then "en"
    else
      let cyrillic_ratio := (inject_Z cyrillic_count / inject_Z total_alpha)%Q in
      if Qlt_bool 0.3 cyrillic_ratio then "ru" else "en".

(** [not language] for an [Optional[str]]. *)
Definition not_given (language : option string) : bool :=
  match language with
  | None => true
  | Some l => String.eqb l ""
  end.

(** The [for i, chunk_path in enumerate(chunks)] loop with its [texts]. *)
Fixpoint transcribe_chunks (chunks : list string) (texts : list text)
    : M world (list text) :=
  match chunks with
  | [] => ret texts
  | chunk :: rest =>
      let* t := asr_transcribe chunk in
      transcribe_chunks rest (if nonempty t then (texts ++ [t])%list else texts)
  end.

(** The [try] block of [transcribe]; the local is [temp_files]. *)
Definition transcribe_body (audio_path : string) (language : option string)
    : M (list string * world) TranscriptionResult :=
  let* duration := call (get_audio_duration audio_path) in
  if Qlt_bool (inject_Z (max_audio_duration_seconds (settings E))) duration then
    raise (TranscriptionError
             ("Audio too long. Maximum duration is "
              ++ pretty (max_audio_duration_seconds (settings E) `div` 60)
              ++ " minutes.")
             "AUDIO_TOO_LONG")
  else if Qlt_bool duration 0.1 then
    raise (TranscriptionError "Audio file appears to be empty or too short."
             "AUDIO_TOO_SHORT")
  else
    let* converted_path := call (convert_to_wav audio_path) in
    let* _ := modify_local (fun temp_files => (temp_files ++ [converted_path])%list) in
    let needs_chunking :=
      Qlt_bool (inject_Z (chunk_size_seconds (settings E))) duration in
    let* (full_text, processed) :=
      (if needs_chunking then
         let* chunks := call (split_audio converted_path
                                (chunk_size_seconds (settings E))) in
         let* _ := modify_local (fun temp_files => (temp_files ++ chunks)%list) in
         let* texts := call (transcribe_chunks chunks []) in
         ret (join space texts, Z.of_nat (length chunks))
       else
         let* full_text := call (asr_transcribe converted_path) in
         ret (full_text, 1)) in
    let detected_language :=
      if not_given language then detect_language full_text
      else default "" language in
    ret {| text_of := strip full_text;
           language_of := detected_language;
           duration_of := duration;
           chunks_processed := processed;
           processing_time_ms := elapsed_ms E |}.

(** The [except] clauses of [transcribe]. *)
Definition transcribe_handler {S} (e : exn) : M S TranscriptionResult :=
  match e with
  | TranscriptionError _ _ => raise e
  | AudioProcessingError _ =>
      raise (TranscriptionError (str e) "AUDIO_PROCESSING_ERROR")
  | _ =>
      raise (TranscriptionError ("Failed to transcribe audio: " ++ str e)
               "TRANSCRIPTION_FAILED")
  end.

(** [try ... except ... finally: cleanup_files(temp_files)], still inside the
    frame, so that [temp_files] can be observed at exit. *)
Definition transcribe_frame (audio_path : string) (language : option string)
    : M (list string * world) TranscriptionResult :=
  try_finally
    (try_except (transcribe_body audio_path language) transcribe_handler)
    (let* temp_files := get_local in call (cleanup_files temp_files)).

Definition transcribe (audio_path : string) (language : option string)
    : M world TranscriptionResult :=
  frame [] (transcribe_frame audio_path language).

(** *** main.py: the [/transcribe] endpoint *)

(** The endpoint answers with the transcription data or with the [detail] of
    an [HTTPException]. *)
Inductive response : Type :=
| Success (text : text) (language : string) (duration : Q) (ms : Z)
| HTTPError (status_code : Z) (code message : string) (details : option string).

(** An [UploadFile]: its filename, its size when known, and what reading it
    does. *)
Record UploadFile : Type := mkUpload {
  filename : option string;
  size : option Z;
  file : string + list Byte.byte
}.

(** The [except] clauses of the endpoint. *)
Definition endpoint_handler {S} (e : exn) : M S response :=
  match e with
  | TranscriptionError message code => ret (HTTPError 500 code message None)
  | AudioProcessingError _ =>
      ret (HTTPError 400 "AUDIO_PROCESSING_ERROR" (str e) None)
  | _ =>
      ret (HTTPError 500 "INTERNAL_ERROR" "Failed to transcribe audio"
             (Some (str e)))
  end.

(** The [try ... except ... finally] of the endpoint; its local is
    [saved_path]. *)
Definition transcribe_upload (name : string) (file : string + list Byte.byte)
    (language : option string) : M world response :=
  frame None
    (try_finally
       (try_except
          (let* saved_path := call (save_upload file name) in
           let* _ := modify_local (fun _ => Some saved_path) in
           let* r := call (transcribe saved_path language) in
           ret (Success (text_of r) (language_of r) (duration_of r)
                  (processing_time_ms r)))
          endpoint_handler)
       (let* saved_path := get_local in
        match saved_path with
        | Some p => call (cleanup_file p)
        | None => ret tt
        end)).

Definition transcribe_audio (audio : UploadFile) (language : option string)
    : M world response :=
  match filename audio with
  | None | Some "" =>
      ret (HTTPError 400 "MISSING_FILENAME" "Audio file must have a filename" None)
  | Some name =>
      if negb (validate_format name) then
        ret (HTTPError 400 "INVALID_AUDIO_FORMAT"
               ("Unsupported audio format. Supported: "
                ++ String.concat ", " (supported_formats (settings E)))
               None)
      else if match size audio with
              | Some n =>
                  negb (n =? 0)
                  && (max_file_size_mb (settings E) * 1024 * 1024 <? n)
              | None => false
              end then
        ret (HTTPError 413 "FILE_TOO_LARGE"
               ("Audio file exceeds maximum size of "
                ++ pretty (max_file_size_mb (settings E)) ++ "MB")
               None)
      else transcribe_upload name (file audio) language
  end.

End Service.

(** ** The vocabulary of the properties *)

Section Vocabulary.
Context (E : Env).

(** What one guarded deletion does to the files: an absent path and a
    deletion that raises both leave them as they are. *)
Definition sweep_step (fs : gmap string blob) (p : string) : gmap string blob :=
  match fs !! p with
  | Some _ =>
      match os_unlink E fs p with
      | None => delete p fs
      | Some _ => fs
      end
  | None => fs
  end.

Definition sweep (ps : list string) (fs : gmap string blob) : gmap string blob :=
  foldl sweep_step fs ps.

(** The waveform the loop writes for index [i]. *)
Definition chunk_blob (y : list sample) (sr total cs : Z) (i : nat) : blob :=
  Wav sr (slice y (Z.of_nat i * cs) (Z.min ((Z.of_nat i + 1) * cs) total)).

(** The files after the chunks of the indices [idx] have been written. *)
Definition store_chunks (p : string) (y : list sample) (sr total cs : Z)
    (idx : list nat) (fs : gmap string blob) : gmap string blob :=
  foldl (fun fs i => <[chunk_path E p i := chunk_blob y sr total cs i]> fs) fs idx.

(** What the recognizer returns for the file at [p], when it returns. *)
Definition heard (fs : gmap string blob) (p : string) : option text :=
  match recognizer E with
  | Some decode =>
      match decode fs p with
      | inr t => Some (strip t)
      | inl _ => None
      end
  | None => None
  end.

End Vocabulary.

(** No write of the converter or the chunker leaves a file when it raises. *)
Definition clean_failures (E : Env) : Prop :=
  forall fs p d,
    pydub_export E fs p <> WriteFailed d true
    /\ sf_write E fs p <> WriteFailed d true.

(** No deletion raises. *)
Definition deletions_succeed (E : Env) : Prop :=
  forall fs p, os_unlink E fs p = None.

(** The environment [E] with another behaviour of deletion. *)
Definition with_unlink (del : gmap string blob -> string -> option string)
    (E : Env) : Env :=
  {| settings := settings E;
     path_suffix := path_suffix E;
     path_stem := path_stem E;
     path_parent := path_parent E;
     path_join := path_join E;
     path_with_suffix := path_with_suffix E;
     str_lower := str_lower E;
     isalpha := isalpha E;
     librosa_get_duration := librosa_get_duration E;
     pydub_from_file := pydub_from_file E;
     pydub_export := pydub_export E;
     librosa_load := librosa_load E;
     sf_write := sf_write E;
     open_write := open_write E;
     os_unlink := del;
     recognizer := recognizer E;
     elapsed_ms := elapsed_ms E;
     uuid4 := uuid4 E |}.

(** The number of chunks [split_audio] computes for [total] samples. *)
Definition num_chunks (total cs : Z) : Z :=
  Qceiling (inject_Z total / inject_Z cs).

(** An exception that is neither a [TranscriptionError] nor an
    [AudioProcessingError]. *)
Definition unexpected (e : exn) : Prop :=
  match e with
  | TranscriptionError _ _ | AudioProcessingError _ => False
  | _ => True
  end.

(** The codes [transcribe] raises with. *)
Definition pipeline_codes : list string :=
  ["AUDIO_TOO_LONG"; "AUDIO_TOO_SHORT"; "AUDIO_PROCESSING_ERROR";
   "TRANSCRIPTION_FAILED"].

(** The sample range of chunk [i]: [start, stop). *)
Definition chunk_start (cs : Z) (i : nat) : Z := Z.of_nat i * cs.

Definition chunk_stop (cs total : Z) (i : nat) : Z :=
  Z.min ((Z.of_nat i + 1) * cs) total.

(** The lengths of the chunks, in index order. *)
Definition chunk_lengths (total cs : Z) : list Z :=
  map (fun i => chunk_stop cs total i - chunk_start cs i)
    (range (num_chunks total cs)).

(** The text the specification assembles from the per-chunk texts: the
    non-empty ones, in order, joined by one space, then trimmed. *)
Definition assemble (texts : list text) : text :=
  strip (join space (List.filter nonempty texts)).

(** The rule of the specification, on the two counts. *)
Definition classify (alpha cyrillic : Z) : string :=
  if alpha =? 0 then "en"
  else if Qlt_bool 0.3 (inject_Z cyrillic / inject_Z alpha) then "ru"
  else "en".

Section Runs.
Context (E : Env) (audio_path : string) (language : option string) (w : world).

(** The path of the converted WAV file. *)
Definition converted_path : string :=
  path_with_suffix E audio_path ".converted.wav".

(** The duration lies within the gate. *)
Definition in_range (d : Q) : Prop :=
  (d <= inject_Z (max_audio_duration_seconds (settings E)))%Q /\ (0.1 <= d)%Q.

(** The result [transcribe] builds from the measured duration, the joined
    text and the chunk count. *)
Definition make_result (d : Q) (full_text : text) (processed : Z)
    : TranscriptionResult :=
  {| text_of := strip full_text;
     language_of :=
       if not_given language then detect_language E full_text
       else default "" language;
     duration_of := d;
     chunks_processed := processed;
     processing_time_ms := elapsed_ms E |}.

(** The [try ... except] of [transcribe], before its [finally]. *)
Definition transcribe_guarded : M (list string * world) TranscriptionResult :=
  try_except (transcribe_body E audio_path language) transcribe_handler.

(** Every way the guarded part can end: with which outcome, with which
    [temp_files], in which world. *)
Inductive guarded_run : result TranscriptionResult -> list string -> world -> Prop :=
| run_probe_failed detail :
    librosa_get_duration E (files w) audio_path = inl detail ->
    guarded_run
      (Raise (TranscriptionError ("Failed to get audio duration: " ++ detail)
                "AUDIO_PROCESSING_ERROR"))
      [] w
| run_too_long d :
    librosa_get_duration E (files w) audio_path = inr d ->
    (inject_Z (max_audio_duration_seconds (settings E)) < d)%Q ->
    guarded_run
      (Raise (TranscriptionError
                ("Audio too long. Maximum duration is "
                 ++ pretty (max_audio_duration_seconds (settings E) `div` 60)
                 ++ " minutes.")
                "AUDIO_TOO_LONG"))
      [] w
| run_too_short d :
    librosa_get_duration E (files w) audio_path = inr d ->
    (d <= inject_Z (max_audio_duration_seconds (settings E)))%Q ->
    (d < 0.1)%Q ->
    guarded_run
      (Raise (TranscriptionError "Audio file appears to be empty or too short."
                "AUDIO_TOO_SHORT"))
      [] w
| run_convert_failed d e w1 :
    librosa_get_duration E (files w) audio_path = inr d ->
    in_range d ->
    convert_to_wav E audio_path w = (Raise e, w1) ->
    guarded_run (Raise (TranscriptionError (str e) "AUDIO_PROCESSING_ERROR"))
      [] w1
| run_split_failed d w1 e w2 :
    librosa_get_duration E (files w) audio_path = inr d ->
    in_range d ->
    convert_to_wav E audio_path w = (Ok converted_path, w1) ->
    (inject_Z (chunk_size_seconds (settings E)) < d)%Q ->
    split_audio E converted_path (chunk_size_seconds (settings E)) w1
    = (Raise e, w2) ->
    guarded_run (Raise (TranscriptionError (str e) "AUDIO_PROCESSING_ERROR"))
      [converted_path] w2
| run_chunk_failed d w1 chunks w2 message w3 :
    librosa_get_duration E (files w) audio_path = inr d ->
    in_range d ->
    convert_to_wav E audio_path w = (Ok converted_path, w1) ->
    (inject_Z (chunk_size_seconds (settings E)) < d)%Q ->
    split_audio E converted_path (chunk_size_seconds (settings E)) w1
    = (Ok chunks, w2) ->
    transcribe_chunks E chunks [] w2 = (Raise (RuntimeError message), w3) ->
    guarded_run
      (Raise (TranscriptionError ("Failed to transcribe audio: " ++ message)
                "TRANSCRIPTION_FAILED"))
      (converted_path :: chunks) w3
| run_chunked d w1 chunks w2 texts w3 :
    librosa_get_duration E (files w) audio_path = inr d ->
    in_range d ->
    convert_to_wav E audio_path w = (Ok converted_path, w1) ->
    (inject_Z (chunk_size_seconds (settings E)) < d)%Q ->
    split_audio E converted_path (chunk_size_seconds (settings E)) w1
    = (Ok chunks, w2) ->
    transcribe_chunks E chunks [] w2 = (Ok texts, w3) ->
    guarded_run
      (Ok (make_result d (join space texts) (Z.of_nat (length chunks))))
      (converted_path :: chunks) w3
| run_direct_failed d w1 message w2 :
    librosa_get_duration E (files w) audio_path = inr d ->
    in_range d ->
    convert_to_wav E audio_path w = (Ok converted_path, w1) ->
    (d <= inject_Z (chunk_size_seconds (settings E)))%Q ->
    asr_transcribe E converted_path w1 = (Raise (RuntimeError message), w2) ->
    guarded_run
      (Raise (TranscriptionError ("Failed to transcribe audio: " ++ message)
                "TRANSCRIPTION_FAILED"))
      [converted_path] w2
| run_direct d w1 full_text w2 :
    librosa_get_duration E (files w) audio_path = inr d ->
    in_range d ->
    convert_to_wav E audio_path w = (Ok converted_path, w1) ->
    (d <= inject_Z (chunk_size_seconds (settings E)))%Q ->
    asr_transcribe E converted_path w1 = (Ok full_text, w2) ->
    guarded_run (Ok (make_result d full_text 1)) [converted_path] w2.

(** An artifact path of the run: the converted file or a chunk of it. *)
Definition artifact (q : string) : Prop :=
  q = converted_path \/ exists i, q = chunk_path E converted_path i.

End Runs.

(** ** A sample environment

    A concrete world used to run the embedding: POSIX paths without trailing
    separators, ASCII lower-casing, and Latin and Cyrillic letters. *)

Module Sample.

(** Split [s] around the last occurrence of [c]. *)
Fixpoint rsplit (c : ascii) (s : string) : option (string * string) :=
  match s with
  | EmptyString => None
  | String a s' =>
      match rsplit c s' with
      | Some (l, r) => Some (String a l, r)
      | None => if Ascii.eqb a c then Some (EmptyString, s') else None
      end
  end.

Definition name (p : string) : string :=
  match rsplit "/" p with
  | Some (_, n) => n
  | None => p
  end.

Definition parent (p : string) : string :=
  match rsplit "/" p with
  | Some (EmptyString, _) => "/"
  | Some (d, _) => d
  | None => "."
  end.

Definition joinpath (d n : string) : string := d ++ "/" ++ n.

Definition stem_suffix (p : string) : string * string :=
  let n := name p in
  match rsplit "." n with
  | Some (String a l, String b r) => (String a l, String "." (String b r))
  | _ => (n, EmptyString)
  end.

Definition suffix (p : string) : string := snd (stem_suffix p).

Definition stem (p : string) : string := fst (stem_suffix p).

Definition with_suffix (p s : string) : string :=
  joinpath (parent p) (stem p ++ s).

Definition lower_ascii (a : ascii) : ascii :=
  let n := nat_of_ascii a in
  if ((65 <=? n) && (n <=? 90))%nat then ascii_of_nat (n + 32) else a.

Fixpoint lower (s : string) : string :=
  match s with
  | EmptyString => EmptyString
  | String a s' => String (lower_ascii a) (lower s')
  end.

Definition letter (c : Z) : bool :=
  ((65 <=? c) && (c <=? 90)) || ((97 <=? c) && (c <=? 122))
  || ((1024 <=? c) && (c <=? 1153)) || ((1162 <=? c) && (c <=? 1327)).

(** An environment over these paths and letters, given what the probe, the
    two decoders, the chunk writer, deletion and the recognizer do. *)
Definition env (s : Settings) (probe : string + Q)
    (pydub librosa : string + list sample)
    (write : string -> write_result) (del : string -> option string)
    (asr : option (string -> string + text)) : Env :=
  {| settings := s;
     path_suffix := suffix;
     path_stem := stem;
     path_parent := parent;
     path_join := joinpath;
     path_with_suffix := with_suffix;
     str_lower := lower;
     isalpha := letter;
     librosa_get_duration := fun _ _ => probe;
     pydub_from_file := fun _ _ _ => pydub;
     pydub_export := fun _ _ => Written;
     librosa_load := fun _ _ _ => librosa;
     sf_write := fun _ => write;
     open_write := fun _ _ => Written;
     os_unlink := fun _ => del;
     recognizer :=
       match asr with
       | Some f => Some (fun _ => f)
       | None => None
       end;
     elapsed_ms := 1500;
     uuid4 := "3f2b8c1e-7d4a-4e19-9b06-5a1c2d3e4f50" |}.

(** The environment in which every call succeeds: the probe measures
    [duration], decoding yields [y], the recognizer reads [said] from each
    file. *)
Definition sunny (s : Settings) (duration : Q) (y : list sample)
    (said : string -> text) : Env :=
  env s (inr duration) (inr y) (inr y) (fun _ => Written) (fun _ => None)
    (Some (fun p => inr (said p))).

(** One-hertz settings, so that a second is a sample. *)
Definition settings_1hz : Settings :=
  {| chunk_size_seconds := 60;
     sample_rate := 1;
     max_audio_duration_seconds := 7200;
     max_file_size_mb := 100;
     temp_dir := "/app/temp";
     supported_formats := supported_formats default_settings |}.

(** A world holding one uploaded file. *)
Definition world0 : world :=
  {| files := {[ "/app/temp/a.mp3" := Raw [] ]}; asr_log := [] |}.

(** The code points of an ASCII string. *)
Definition codepoints (s : string) : text :=
  map (fun a => Z.of_nat (nat_of_ascii a)) (list_ascii_of_string s).

End Sample.

(** ** Scenarios

    Concrete environments, worlds and uploads on which the embedding is run. *)

(** A three-sample waveform. *)
Definition wave3 : list sample := [0.5; 0.25; 0.5]%Q.

(** A thirty-second upload in a world where no file can be deleted. *)
Definition undeletable : Env :=
  Sample.env Sample.settings_1hz (inr 30%Q) (inr wave3) (inr wave3)
    (fun _ => Written) (fun _ => Some "[Errno 13] Permission denied")
    (Some (fun _ => inr (Sample.codepoints "hello"))).

(** A 125-second upload at one sample per second, every call succeeding. *)
Definition long_upload : Env :=
  Sample.sunny Sample.settings_1hz 125 (replicate 125 0.5%Q)
    (fun p => Sample.codepoints (Sample.name p)).

(** Settings whose maximum duration is zero seconds. *)
Definition zero_maximum : Settings :=
  {| chunk_size_seconds := 60;
     sample_rate := 16000;
     max_audio_duration_seconds := 0;
     max_file_size_mb := 100;
     temp_dir := "/app/temp";
     supported_formats := supported_formats default_settings |}.

(** An upload that neither pydub nor librosa can decode. *)
Definition undecodable : Env :=
  Sample.env default_settings (inr 30%Q)
    (inl "Decoding failed. ffmpeg returned error code: 1")
    (inl "Format not recognised.")
    (fun _ => Written) (fun _ => None)
    (Some (fun _ => inr (Sample.codepoints "hello"))).

(** A service whose model failed to load. *)
Definition unloaded : Env :=
  Sample.env default_settings (inr 30%Q) (inr wave3) (inr wave3)
    (fun _ => Written) (fun _ => None) None.

(** An upload of three bytes named [talk.mp3]. *)
Definition talk : UploadFile :=
  {| filename := Some "talk.mp3";
     size := Some 3;
     file := inr [Byte.x49; Byte.x44; Byte.x33] |}.

(** The converted file of the 125-second upload is in place. *)
Definition world_converted : world :=
  {| files := <["/app/temp/a.converted.wav" := Wav 1 (replicate 125 0.5%Q)]>
                (files Sample.world0);
     asr_log := [] |}.

(** The chunk writer of a full disk: the second chunk cannot be written. *)
Definition full_after_one (p : string) : write_result :=
  if String.eqb p "/app/temp/a.converted_chunk_0001.wav"
  then WriteFailed "[Errno 28] No space left on device" false
  else Written.

(** The 125-second upload on that disk, where moreover nothing can be
    deleted. *)
Definition full_undeletable : Env :=
  Sample.env Sample.settings_1hz (inr 125%Q) (inr (replicate 125 0.5%Q))
    (inr (replicate 125 0.5%Q)) full_after_one
    (fun _ => Some "[Errno 13] Permission denied")
    (Some (fun _ => inr (Sample.codepoints "hello"))).

(** The same disk with working deletion. *)
Definition full_disk : Env :=
  Sample.env Sample.settings_1hz (inr 125%Q) (inr (replicate 125 0.5%Q))
    (inr (replicate 125 0.5%Q)) full_after_one (fun _ => None)
    (Some (fun _ => inr (Sample.codepoints "hello"))).

(** What the recognizer hears in the three chunks of a 125-second upload
    whose second minute is silent. *)
Definition silent_middle (p : string) : text :=
  if String.eqb p "/app/temp/a.converted_chunk_0000.wav"
  then Sample.codepoints " good morning "
  else if String.eqb p "/app/temp/a.converted_chunk_0001.wav"
  then Sample.codepoints "   "
  else Sample.codepoints "everyone".

(** The text of "привет как дела". *)
Definition privet_kak_dela : text :=
  [1087; 1088; 1080; 1074; 1077; 1090; 32; 1082; 1072; 1082; 32;
   1076; 1077; 1083; 1072].

(** The text of "hello world". *)
Definition hello_world : text := Sample.codepoints "hello world".

(** A service with the default settings in which every call succeeds. *)
Definition service : Env :=
  Sample.sunny default_settings 30 wave3 (fun _ => Sample.codepoints "hello").

(** ** The process around the service

    [config.py] (model files), [ml_models/asr.py] (the life of the
    recognizer), [cleanup_temp_directory] of [services/audio_processor.py],
    and [lifespan] and [/health] of [main.py]. *)

(** A loaded recognizer, as [Env] holds it. *)
Abbreviation decoder := (gmap string blob -> string -> string + text).

(** [Settings] of config.py (the fields of the model). *)
Record ModelSettings : Type := mkModelSettings {
  model_dir : string;
  num_threads : Z
}.

(** What the process needs beyond [Env]. *)
Record Host : Type := mkHost {
  env : Env;
  model_settings : ModelSettings;
  (* temp_dir.iterdir(): the entries of a directory, as full paths, or the
     detail of the OSError the listing raises *)
  iterdir : gmap string blob -> string -> string + list string;
  (* what stat() raises for a path, if anything, other than for a missing
     file: temp_dir.exists() and is_file() pass such an error on *)
  stat_error : gmap string blob -> string -> option string;
  (* what temp_dir.mkdir(parents=True, exist_ok=True) raises, if anything *)
  mkdir_error : gmap string blob -> string -> option string;
  (* sherpa_onnx.OfflineRecognizer.from_transducer(...) *)
  from_transducer : gmap string blob -> string + decoder;
  (* the text an f-string gives for a list of str *)
  repr_list : list string -> string;
  (* psutil.virtual_memory(), as the two rounded figures of /health *)
  memory_gb : Q * Q
}.

(** The state of the process: the world, [ASRModel._recognizer], and whether
    the temp directory exists. *)
Record server : Type := mkServer {
  srv_world : world;
  srv_model : option decoder;
  srv_temp_dir : bool
}.

Definition set_world (w : world) (s : server) : server :=
  {| srv_world := w; srv_model := srv_model s; srv_temp_dir := srv_temp_dir s |}.

Definition set_model (m : option decoder) (s : server) : server :=
  {| srv_world := srv_world s; srv_model := m; srv_temp_dir := srv_temp_dir s |}.

Definition set_temp_dir (b : bool) (s : server) : server :=
  {| srv_world := srv_world s; srv_model := srv_model s; srv_temp_dir := b |}.

(** A computation on the world, run in the process. *)
Definition in_world {A} (m : M world A) : M server A :=
  fun s =>
    match m (srv_world s) with
    | (r, w') => (r, set_world w' s)
    end.

(** The environment [E] with another recognizer. *)
Definition with_recognizer (r : option decoder) (E : Env) : Env :=
  {| settings := settings E;
     path_suffix := path_suffix E;
     path_stem := path_stem E;
     path_parent := path_parent E;
     path_join := path_join E;
     path_with_suffix := path_with_suffix E;
     str_lower := str_lower E;
     isalpha := isalpha E;
     librosa_get_duration := librosa_get_duration E;
     pydub_from_file := pydub_from_file E;
     pydub_export := pydub_export E;
     librosa_load := librosa_load E;
     sf_write := sf_write E;
     open_write := open_write E;
     os_unlink := os_unlink E;
     recognizer := r;
     elapsed_ms := elapsed_ms E;
     uuid4 := uuid4 E |}.

Section Process.
Context (H : Host).

(** *** config.py *)

Definition encoder_path : string :=
  path_join (env H) (model_dir (model_settings H)) "encoder.int8.onnx".

Definition decoder_path : string :=
  path_join (env H) (model_dir (model_settings H)) "decoder.int8.onnx".

Definition joiner_path : string :=
  path_join (env H) (model_dir (model_settings H)) "joiner.int8.onnx".

Definition tokens_path : string :=
  path_join (env H) (model_dir (model_settings H)) "tokens.txt".

(** [f.exists()] as a test. *)
Definition present (fs : gmap string blob) (f : string) : bool :=
  bool_decide (is_Some (fs !! f)).

(** [missing = [f for f in required_files if not f.exists()]] *)
Definition missing_files (fs : gmap string blob) : list string :=
  List.filter (fun f => negb (present fs f))
    [encoder_path; decoder_path; joiner_path; tokens_path].

Definition validate_model_files : M world unit :=
  fun w =>
    match missing_files (files w) with
    | [] => (Ok tt, w)
    | missing =>
        (Raise (RuntimeError
                  ("Missing model files: " ++ repr_list H missing
                   ++ String (ascii_of_nat 10)
                        ("Expected in: " ++ model_dir (model_settings H)))),
         w)
    end.

(** *** ml_models/asr.py *)

Definition is_loaded (s : server) : bool :=
  match srv_model s with
  | Some _ => true
  | None => false
  end.

Definition load_model : M server unit :=
  fun s =>
    if is_loaded s then (Ok tt, s)
    else
      (let* _ := in_world validate_model_files in
       try_except
         (fun s' =>
            match from_transducer H (files (srv_world s')) with
            | inr r => (Ok tt, set_model (Some r) s')
            | inl detail => (Raise (LibraryError detail), s')
            end)
         (fun e => raise (RuntimeError ("Failed to load ASR model: " ++ str e))))
        s.

Definition unload_model : M server unit :=
  fun s => if is_loaded s then (Ok tt, set_model None s) else (Ok tt, s).

(** *** services/audio_processor.py: [cleanup_temp_directory] *)

(** [file_path.is_file()]: whether the path is a file.  An error of [stat]
    other than a missing file is raised, and nothing around the call catches
    it. *)
Definition is_file (file_path : string) : M world bool :=
  fun w =>
    match stat_error H (files w) file_path with
    | Some detail => (Raise (LibraryError detail), w)
    | None => (Ok (present (files w) file_path), w)
    end.

(** The [for file_path in temp_dir.iterdir()] loop with its [count]. *)
Fixpoint remove_entries (entries : list string) (count : Z) : M world Z :=
  match entries with
  | [] => ret count
  | file_path :: rest =>
      let* file := is_file file_path in
      if file then
        let* removed :=
          try_except (let* _ := unlink (env H) file_path in ret true)
            (fun _ => ret false) in
        remove_entries rest (if removed then count + 1 else count)
      else remove_entries rest count
  end.

(** Nothing in the function catches what [temp_dir.exists()], [mkdir],
    the listing or [is_file] raise; the listing is made once, before the
    first deletion. *)
Definition cleanup_temp_directory : M server Z :=
  fun s =>
    match stat_error H (files (srv_world s)) (temp_dir (settings (env H))) with
    | Some detail => (Raise (LibraryError detail), s)
    | None =>
        if negb (srv_temp_dir s) then
          match mkdir_error H (files (srv_world s))
                  (temp_dir (settings (env H))) with
          | Some detail => (Raise (LibraryError detail), s)
          | None => (Ok 0, set_temp_dir true s)
          end
        else
          in_world
            (let* entries :=
               lib_read (fun fs => iterdir H fs (temp_dir (settings (env H)))) in
             remove_entries entries 0)
            s
    end.

(** *** main.py: [lifespan], [/health] and the endpoint in the process *)

Definition startup : M server unit :=
  let* files_removed := cleanup_temp_directory in
  let* _ := try_except load_model (fun _ => ret tt) in
  ret tt.

Definition shutdown : M server unit :=
  let* _ := try_except unload_model (fun _ => ret tt) in
  let* _ := cleanup_temp_directory in
  ret tt.

(** [HealthResponse] *)
Record HealthResponse : Type := mkHealth {
  status : string;
  model_loaded : bool;
  model_name : string;
  used_gb : Q;
  available_gb : Q
}.

Definition health_check (s : server) : HealthResponse :=
  {| status := if is_loaded s then "healthy" else "degraded";
     model_loaded := is_loaded s;
     model_name := "parakeet-tdt-0.6b-v3";
     used_gb := fst (memory_gb H);
     available_gb := snd (memory_gb H) |}.

(** [POST /transcribe] with the recognizer the process holds. *)
Definition handle_transcribe (audio : UploadFile) (language : option string)
    : M server response :=
  fun s =>
    in_world
      (transcribe_audio (with_recognizer (srv_model s) (env H)) audio language)
      s.

End Process.

(** ** The vocabulary of the further properties *)

(** [t] begins with white space. *)
Definition starts_with_space (t : text) : bool :=
  match t with
  | c :: _ => isspace c
  | [] => false
  end.

(** Two outcomes that differ at most in the language of the result. *)
Definition same_but_language (o o' : result TranscriptionResult) : Prop :=
  match o, o' with
  | Ok r, Ok r' =>
      text_of r = text_of r'
      /\ duration_of r = duration_of r'
      /\ chunks_processed r = chunks_processed r'
      /\ processing_time_ms r = processing_time_ms r'
  | Raise e, Raise e' => e = e'
  | _, _ => False
  end.

(** A process on the sample paths: the model lives in [/models], the temp
    directory is listed by the parent of each path, and neither listing nor
    [stat] nor [mkdir] fails. *)
Definition sample_host (E : Env) (load : string + decoder) : Host :=
  {| env := E;
     model_settings := {| model_dir := "/models"; num_threads := 4 |};
     iterdir := fun fs d =>
       inr (List.filter (fun p => String.eqb (Sample.parent p) d)
              (map fst (map_to_list fs)));
     stat_error := fun _ _ => None;
     mkdir_error := fun _ _ => None;
     from_transducer := fun _ => load;
     repr_list := fun l =>
       "[" ++ String.concat ", " (map (fun f => "'" ++ f ++ "'") l) ++ "]";
     memory_gb := (2.5, 5.5)%Q |}.

(** The same process when the temp directory cannot be listed. *)
Definition unlistable (E : Env) (load : string + decoder) : Host :=
  {| env := E;
     model_settings := {| model_dir := "/models"; num_threads := 4 |};
     iterdir := fun _ _ => inl "[Errno 13] Permission denied: '/app/temp'";
     stat_error := fun _ _ => None;
     mkdir_error := fun _ _ => None;
     from_transducer := fun _ => load;
     repr_list := fun l =>
       "[" ++ String.concat ", " (map (fun f => "'" ++ f ++ "'") l) ++ "]";
     memory_gb := (2.5, 5.5)%Q |}.

(** The four model files. *)
Definition model_files : gmap string blob :=
  {[ "/models/encoder.int8.onnx" := Raw [];
     "/models/decoder.int8.onnx" := Raw [];
     "/models/joiner.int8.onnx" := Raw [];
     "/models/tokens.txt" := Raw [] ]}.

(** What a recognizer that cannot decode the second chunk does. *)
Definition deaf_to_second (p : string) : string + text :=
  if String.eqb p "/app/temp/a.converted_chunk_0001.wav"
  then inl "invalid waveform"
  else inr (Sample.codepoints "hello").

(** The 125-second upload with that recognizer. *)
Definition second_chunk_fails : Env :=
  Sample.env Sample.settings_1hz (inr 125%Q) (inr (replicate 125 0.5%Q))
    (inr (replicate 125 0.5%Q)) (fun _ => Written) (fun _ => None)
    (Some deaf_to_second).

(** A 125-second upload whose converted file holds no sample. *)
Definition empty_waveform : Env :=
  Sample.env Sample.settings_1hz (inr 125%Q) (inr []) (inr [])
    (fun _ => Written) (fun _ => None)
    (Some (fun _ => inr (Sample.codepoints "hello"))).

(** An upload that pydub cannot decode and librosa can. *)
Definition needs_fallback : Env :=
  Sample.env default_settings (inr 30%Q)
    (inl "Decoding failed. ffmpeg returned error code: 1") (inr wave3)
    (fun _ => Written) (fun _ => None)
    (Some (fun _ => inr (Sample.codepoints "hello"))).

(** The model files are in place; two stale files lie in the temp
    directory. *)
Definition stale_world : world :=
  {| files := <["/app/temp/old.mp3" := Raw []]>
                (<["/app/temp/old.converted.wav" := Wav 16000 wave3]> model_files);
     asr_log := [] |}.

(** A process whose loader rejects the model. *)
Definition broken_loader : Host :=
  sample_host service (inl "Failed to load encoder.int8.onnx").

(** A process that has not loaded a model yet. *)
Definition cold (w : world) : server :=
  {| srv_world := w; srv_model := None; srv_temp_dir := true |}.

(** The code of an answer, when it is an error. *)
Definition answer_code (r : result response) : option string :=
  match r with
  | Ok (HTTPError _ code _ _) => Some code
  | _ => None
  end.

(** An upload whose filename has no extension. *)
Definition bare_name : UploadFile :=
  {| filename := Some "recording";
     size := Some 3;
     file := inr [Byte.x49; Byte.x44; Byte.x33] |}.


(** * Properties *)

(** ** Rationals and comparisons *)

Lemma Qlt_bool_true (x y : Q) : Qlt_bool x y = true <-> (x < y)%Q.
Proof.
  unfold Qlt_bool. rewrite negb_true_iff. split.
  - intros H. apply Qnot_le_lt. intros Hle.
    apply Qle_bool_iff in Hle. congruence.
  - intros H. destruct (Qle_bool y x) eqn:Hb; [|reflexivity].
    apply Qle_bool_iff in Hb. exfalso. exact (Qlt_not_le _ _ H Hb).
Qed.

Lemma Qlt_bool_false (x y : Q) : Qlt_bool x y = false <-> (y <= x)%Q.
Proof.
  unfold Qlt_bool. rewrite negb_false_iff. apply Qle_bool_iff.
Qed.

(** Validated settings have a positive chunk size, and so do the defaults. *)
Lemma valid_settings_chunk_size (s : Settings) :
  valid_settings s -> 0 < chunk_size_seconds s.
Proof. unfold valid_settings. lia. Qed.

Lemma default_settings_valid : valid_settings default_settings.
Proof. unfold valid_settings. simpl. lia. Qed.

(** ** Deleting files *)

Section Sweep.
Context (E : Env).

Lemma cleanup_file_run (p : string) (w : world) :
  cleanup_file E p w = (Ok tt, set_files (fun fs => sweep_step E fs p) w).
Proof.
  destruct w as [fs lg].
  unfold cleanup_file, try_except, bind, path_exists, unlink, ret, set_files,
    sweep_step; simpl.
  destruct (fs !! p) as [b|] eqn:Hp; simpl; [|reflexivity].
  rewrite Hp. destruct (os_unlink E fs p); reflexivity.
Qed.

Lemma unlink_swallowed_run (p : string) (w : world) :
  try_except (unlink E p) (fun _ => ret tt) w
  = (Ok tt, set_files (fun fs => sweep_step E fs p) w).
Proof.
  destruct w as [fs lg].
  unfold try_except, unlink, ret, set_files, sweep_step; simpl.
  destruct (fs !! p); [destruct (os_unlink E fs p)|]; reflexivity.
Qed.

Lemma cleanup_files_run (ps : list string) (w : world) :
  cleanup_files E ps w = (Ok tt, set_files (sweep E ps) w).
Proof.
  revert w. induction ps as [|p ps IH]; intros w.
  - destruct w; reflexivity.
  - simpl. unfold bind. rewrite cleanup_file_run, IH. reflexivity.
Qed.

Lemma unlink_each_run (ps : list string) (w : world) :
  unlink_each E ps w = (Ok tt, set_files (sweep E ps) w).
Proof.
  revert w. induction ps as [|p ps IH]; intros w.
  - destruct w; reflexivity.
  - simpl. unfold bind. rewrite unlink_swallowed_run, IH. reflexivity.
Qed.

Lemma sweep_step_lookup (fs : gmap string blob) (p q : string) :
  sweep_step E fs p !! q = fs !! q \/ (q = p /\ sweep_step E fs p !! q = None).
Proof.
  unfold sweep_step.
  destruct (fs !! p) eqn:Hp; [destruct (os_unlink E fs p)|]; auto.
  destruct (decide (q = p)) as [->|Hne].
  - right. split; [reflexivity | apply lookup_delete_eq].
  - left. apply lookup_delete_ne. congruence.
Qed.

(** A sweep touches no path outside its list. *)
Lemma sweep_other (ps : list string) (fs : gmap string blob) (q : string) :
  q ∉ ps -> sweep E ps fs !! q = fs !! q.
Proof.
  revert fs. induction ps as [|p ps IH]; intros fs Hq; [reflexivity|].
  simpl. rewrite IH; [|set_solver].
  destruct (sweep_step_lookup fs p q) as [H|[-> _]]; [exact H | set_solver].
Qed.

(** A sweep creates nothing. *)
Lemma sweep_absent (ps : list string) (fs : gmap string blob) (q : string) :
  fs !! q = None -> sweep E ps fs !! q = None.
Proof.
  revert fs. induction ps as [|p ps IH]; intros fs Hq; [exact Hq|].
  simpl. apply IH.
  destruct (sweep_step_lookup fs p q) as [H|[_ H]]; congruence.
Qed.

(** A path in the list whose deletion does not raise is gone afterwards. *)
Lemma sweep_gone (ps : list string) (fs : gmap string blob) (q : string) :
  q ∈ ps -> (forall fs', os_unlink E fs' q = None) -> sweep E ps fs !! q = None.
Proof.
  revert fs. induction ps as [|p ps IH]; intros fs Hq Hdel; [set_solver|].
  simpl. destruct (decide (q = p)) as [->|Hne].
  - apply sweep_absent. unfold sweep_step.
    destruct (fs !! p) eqn:Hp; [|exact Hp].
    rewrite Hdel. apply lookup_delete_eq.
  - apply IH; [|exact Hdel].
    apply elem_of_cons in Hq as [?|?]; [congruence | assumption].
Qed.

End Sweep.

(** ** What each step does to the world *)

Section Steps.
Context (E : Env).

Lemma get_audio_duration_run (p : string) (w : world) :
  get_audio_duration E p w =
  match librosa_get_duration E (files w) p with
  | inr d => (Ok d, w)
  | inl detail =>
      (Raise (AudioProcessingError ("Failed to get audio duration: " ++ detail)), w)
  end.
Proof.
  unfold get_audio_duration, try_except, lib_read, raise.
  destruct (librosa_get_duration E (files w) p); reflexivity.
Qed.

Lemma asr_transcribe_run (p : string) (w : world) :
  asr_transcribe E p w =
  match recognizer E with
  | None => (Raise (RuntimeError "Model not loaded"), log_call p w)
  | Some decode =>
      match decode (files w) p with
      | inr t => (Ok (strip t), log_call p w)
      | inl detail =>
          (Raise (RuntimeError ("Transcription failed: " ++ detail)), log_call p w)
      end
  end.
Proof.
  unfold asr_transcribe, bind, try_except, lib_read, raise, ret.
  destruct (recognizer E) as [decode|]; [|reflexivity]. simpl.
  destruct (decode (files w) p); reflexivity.
Qed.

Lemma asr_transcribe_files (p : string) (w : world) :
  files (snd (asr_transcribe E p w)) = files w
  /\ asr_log (snd (asr_transcribe E p w)) = (asr_log w ++ [p])%list.
Proof.
  rewrite asr_transcribe_run.
  destruct (recognizer E) as [decode|]; [|split; reflexivity].
  destruct (decode (files w) p); split; reflexivity.
Qed.

(** The converter returns the path it derives from its input and writes only
    there; when it raises, the message carries the detail of the librosa
    attempt. *)
Lemma convert_to_wav_spec (p : string) (w : world) :
  let out := path_with_suffix E p ".converted.wav" in
  match convert_to_wav E p w with
  | (Ok r, w') =>
      r = out /\ asr_log w' = asr_log w
      /\ exists b, files w' = <[out := b]> (files w)
  | (Raise e, w') =>
      (exists detail,
         e = AudioProcessingError ("Failed to convert audio: " ++ detail))
      /\ asr_log w' = asr_log w
      /\ (forall q, q <> out -> files w' !! q = files w !! q)
      /\ (clean_failures E -> files w' = files w)
  end.
Proof.
  intros out. destruct w as [fs lg].
  unfold convert_to_wav, convert_pydub, convert_librosa, try_except, bind,
    lib_read, lib_write, raise, ret, set_files. fold out. simpl.
  assert (Hsame : forall b q, q <> out -> <[out := b]> fs !! q = fs !! q).
  { intros b q Hq. apply lookup_insert_ne. congruence. }
  destruct (pydub_from_file E fs p _) as [d1|audio]; simpl.
  - destruct (librosa_load E fs p _) as [d2|y]; simpl.
    + repeat split; eauto.
    + destruct (sf_write E fs out) as [|d3 [|]] eqn:Hw; simpl;
        repeat split; eauto.
      intros Hc. destruct (Hc fs out d3) as [_ Hc']. congruence.
  - destruct (pydub_export E fs out) as [|d1 [|]] eqn:Hx; simpl.
    + repeat split; eauto.
    + destruct (librosa_load E _ p _) as [d2|y]; simpl.
      * repeat split; eauto.
        intros Hc. destruct (Hc fs out d1) as [Hc' _]. congruence.
      * destruct (sf_write E _ out) as [|d3 [|]] eqn:Hw; simpl.
        -- repeat split; eauto. eexists. apply insert_insert_eq.
        -- repeat split; eauto.
           ++ intros q Hq. rewrite insert_insert_eq. auto.
           ++ intros Hc. destruct (Hc fs out d1) as [Hc' _]. congruence.
        -- repeat split; eauto.
           intros Hc. destruct (Hc fs out d1) as [Hc' _]. congruence.
    + destruct (librosa_load E fs p _) as [d2|y]; simpl.
      * repeat split; eauto.
      * destruct (sf_write E fs out) as [|d3 [|]] eqn:Hw; simpl;
          repeat split; eauto.
        intros Hc. destruct (Hc fs out d3) as [_ Hc']. congruence.
Qed.

Lemma store_chunks_other p y sr total cs idx fs q :
  q ∉ map (chunk_path E p) idx ->
  store_chunks E p y sr total cs idx fs !! q = fs !! q.
Proof.
  revert fs. induction idx as [|i idx IH]; intros fs Hq; [reflexivity|].
  simpl in *. apply not_elem_of_cons in Hq as [Hne Hq].
  unfold store_chunks in *. simpl. rewrite IH by exact Hq.
  apply lookup_insert_ne. congruence.
Qed.

Lemma store_chunks_present p y sr total cs idx fs q :
  is_Some (fs !! q) -> is_Some (store_chunks E p y sr total cs idx fs !! q).
Proof.
  revert fs. induction idx as [|i idx IH]; intros fs Hq; [exact Hq|].
  unfold store_chunks in *. simpl. apply IH.
  rewrite lookup_insert. case_decide; eauto.
Qed.

Lemma store_chunks_written p y sr total cs idx fs c :
  c ∈ map (chunk_path E p) idx ->
  is_Some (store_chunks E p y sr total cs idx fs !! c).
Proof.
  revert fs. induction idx as [|i idx IH]; intros fs Hc.
  - apply elem_of_nil in Hc. contradiction.
  - simpl in Hc. unfold store_chunks. simpl.
    destruct (decide (c ∈ map (chunk_path E p) idx)) as [Hin|Hout].
    + apply IH. exact Hin.
    + apply elem_of_cons in Hc as [->|Hc]; [|contradiction].
      apply store_chunks_present. rewrite lookup_insert_eq. eauto.
Qed.

Lemma store_chunks_lookup p y sr total cs idx fs i :
  NoDup (map (chunk_path E p) idx) -> i ∈ idx ->
  store_chunks E p y sr total cs idx fs !! chunk_path E p i
  = Some (chunk_blob y sr total cs i).
Proof.
  revert fs. induction idx as [|j idx IH]; intros fs Hnd Hi.
  - apply elem_of_nil in Hi. contradiction.
  - simpl in Hnd. apply NoDup_cons in Hnd as [Hj Hnd].
    apply elem_of_cons in Hi as [->|Hi].
    + change (store_chunks E p y sr total cs (j :: idx) fs)
        with (store_chunks E p y sr total cs idx
                (<[chunk_path E p j := chunk_blob y sr total cs j]> fs)).
      rewrite store_chunks_other by exact Hj. apply lookup_insert_eq.
    + apply IH; assumption.
Qed.

(** One run of the chunk loop from the local [acc]: it appends the paths of
    the chunks it wrote, in order, and stops at the first write that raises. *)
Lemma split_loop_spec p y sr total cs idx acc w :
  match split_loop E p y sr total cs idx (acc, w) with
  | (r, (acc', w')) =>
      asr_log w' = asr_log w
      /\ exists k, (k <= length idx)%nat
         /\ acc' = (acc ++ map (chunk_path E p) (take k idx))%list
         /\ (forall q, is_Some (files w !! q) -> is_Some (files w' !! q))
         /\ (forall c, c ∈ map (chunk_path E p) (take k idx) ->
                       is_Some (files w' !! c))
         /\ (forall q, q ∉ map (chunk_path E p) idx ->
                       files w' !! q = files w !! q)
         /\ (clean_failures E \/ (exists u, r = Ok u) ->
             files w' = store_chunks E p y sr total cs (take k idx) (files w))
         /\ match r with
            | Ok _ => k = length idx
            | Raise e => exists detail, e = LibraryError detail
            end
  end.
Proof.
  revert acc w. induction idx as [|i idx IH]; intros acc w.
  - simpl. split; [reflexivity|]. exists 0%nat. simpl.
    rewrite app_nil_r. repeat split; auto. intros c Hc. set_solver.
  - simpl. unfold bind at 1. unfold call at 1. simpl.
    unfold lib_write at 1.
    destruct (sf_write E (files w) (chunk_path E p i)) as [|d [|]] eqn:Hw.
    + unfold bind at 1. unfold modify_local at 1. simpl.
      set (w1 := set_files _ w).
      specialize (IH (acc ++ [chunk_path E p i])%list w1).
      destruct (split_loop E p y sr total cs idx _) as [r [acc' w']].
      destruct IH as (Hlog & k & Hk & Hacc & Hmono & Hin & Hout & Hfs & Hr).
      split; [exact Hlog|]. exists (S k). simpl.
      assert (Hhere : is_Some (files w1 !! chunk_path E p i)).
      { subst w1. simpl. rewrite lookup_insert_eq. eauto. }
      repeat split.
      * lia.
      * rewrite Hacc, <- app_assoc. reflexivity.
      * intros q Hq. apply Hmono. subst w1. simpl.
        rewrite lookup_insert. case_decide; eauto.
      * intros c Hc. apply elem_of_cons in Hc as [->|Hc]; auto.
      * intros q Hq. apply not_elem_of_cons in Hq as [Hne Hq].
        rewrite Hout by exact Hq. subst w1. simpl.
        apply lookup_insert_ne. congruence.
      * exact Hfs.
      * destruct r; [lia | exact Hr].
    + simpl. split; [reflexivity|]. exists 0%nat. simpl.
      rewrite app_nil_r. repeat split; eauto; try lia.
      * intros q Hq. rewrite lookup_insert. case_decide; eauto.
      * intros c Hc. set_solver.
      * intros q Hq. apply not_elem_of_cons in Hq as [Hne Hq].
        apply lookup_insert_ne. congruence.
      * intros [Hc|[u Hu]]; [|discriminate].
        destruct (Hc (files w) (chunk_path E p i) d) as [_ Hc']. congruence.
    + simpl. split; [reflexivity|]. exists 0%nat. simpl.
      rewrite app_nil_r. repeat split; eauto; try lia.
      intros c Hc. set_solver.
Qed.

(** The [try] block of the chunker, with the local [chunks] it exits with. *)
Lemma split_try_spec p C w :
  let sr := sample_rate (settings E) in
  match split_try E p C ([], w) with
  | (r, (created, w1)) =>
      asr_log w1 = asr_log w
      /\ (exists k, created = map (chunk_path E p) (seq 0 k))
      /\ (forall c, c ∈ created -> is_Some (files w1 !! c))
      /\ (forall q, (forall i, q <> chunk_path E p i) ->
                    files w1 !! q = files w !! q)
      /\ (clean_failures E ->
          forall q, q ∉ created -> files w1 !! q = files w !! q)
      /\ match r with
         | Ok chunks =>
             chunks = created
             /\ exists y, librosa_load E (files w) p sr = inr y
                /\ C * sr <> 0
                /\ let total := Z.of_nat (length y) in
                   let idx := range (num_chunks total (C * sr)) in
                   created = map (chunk_path E p) idx
                   /\ files w1 = store_chunks E p y sr total (C * sr) idx (files w)
         | Raise _ => True
         end
  end.
Proof.
  intros sr. unfold split_try. fold sr.
  unfold bind at 1. unfold call at 1. unfold lib_read at 1. simpl.
  destruct (librosa_load E (files w) p sr) as [d|y] eqn:Hy.
  { repeat split; auto. - exists 0%nat. reflexivity. - intros c Hc. set_solver. }
  unfold bind at 1. unfold true_div at 1.
  destruct (C * sr =? 0) eqn:Hz.
  { unfold raise. repeat split; auto.
    - exists 0%nat. reflexivity. - intros c Hc. set_solver. }
  apply Z.eqb_neq in Hz. unfold ret at 1. unfold bind at 1.
  set (total := Z.of_nat (length y)).
  pose proof (split_loop_spec p y sr total (C * sr)
                (range (Qceiling (inject_Z total / inject_Z (C * sr)))) [] w)
    as Hloop.
  fold (num_chunks total (C * sr)) in *.
  set (idx := range (num_chunks total (C * sr))) in *.
  destruct (split_loop E p y sr total (C * sr) idx ([], w)) as [r [created w1]].
  destruct Hloop as (Hlog & k & Hk & Hacc & Hmono & Hin & Hout & Hfs & Hr).
  simpl in Hacc.
  assert (Hseq : take k idx = seq 0 k).
  { unfold idx, range in *. rewrite length_seq in Hk.
    rewrite take_seq. f_equal. lia. }
  assert (Hoff : forall q, (forall i, q <> chunk_path E p i) ->
                           files w1 !! q = files w !! q).
  { intros q Hq. apply Hout. intros Hc.
    apply list_elem_of_fmap in Hc as (i & -> & _). exact (Hq i eq_refl). }
  assert (Hclean : clean_failures E \/ (exists u, r = Ok u) ->
                   forall q, q ∉ created -> files w1 !! q = files w !! q).
  { intros Hc q Hq. rewrite (Hfs Hc). apply store_chunks_other. congruence. }
  destruct r as [u|e]; simpl.
  - subst k. rewrite firstn_all in *.
    split; [exact Hlog|]. split; [exists (length idx); congruence|].
    split; [intros c Hc; apply Hin; congruence|].
    split; [exact Hoff|]. split; [intros Hc; apply Hclean; eauto|].
    split; [reflexivity|]. exists y. split; [reflexivity|].
    split; [exact Hz|]. split; [exact Hacc | apply Hfs; eauto].
  - split; [exact Hlog|]. split; [exists k; congruence|].
    split; [intros c Hc; apply Hin; congruence|].
    split; [exact Hoff|]. split; [intros Hc; apply Hclean; eauto | exact I].
Qed.

(** The chunker: on return the chunk files are in place and listed in index
    order; when it raises, only chunk paths may have changed, and nothing has
    if writes fail cleanly, deletions succeed and the chunk paths were free. *)
Lemma split_audio_spec p C w :
  let sr := sample_rate (settings E) in
  match split_audio E p C w with
  | (Ok chunks, w') =>
      asr_log w' = asr_log w
      /\ (forall q, q ∉ chunks -> files w' !! q = files w !! q)
      /\ exists y, librosa_load E (files w) p sr = inr y
         /\ C * sr <> 0
         /\ let total := Z.of_nat (length y) in
            let idx := range (num_chunks total (C * sr)) in
            chunks = map (chunk_path E p) idx
            /\ files w' = store_chunks E p y sr total (C * sr) idx (files w)
  | (Raise e, w') =>
      asr_log w' = asr_log w
      /\ (exists detail,
            e = AudioProcessingError ("Failed to split audio: " ++ detail))
      /\ (forall q, (forall i, q <> chunk_path E p i) ->
                    files w' !! q = files w !! q)
      /\ (clean_failures E -> deletions_succeed E ->
          forall q, files w' !! q = files w !! q
                    \/ ((exists i, q = chunk_path E p i)
                        /\ files w' !! q = None))
  end.
Proof.
  intros sr. pose proof (split_try_spec p C w) as Htry. fold sr in Htry.
  unfold split_audio, frame, try_except.
  destruct (split_try E p C ([], w)) as [r [created w1]].
  destruct Htry as (Hlog & [k Hk] & Hin & Hoff & Hclean & Hr).
  destruct r as [chunks|e]; simpl.
  - destruct Hr as (-> & y & Hy & Hz & Hc & Hfs).
    repeat split; [exact Hlog| |eauto 10].
    intros q Hq. rewrite Hfs. apply store_chunks_other. simpl in Hc. congruence.
  - unfold split_handler, bind, get_local, call, raise. simpl.
    rewrite unlink_each_run. simpl.
    repeat split; [exact Hlog|eauto| |].
    + intros q Hq. rewrite sweep_other; [apply Hoff; exact Hq|].
      rewrite Hk. intros Hc.
      apply list_elem_of_fmap in Hc as (i & -> & _). exact (Hq i eq_refl).
    + intros Hc Hdel q.
      destruct (decide (q ∈ created)) as [Hq|Hq].
      * right. split; [|apply sweep_gone; auto].
        rewrite Hk in Hq. apply list_elem_of_fmap in Hq as (i & -> & _). eauto.
      * left. rewrite sweep_other by exact Hq. apply Hclean; assumption.
Qed.

(** The recognition loop: it reads the chunks in order, changes no file, and
    keeps the non-empty texts; any failure is a [RuntimeError]. *)
Lemma transcribe_chunks_spec chunks acc w :
  match transcribe_chunks E chunks acc w with
  | (Ok texts, w') =>
      files w' = files w
      /\ asr_log w' = (asr_log w ++ chunks)%list
      /\ exists ts, Forall2 (fun p t => heard E (files w) p = Some t) chunks ts
         /\ texts = (acc ++ List.filter nonempty ts)%list
  | (Raise e, w') =>
      files w' = files w /\ exists message, e = RuntimeError message
  end.
Proof.
  revert acc w. induction chunks as [|c chunks IH]; intros acc w.
  - simpl. repeat split; [symmetry; apply app_nil_r|].
    exists []. split; [constructor | symmetry; apply app_nil_r].
  - simpl. unfold bind at 1. rewrite asr_transcribe_run.
    unfold heard in *.
    destruct (recognizer E) as [decode|]; [|split; eauto].
    destruct (decode (files w) c) as [d|t] eqn:Hd; [split; eauto|].
    specialize (IH (if nonempty (strip t) then (acc ++ [strip t])%list else acc)
                  (log_call c w)).
    destruct (transcribe_chunks E chunks _ (log_call c w)) as [[texts|e] w'].
    + destruct IH as (Hfs & Hlog & ts & Hts & Htexts).
      simpl in Hfs, Hlog, Hts.
      repeat split; [exact Hfs | rewrite Hlog, <- app_assoc; reflexivity|].
      exists (strip t :: ts). split.
      * constructor; [rewrite Hd; reflexivity | exact Hts].
      * rewrite Htexts. simpl.
        destruct (nonempty (strip t)); [rewrite <- app_assoc|]; reflexivity.
    + exact IH.
Qed.

End Steps.

(** ** The runs of the pipeline *)

Section GuardedRuns.
Context (E : Env) (audio_path : string) (language : option string) (w : world).

(** The guarded part ends in one of these ways. *)
Lemma transcribe_guarded_run :
  match transcribe_guarded E audio_path language ([], w) with
  | (outcome, (temp_files, w')) =>
      guarded_run E audio_path language w outcome temp_files w'
  end.
Proof.
  unfold transcribe_guarded, try_except, transcribe_body.
  unfold bind at 1. unfold call at 1. simpl.
  rewrite get_audio_duration_run.
  destruct (librosa_get_duration E (files w) audio_path) as [detail|d] eqn:Hd.
  { simpl. apply run_probe_failed. exact Hd. }
  destruct (Qlt_bool (inject_Z _) d) eqn:Hlong.
  { simpl. apply Qlt_bool_true in Hlong. eapply run_too_long; eauto. }
  apply Qlt_bool_false in Hlong.
  destruct (Qlt_bool d 0.1) eqn:Hshort.
  { simpl. apply Qlt_bool_true in Hshort. eapply run_too_short; eauto. }
  apply Qlt_bool_false in Hshort.
  assert (Hrange : in_range E d) by (split; assumption).
  unfold bind at 1. unfold call at 1. simpl.
  pose proof (convert_to_wav_spec E audio_path w) as Hconv. simpl in Hconv.
  fold (converted_path E audio_path) in Hconv.
  destruct (convert_to_wav E audio_path w) as [[out|e] w1] eqn:Hc.
  2:{ simpl. destruct Hconv as ([detail ->] & _). simpl.
      eapply (run_convert_failed E audio_path language w d
                (AudioProcessingError _)); eauto. }
  destruct Hconv as (-> & _).
  unfold bind at 1. unfold modify_local at 1. simpl.
  unfold bind at 1.
  destruct (Qlt_bool (inject_Z (chunk_size_seconds (settings E))) d) eqn:Hchunk.
  - apply Qlt_bool_true in Hchunk.
    unfold bind at 1. unfold call at 1. simpl.
    pose proof (split_audio_spec E (converted_path E audio_path)
                  (chunk_size_seconds (settings E)) w1) as Hsplit.
    simpl in Hsplit.
    destruct (split_audio E (converted_path E audio_path) _ w1) as [[chunks|e] w2] eqn:Hs.
    2:{ simpl. destruct Hsplit as (_ & [detail ->] & _). simpl.
        eapply (run_split_failed E audio_path language w d w1
                  (AudioProcessingError _)); eauto. }
    unfold bind at 1. unfold modify_local at 1. simpl.
    unfold bind at 1. unfold call at 1. simpl.
    pose proof (transcribe_chunks_spec E chunks [] w2) as Hloop.
    destruct (transcribe_chunks E chunks [] w2) as [[texts|e] w3] eqn:Ht.
    + simpl. eapply run_chunked; eauto.
    + simpl. destruct Hloop as (_ & [message ->]). simpl.
      eapply run_chunk_failed; eauto.
  - apply Qlt_bool_false in Hchunk.
    unfold bind at 1. unfold call at 1. simpl.
    pose proof (asr_transcribe_run E (converted_path E audio_path) w1) as Hasr.
    destruct (asr_transcribe E (converted_path E audio_path) w1) as [[full_text|e] w2] eqn:Ha.
    + simpl. eapply run_direct; eauto.
    + assert (He : exists message, e = RuntimeError message).
      { destruct (recognizer E) as [decode|]; [|inversion Hasr; eauto].
        destruct (decode (files w1) (converted_path E audio_path)); inversion Hasr; eauto. }
      destruct He as [message ->]. simpl. eapply run_direct_failed; eauto.
Qed.

End GuardedRuns.

Section Finally.
Context (E : Env).

(** The [finally] block never raises: the run ends with the outcome of the
    guarded part, in the world the sweep of [temp_files] leaves. *)
Lemma transcribe_frame_run audio_path language w :
  transcribe_frame E audio_path language ([], w) =
  match transcribe_guarded E audio_path language ([], w) with
  | (outcome, (temp_files, w1)) =>
      (outcome, (temp_files, set_files (sweep E temp_files) w1))
  end.
Proof.
  unfold transcribe_frame, try_finally. fold (transcribe_guarded E audio_path language).
  destruct (transcribe_guarded E audio_path language ([], w)) as [o [tf w1]].
  unfold bind, get_local, call. simpl. rewrite cleanup_files_run. reflexivity.
Qed.

Lemma transcribe_run audio_path language w :
  transcribe E audio_path language w =
  match transcribe_guarded E audio_path language ([], w) with
  | (outcome, (temp_files, w1)) => (outcome, set_files (sweep E temp_files) w1)
  end.
Proof.
  unfold transcribe, frame. rewrite transcribe_frame_run.
  destruct (transcribe_guarded E audio_path language ([], w)) as [o [tf w1]].
  reflexivity.
Qed.

(** When no deletion raises, a sweep removes exactly its list. *)
Lemma sweep_all ps fs q :
  deletions_succeed E ->
  sweep E ps fs !! q = if decide (q ∈ ps) then None else fs !! q.
Proof.
  intros Hdel. case_decide as Hq.
  - apply sweep_gone; [exact Hq | intros fs'; apply Hdel].
  - apply sweep_other. exact Hq.
Qed.

End Finally.

(** ** Deletion and the outcome *)

Section Deletion.
Context (E : Env) (del : gmap string blob -> string -> option string).

(** Until it raises, the chunker deletes nothing. *)
Lemma split_try_unlink p C s :
  split_try (with_unlink del E) p C s = split_try E p C s.
Proof. reflexivity. Qed.

(** What the chunker returns or raises does not depend on how deletion
    behaves. *)
Lemma split_audio_unlink p C w :
  match split_audio (with_unlink del E) p C w with
  | (Ok chunks, w') => split_audio E p C w = (Ok chunks, w')
  | (Raise e, _) => exists w0, split_audio E p C w = (Raise e, w0)
  end.
Proof.
  unfold split_audio, frame, try_except. rewrite split_try_unlink.
  destruct (split_try E p C ([], w)) as [[chunks|e] [created w1]]; simpl.
  - reflexivity.
  - unfold split_handler, bind, get_local, call, raise. simpl.
    rewrite !unlink_each_run. simpl. eauto.
Qed.

Lemma split_audio_unlink_ok p C w chunks w' :
  split_audio (with_unlink del E) p C w = (Ok chunks, w') ->
  split_audio E p C w = (Ok chunks, w').
Proof.
  intros Hs. pose proof (split_audio_unlink p C w) as Hsame.
  rewrite Hs in Hsame. exact Hsame.
Qed.

Lemma split_audio_unlink_raise p C w e w' :
  split_audio (with_unlink del E) p C w = (Raise e, w') ->
  exists w0, split_audio E p C w = (Raise e, w0).
Proof.
  intros Hs. pose proof (split_audio_unlink p C w) as Hsame.
  rewrite Hs in Hsame. exact Hsame.
Qed.

(** The ways the guarded part can end are ways it does end. *)
Lemma guarded_run_sound audio_path language w outcome temp_files w1 :
  guarded_run E audio_path language w outcome temp_files w1 ->
  transcribe_guarded E audio_path language ([], w) = (outcome, (temp_files, w1)).
Proof.
  intros Hrun.
  unfold transcribe_guarded, try_except, transcribe_body.
  unfold bind at 1. unfold call at 1. simpl. rewrite get_audio_duration_run.
  destruct Hrun as [detail Hd|d Hd Hlong|d Hd Hle Hshort|d e wa Hd [Hle Hge] Hc
                   |d wa e wb Hd [Hle Hge] Hc Hlt Hs
                   |d wa chunks wb m wc Hd [Hle Hge] Hc Hlt Hs Ht
                   |d wa chunks wb texts wc Hd [Hle Hge] Hc Hlt Hs Ht
                   |d wa m wb Hd [Hle Hge] Hc Hlt Ha
                   |d wa t wb Hd [Hle Hge] Hc Hlt Ha];
    rewrite Hd; simpl.
  - reflexivity.
  - rewrite (proj2 (Qlt_bool_true _ _) Hlong). reflexivity.
  - rewrite (proj2 (Qlt_bool_false _ _) Hle), (proj2 (Qlt_bool_true _ _) Hshort).
    reflexivity.
  - rewrite (proj2 (Qlt_bool_false _ _) Hle), (proj2 (Qlt_bool_false _ _) Hge).
    unfold bind at 1. unfold call at 1. simpl. rewrite Hc.
    pose proof (convert_to_wav_spec E audio_path w) as Hspec. simpl in Hspec.
    rewrite Hc in Hspec. destruct Hspec as ([detail ->] & _). reflexivity.
  - rewrite (proj2 (Qlt_bool_false _ _) Hle), (proj2 (Qlt_bool_false _ _) Hge).
    unfold bind at 1. unfold call at 1. simpl. rewrite Hc.
    unfold bind at 1. unfold modify_local at 1. simpl. unfold bind at 1.
    rewrite (proj2 (Qlt_bool_true _ _) Hlt).
    unfold bind at 1. unfold call at 1. simpl.
    fold (converted_path E audio_path). rewrite Hs.
    pose proof (split_audio_spec E (converted_path E audio_path)
                  (chunk_size_seconds (settings E)) wa) as Hspec.
    rewrite Hs in Hspec. destruct Hspec as (_ & [detail ->] & _). reflexivity.
  - rewrite (proj2 (Qlt_bool_false _ _) Hle), (proj2 (Qlt_bool_false _ _) Hge).
    unfold bind at 1. unfold call at 1. simpl. rewrite Hc.
    unfold bind at 1. unfold modify_local at 1. simpl. unfold bind at 1.
    rewrite (proj2 (Qlt_bool_true _ _) Hlt).
    unfold bind at 1. unfold call at 1. simpl.
    fold (converted_path E audio_path). rewrite Hs.
    unfold bind at 1. unfold modify_local at 1. simpl.
    unfold bind at 1. unfold call at 1. simpl. rewrite Ht. reflexivity.
  - rewrite (proj2 (Qlt_bool_false _ _) Hle), (proj2 (Qlt_bool_false _ _) Hge).
    unfold bind at 1. unfold call at 1. simpl. rewrite Hc.
    unfold bind at 1. unfold modify_local at 1. simpl. unfold bind at 1.
    rewrite (proj2 (Qlt_bool_true _ _) Hlt).
    unfold bind at 1. unfold call at 1. simpl.
    fold (converted_path E audio_path). rewrite Hs.
    unfold bind at 1. unfold modify_local at 1. simpl.
    unfold bind at 1. unfold call at 1. simpl. rewrite Ht. reflexivity.
  - rewrite (proj2 (Qlt_bool_false _ _) Hle), (proj2 (Qlt_bool_false _ _) Hge).
    unfold bind at 1. unfold call at 1. simpl. rewrite Hc.
    unfold bind at 1. unfold modify_local at 1. simpl. unfold bind at 1.
    rewrite (proj2 (Qlt_bool_false _ _) Hlt).
    unfold bind at 1. unfold call at 1. simpl.
    fold (converted_path E audio_path). rewrite Ha. reflexivity.
  - rewrite (proj2 (Qlt_bool_false _ _) Hle), (proj2 (Qlt_bool_false _ _) Hge).
    unfold bind at 1. unfold call at 1. simpl. rewrite Hc.
    unfold bind at 1. unfold modify_local at 1. simpl. unfold bind at 1.
    rewrite (proj2 (Qlt_bool_false _ _) Hlt).
    unfold bind at 1. unfold call at 1. simpl.
    fold (converted_path E audio_path). rewrite Ha. reflexivity.
Qed.

(** A way the guarded part ends under another deletion behaviour is, up to
    the world it leaves, a way it ends under [E]. *)
Lemma guarded_run_unlink audio_path language w outcome temp_files w1 :
  guarded_run (with_unlink del E) audio_path language w outcome temp_files w1 ->
  exists w1', guarded_run E audio_path language w outcome temp_files w1'.
Proof.
  intros Hrun.
  destruct Hrun as [detail Hd|d Hd Hlong|d Hd Hle Hshort|d e wa Hd Hr Hc
                   |d wa e wb Hd Hr Hc Hlt Hs
                   |d wa chunks wb m wc Hd Hr Hc Hlt Hs Ht
                   |d wa chunks wb texts wc Hd Hr Hc Hlt Hs Ht
                   |d wa m wb Hd Hr Hc Hlt Ha
                   |d wa t wb Hd Hr Hc Hlt Ha].
  - exists w. exact (run_probe_failed E audio_path language w detail Hd).
  - exists w. exact (run_too_long E audio_path language w d Hd Hlong).
  - exists w. exact (run_too_short E audio_path language w d Hd Hle Hshort).
  - exists wa. exact (run_convert_failed E audio_path language w d e wa Hd Hr Hc).
  - apply split_audio_unlink_raise in Hs as Hsame.
    destruct Hsame as [w0 Hsame]. exists w0.
    exact (run_split_failed E audio_path language w d wa e w0 Hd Hr Hc Hlt Hsame).
  - apply split_audio_unlink_ok in Hs as Hsame.
    exists wc.
    exact (run_chunk_failed E audio_path language w d wa chunks wb m wc
             Hd Hr Hc Hlt Hsame Ht).
  - apply split_audio_unlink_ok in Hs as Hsame.
    exists wc.
    exact (run_chunked E audio_path language w d wa chunks wb texts wc
             Hd Hr Hc Hlt Hsame Ht).
  - exists wb.
    exact (run_direct_failed E audio_path language w d wa m wb Hd Hr Hc Hlt Ha).
  - exists wb.
    exact (run_direct E audio_path language w d wa t wb Hd Hr Hc Hlt Ha).
Qed.

(** The outcome of a run does not depend on how deletion behaves. *)
Lemma outcome_ignores_deletion audio_path language w :
  fst (transcribe (with_unlink del E) audio_path language w)
  = fst (transcribe E audio_path language w).
Proof.
  rewrite !transcribe_run.
  pose proof (transcribe_guarded_run (with_unlink del E) audio_path language w)
    as Hrun.
  destruct (transcribe_guarded (with_unlink del E) audio_path language ([], w))
    as [outcome [temp_files w1]].
  apply guarded_run_unlink in Hrun as [w1' Hrun].
  apply guarded_run_sound in Hrun. rewrite Hrun. reflexivity.
Qed.

End Deletion.

(** ** Cleanup on every exit path *)

Section Cleanup.
Context (E : Env) (audio_path : string) (language : option string) (w : world).

(** The chunks the chunker returns are chunk paths of its input. *)
Lemma split_audio_chunks p C wa chunks wb :
  split_audio E p C wa = (Ok chunks, wb) ->
  (forall c, c ∈ chunks -> exists i, c = chunk_path E p i)
  /\ (forall q, q ∉ chunks -> files wb !! q = files wa !! q)
  /\ asr_log wb = asr_log wa
  /\ (forall c, c ∈ chunks -> is_Some (files wb !! c)).
Proof.
  intros Hs. pose proof (split_audio_spec E p C wa) as Hspec.
  rewrite Hs in Hspec. destruct Hspec as (Hlog & Hoff & y & _ & _ & -> & Hfs).
  split; [|split; [exact Hoff|split; [exact Hlog|]]].
  - intros c Hc. apply list_elem_of_fmap in Hc as (i & -> & _). eauto.
  - intros c Hc. rewrite Hfs. apply store_chunks_written. exact Hc.
Qed.

(** Only artifact paths are registered. *)
Lemma guarded_run_registered outcome temp_files w1 :
  guarded_run E audio_path language w outcome temp_files w1 ->
  forall p, p ∈ temp_files -> artifact E audio_path p.
Proof.
  intros Hrun p Hp.
  assert (Hchunks : forall C wa chunks wb,
            split_audio E (converted_path E audio_path) C wa = (Ok chunks, wb) ->
            p ∈ converted_path E audio_path :: chunks -> artifact E audio_path p).
  { intros C wa chunks wb Hs Hin.
    apply elem_of_cons in Hin as [->|Hin]; [left; reflexivity|].
    right. eapply split_audio_chunks; eauto. }
  destruct Hrun; eauto;
    try (apply elem_of_nil in Hp; contradiction);
    apply list_elem_of_singleton in Hp as ->; left; reflexivity.
Qed.

(** When writes fail cleanly and deletions succeed, the sweep of [temp_files]
    leaves every path as it was before the run, or an artifact path absent. *)
Lemma guarded_run_swept outcome temp_files w1 :
  clean_failures E -> deletions_succeed E ->
  guarded_run E audio_path language w outcome temp_files w1 ->
  forall q,
    sweep E temp_files (files w1) !! q = files w !! q
    \/ (artifact E audio_path q /\ sweep E temp_files (files w1) !! q = None).
Proof.
  intros Hclean Hdel Hrun q.
  assert (Hconv : forall wa r,
            convert_to_wav E audio_path w = (Ok r, wa) ->
            q <> converted_path E audio_path -> files wa !! q = files w !! q).
  { intros wa r Hc Hq.
    pose proof (convert_to_wav_spec E audio_path w) as Hspec. simpl in Hspec.
    rewrite Hc in Hspec. destruct Hspec as (_ & _ & b & ->).
    apply lookup_insert_ne. unfold converted_path in Hq. congruence. }
  assert (Hone : forall wa wb,
            convert_to_wav E audio_path w = (Ok (converted_path E audio_path), wa) ->
            (files wb !! q = files wa !! q
             \/ ((exists i, q = chunk_path E (converted_path E audio_path) i)
                 /\ files wb !! q = None)) ->
            sweep E [converted_path E audio_path] (files wb) !! q = files w !! q
            \/ (artifact E audio_path q
                /\ sweep E [converted_path E audio_path] (files wb) !! q = None)).
  { intros wa wb Hc Hq. rewrite (sweep_all E _ _ _ Hdel). case_decide as Hin.
    - apply list_elem_of_singleton in Hin as ->. right. split; [left|]; reflexivity.
    - rewrite list_elem_of_singleton in Hin.
      destruct Hq as [Hq|[Hq Hnone]].
      + left. rewrite Hq. eapply Hconv; eauto.
      + right. split; [right; exact Hq | exact Hnone]. }
  assert (Hall : forall wa chunks wb wc,
            convert_to_wav E audio_path w = (Ok (converted_path E audio_path), wa) ->
            split_audio E (converted_path E audio_path)
              (chunk_size_seconds (settings E)) wa = (Ok chunks, wb) ->
            files wc = files wb ->
            sweep E (converted_path E audio_path :: chunks) (files wc) !! q
            = files w !! q
            \/ (artifact E audio_path q
                /\ sweep E (converted_path E audio_path :: chunks) (files wc) !! q
                   = None)).
  { intros wa chunks wb wc Hc Hs Hfs.
    destruct (split_audio_chunks _ _ _ _ _ Hs) as (Hnames & Hoff & _ & _).
    rewrite (sweep_all E _ _ _ Hdel). case_decide as Hin.
    - right. split; [|reflexivity].
      apply elem_of_cons in Hin as [->|Hin]; [left; reflexivity|].
      right. apply Hnames. exact Hin.
    - apply not_elem_of_cons in Hin as [Hne Hin].
      left. rewrite Hfs, Hoff by exact Hin. eapply Hconv; eauto. }
  destruct Hrun as [detail Hd|d Hd Hlong|d Hd Hle Hshort|d e wa Hd Hr Hc
                   |d wa e wb Hd Hr Hc Hlt Hs|d wa chunks wb m wc Hd Hr Hc Hlt Hs Ht
                   |d wa chunks wb texts wc Hd Hr Hc Hlt Hs Ht
                   |d wa m wb Hd Hr Hc Hle Ha|d wa t wb Hd Hr Hc Hle Ha].
  - left. reflexivity.
  - left. reflexivity.
  - left. reflexivity.
  - left. simpl.
    pose proof (convert_to_wav_spec E audio_path w) as Hspec. simpl in Hspec.
    rewrite Hc in Hspec. destruct Hspec as (_ & _ & _ & Hfs).
    rewrite (Hfs Hclean). reflexivity.
  - apply (Hone wa wb Hc).
    pose proof (split_audio_spec E (converted_path E audio_path)
                  (chunk_size_seconds (settings E)) wa) as Hspec.
    rewrite Hs in Hspec. destruct Hspec as (_ & _ & _ & Hfs).
    apply Hfs; assumption.
  - apply (Hall wa chunks wb wc Hc Hs).
    pose proof (transcribe_chunks_spec E chunks [] wb) as Hspec.
    rewrite Ht in Hspec. apply Hspec.
  - apply (Hall wa chunks wb wc Hc Hs).
    pose proof (transcribe_chunks_spec E chunks [] wb) as Hspec.
    rewrite Ht in Hspec. apply Hspec.
  - apply (Hone wa wb Hc). left.
    pose proof (asr_transcribe_files E (converted_path E audio_path) wa) as [Hfs _].
    rewrite Ha in Hfs. simpl in Hfs. rewrite Hfs. reflexivity.
  - apply (Hone wa wb Hc). left.
    pose proof (asr_transcribe_files E (converted_path E audio_path) wa) as [Hfs _].
    rewrite Ha in Hfs. simpl in Hfs. rewrite Hfs. reflexivity.
Qed.

End Cleanup.

(** C1 (as amended).  Whatever the outcome of a run, [transcribe] returns the
    outcome of its guarded part after one guarded deletion of every registered
    path: the registered paths are artifact paths (the converted WAV file and
    the chunk files), a registered path whose deletion does not raise is
    absent when the run returns, a deletion that raises and a path that is
    already absent are passed over, and the outcome is the same however
    deletion behaves.  When moreover no write fails leaving a file, no
    deletion raises and the artifact paths were free before the run, the
    files after the run are the files before it. *)
Theorem transcribe_cleanup (E : Env) (audio_path : string)
    (language : option string) (w : world) :
  (forall del,
     fst (transcribe (with_unlink del E) audio_path language w)
     = fst (transcribe E audio_path language w))
  /\
  match transcribe_guarded E audio_path language ([], w) with
  | (outcome, (temp_files, w1)) =>
      let after := sweep E temp_files (files w1) in
      guarded_run E audio_path language w outcome temp_files w1
      /\ transcribe E audio_path language w
         = (outcome, set_files (sweep E temp_files) w1)
      /\ (forall p, p ∈ temp_files -> artifact E audio_path p)
      /\ (forall p, p ∈ temp_files ->
                    (forall fs, os_unlink E fs p = None) -> after !! p = None)
      /\ (forall p, files w1 !! p = None -> after !! p = None)
      /\ (clean_failures E -> deletions_succeed E ->
          (forall q, artifact E audio_path q -> files w !! q = None) ->
          after = files w)
  end.
Proof.
  split; [intros del; apply outcome_ignores_deletion|].
  pose proof (transcribe_guarded_run E audio_path language w) as Hrun.
  pose proof (transcribe_run E audio_path language w) as Heq.
  destruct (transcribe_guarded E audio_path language ([], w))
    as [outcome [temp_files w1]].
  simpl. split; [exact Hrun|]. split; [exact Heq|].
  split; [eapply guarded_run_registered; exact Hrun|].
  split; [intros p Hp Hdel; apply sweep_gone; assumption|].
  split; [intros p Hp; apply sweep_absent; exact Hp|].
  intros Hclean Hdel Hfree. apply map_eq. intros q.
  destruct (guarded_run_swept E audio_path language w _ _ _ Hclean Hdel Hrun q)
    as [Hq|[Hart Hq]]; [exact Hq|].
  rewrite Hq. symmetry. apply Hfree. exact Hart.
Qed.

(** C1 (as stated) fails: the run succeeds, the deletion of the converted
    file raises and is passed over, and the temp directory has one file more
    than before the run. *)
Lemma cleanup_counterexample :
  (exists r,
     fst (transcribe undeletable "/app/temp/a.mp3" None Sample.world0) = Ok r)
  /\ files Sample.world0 !! "/app/temp/a.converted.wav" = None
  /\ files (snd (transcribe undeletable "/app/temp/a.mp3" None Sample.world0))
       !! "/app/temp/a.converted.wav" = Some (Wav 1 wave3)
  /\ dom (files (snd (transcribe undeletable "/app/temp/a.mp3" None
                        Sample.world0)))
     <> dom (files Sample.world0).
Proof.
  assert (Hbefore : files Sample.world0 !! "/app/temp/a.converted.wav" = None)
    by (vm_compute; reflexivity).
  assert (Hafter :
            files (snd (transcribe undeletable "/app/temp/a.mp3" None Sample.world0))
              !! "/app/temp/a.converted.wav" = Some (Wav 1 wave3))
    by (vm_compute; reflexivity).
  split; [eexists; vm_compute; reflexivity|].
  split; [exact Hbefore|]. split; [exact Hafter|].
  intros Hdom.
  apply not_elem_of_dom in Hbefore. apply Hbefore. rewrite <- Hdom.
  apply elem_of_dom. rewrite Hafter. eauto.
Qed.

Lemma sunny_clean s d y said : clean_failures (Sample.sunny s d y said).
Proof. intros fs p detail. split; discriminate. Qed.

Lemma sunny_deletes s d y said : deletions_succeed (Sample.sunny s d y said).
Proof. intros fs p. reflexivity. Qed.

Lemma world0_free s d y said q :
  artifact (Sample.sunny s d y said) "/app/temp/a.mp3" q ->
  files Sample.world0 !! q = None.
Proof.
  intros [->|[i ->]]; apply lookup_singleton_ne.
  - vm_compute. discriminate.
  - unfold chunk_path, converted_path. simpl. discriminate.
Qed.

(** The amended C1 at work: after a chunked run the files are those the run
    started from. *)
Lemma transcribe_cleanup_witness :
  files (snd (transcribe long_upload "/app/temp/a.mp3" None Sample.world0))
  = files Sample.world0.
Proof.
  pose proof (transcribe_cleanup long_upload "/app/temp/a.mp3" None Sample.world0)
    as [_ H].
  destruct (transcribe_guarded long_upload "/app/temp/a.mp3" None
              ([], Sample.world0)) as [outcome [temp_files w1]].
  destruct H as (_ & Heq & _ & _ & _ & Hnet). rewrite Heq. simpl.
  apply Hnet.
  - apply sunny_clean.
  - apply sunny_deletes.
  - apply world0_free.
Defined.

(** ** The duration gate *)

(** The possible ends of the guarded part once the probe has measured [d]. *)
Ltac same_probe Hd :=
  match goal with
  | H : librosa_get_duration _ _ _ = _ |- _ =>
      rewrite Hd in H; inversion H; subst; clear H
  end.

Ltac absurd_order :=
  match goal with
  | H1 : (?x < ?y)%Q, H2 : (?y <= ?x)%Q |- _ =>
      exfalso; exact (Qlt_not_le _ _ H1 H2)
  | H1 : (?x < ?y)%Q, H2 : in_range _ ?y |- _ =>
      exfalso; exact (Qlt_not_le _ _ H1 (proj1 H2))
  | H1 : (?y < ?x)%Q, H2 : in_range _ ?y |- _ =>
      exfalso; exact (Qlt_not_le _ _ H1 (proj2 H2))
  end.

Lemma set_files_sweep_nil (E : Env) (w : world) : set_files (sweep E []) w = w.
Proof. destruct w; reflexivity. Qed.

(** C3 (as amended).  Once the probe has measured [d]: when [d] exceeds the
    configured maximum the run fails with AUDIO_TOO_LONG; when [d] does not
    exceed the maximum and is below 0.1 the run fails with AUDIO_TOO_SHORT;
    both failures leave the files, the registered paths and the recognizer
    untouched.  Otherwise the run proceeds: it fails with neither code, and a
    result carries [d] unchanged.  In particular 9000 with maximum 7200 is
    too long, and 0.05 is too short for any maximum of at least one second. *)
Theorem duration_gate (E : Env) (audio_path : string)
    (language : option string) (w : world) (d : Q) :
  librosa_get_duration E (files w) audio_path = inr d ->
  let maximum := max_audio_duration_seconds (settings E) in
  let run := transcribe_frame E audio_path language ([], w) in
  let too_long :=
    TranscriptionError
      ("Audio too long. Maximum duration is " ++ pretty (maximum `div` 60)
       ++ " minutes.") "AUDIO_TOO_LONG" in
  let too_short :=
    TranscriptionError "Audio file appears to be empty or too short."
      "AUDIO_TOO_SHORT" in
  ((inject_Z maximum < d)%Q -> run = (Raise too_long, ([], w)))
  /\ ((d <= inject_Z maximum)%Q -> (d < 0.1)%Q ->
      run = (Raise too_short, ([], w)))
  /\ ((d <= inject_Z maximum)%Q -> (0.1 <= d)%Q ->
      (forall r s, run = (Ok r, s) -> duration_of r = d)
      /\ (forall message code s,
            run = (Raise (TranscriptionError message code), s) ->
            code <> "AUDIO_TOO_SHORT" /\ code <> "AUDIO_TOO_LONG"))
  /\ ((d == 9000)%Q -> maximum = 7200 -> run = (Raise too_long, ([], w)))
  /\ ((d == 0.05)%Q -> 1 <= maximum -> run = (Raise too_short, ([], w))).
Proof.
  intros Hd maximum run too_long too_short.
  pose proof (transcribe_guarded_run E audio_path language w) as Hrun.
  assert (Hframe := transcribe_frame_run E audio_path language w).
  fold run in Hframe.
  destruct (transcribe_guarded E audio_path language ([], w))
    as [outcome [temp_files w1]].
  assert (Hlong : (inject_Z maximum < d)%Q -> run = (Raise too_long, ([], w))).
  { intros Hlt. rewrite Hframe.
    inversion Hrun; subst; same_probe Hd; try absurd_order.
    rewrite set_files_sweep_nil. reflexivity. }
  assert (Hshort : (d <= inject_Z maximum)%Q -> (d < 0.1)%Q ->
                   run = (Raise too_short, ([], w))).
  { intros Hle Hlt. rewrite Hframe.
    inversion Hrun; subst; same_probe Hd; try absurd_order.
    rewrite set_files_sweep_nil. reflexivity. }
  split; [exact Hlong|]. split; [exact Hshort|]. split; [|split].
  - intros Hle Hge. rewrite Hframe. split.
    + intros r s Heq. inversion Heq; subst.
      inversion Hrun; subst; same_probe Hd; reflexivity.
    + intros message code s Heq. inversion Heq; subst.
      inversion Hrun; subst; same_probe Hd; try absurd_order;
        split; discriminate.
  - intros Heq Hmax. apply Hlong. rewrite Heq, Hmax. reflexivity.
  - intros Heq Hmax. apply Hshort.
    + rewrite Heq. apply Qle_trans with (inject_Z 1); [discriminate|].
      rewrite <- Zle_Qle. exact Hmax.
    + rewrite Heq. reflexivity.
Qed.

(** C3 (as stated) fails: the maximum is tested first, so with a maximum of
    zero a duration of 0.05, which is below 0.1, is reported as too long. *)
Lemma duration_gate_counterexample :
  (0.05 < 0.1)%Q
  /\ fst (transcribe
           (Sample.sunny zero_maximum 0.05 wave3 (fun _ => Sample.codepoints "hello"))
           "/app/temp/a.mp3" None Sample.world0)
     = Raise (TranscriptionError
                "Audio too long. Maximum duration is 0 minutes."
                "AUDIO_TOO_LONG")
  /\ forall message,
       fst (transcribe
              (Sample.sunny zero_maximum 0.05 wave3
                 (fun _ => Sample.codepoints "hello"))
              "/app/temp/a.mp3" None Sample.world0)
       <> Raise (TranscriptionError message "AUDIO_TOO_SHORT").
Proof.
  assert (Hrun : fst (transcribe
                        (Sample.sunny zero_maximum 0.05 wave3
                           (fun _ => Sample.codepoints "hello"))
                        "/app/temp/a.mp3" None Sample.world0)
                 = Raise (TranscriptionError
                            "Audio too long. Maximum duration is 0 minutes."
                            "AUDIO_TOO_LONG"))
    by (vm_compute; reflexivity).
  split; [reflexivity|]. split; [exact Hrun|].
  intros message H. rewrite Hrun in H. inversion H.
Qed.

(** The amended gate at the default settings: 0.05 seconds is too short and
    nothing has been written. *)
Lemma duration_gate_witness :
  transcribe_frame
    (Sample.sunny default_settings 0.05 wave3 (fun _ => Sample.codepoints "hello"))
    "/app/temp/a.mp3" None ([], Sample.world0)
  = (Raise (TranscriptionError "Audio file appears to be empty or too short."
              "AUDIO_TOO_SHORT"),
     ([], Sample.world0)).
Proof.
  destruct (duration_gate
              (Sample.sunny default_settings 0.05 wave3
                 (fun _ => Sample.codepoints "hello"))
              "/app/temp/a.mp3" None Sample.world0 0.05 eq_refl)
    as (_ & Hshort & _).
  apply Hshort; [discriminate | reflexivity].
Defined.

(** ** Conversion with a fallback *)

(** C4 (as amended).  When the pydub attempt raises, the librosa attempt is
    made from the world the pydub attempt left.  When it returns, the
    converter returns the converted path; when it raises too, the converter
    raises with the detail of the librosa failure, and a run whose duration
    passed the gate fails with code AUDIO_PROCESSING_ERROR and that message,
    having registered nothing, called no recognizer and changed no path other
    than the converted one: no chunk file exists that did not exist before. *)
Theorem conversion_fallback (E : Env) (audio_path : string)
    (language : option string) (w : world) (e1 : exn) (w1 : world) :
  convert_pydub E audio_path (converted_path E audio_path) w = (Raise e1, w1) ->
  let failed e2 :=
    AudioProcessingError ("Failed to convert audio: " ++ str e2) in
  convert_to_wav E audio_path w
  = try_except (convert_librosa E audio_path (converted_path E audio_path))
      (fun e2 => raise (failed e2)) w1
  /\ (forall r w2,
        convert_librosa E audio_path (converted_path E audio_path) w1 = (Ok r, w2) ->
        convert_to_wav E audio_path w = (Ok (converted_path E audio_path), w2))
  /\ (forall e2 w2,
        convert_librosa E audio_path (converted_path E audio_path) w1
        = (Raise e2, w2) ->
        convert_to_wav E audio_path w = (Raise (failed e2), w2)
        /\ forall d,
             librosa_get_duration E (files w) audio_path = inr d ->
             in_range E d ->
             transcribe_frame E audio_path language ([], w)
             = (Raise (TranscriptionError ("Failed to convert audio: " ++ str e2)
                         "AUDIO_PROCESSING_ERROR"),
                ([], w2))
             /\ asr_log w2 = asr_log w
             /\ forall q, q <> converted_path E audio_path ->
                          files w2 !! q = files w !! q).
Proof.
  intros Hp failed.
  assert (Hconv : convert_to_wav E audio_path w
                  = try_except
                      (convert_librosa E audio_path (converted_path E audio_path))
                      (fun e2 => raise (failed e2)) w1).
  { unfold convert_to_wav. fold (converted_path E audio_path).
    unfold try_except at 1. rewrite Hp. reflexivity. }
  split; [exact Hconv|]. split.
  - intros r w2 Hl. rewrite Hconv. unfold try_except. rewrite Hl.
    f_equal. f_equal.
    unfold convert_librosa, bind, lib_read, lib_write, ret in Hl.
    destruct (librosa_load E (files w1) audio_path _); [discriminate|].
    destruct (sf_write E (files w1) _) as [|? [|]]; inversion Hl; reflexivity.
  - intros e2 w2 Hl.
    assert (Hraise : convert_to_wav E audio_path w = (Raise (failed e2), w2)).
    { rewrite Hconv. unfold try_except. rewrite Hl. reflexivity. }
    split; [exact Hraise|]. intros d Hd Hrange.
    pose proof (convert_to_wav_spec E audio_path w) as Hspec. simpl in Hspec.
    rewrite Hraise in Hspec. destruct Hspec as (_ & Hlog & Hoff & _).
    split; [|split; [exact Hlog | exact Hoff]].
    rewrite transcribe_frame_run.
    pose proof (transcribe_guarded_run E audio_path language w) as Hrun.
    destruct (transcribe_guarded E audio_path language ([], w))
      as [outcome [temp_files w']].
    destruct Hrange as [Hle Hge].
    inversion Hrun; subst; same_probe Hd; try absurd_order;
      match goal with
      | H : convert_to_wav _ _ _ = _ |- _ =>
          rewrite Hraise in H; inversion H; subst; clear H
      end.
    rewrite set_files_sweep_nil. reflexivity.
Qed.

(** C4 (as stated) fails: when both strategies fail the code reported is
    AUDIO_PROCESSING_ERROR; no CONVERSION_FAILED code exists. *)
Lemma conversion_counterexample :
  fst (transcribe undecodable "/app/temp/a.mp3" None Sample.world0)
  = Raise (TranscriptionError "Failed to convert audio: Format not recognised."
             "AUDIO_PROCESSING_ERROR")
  /\ forall message,
       fst (transcribe undecodable "/app/temp/a.mp3" None Sample.world0)
       <> Raise (TranscriptionError message "CONVERSION_FAILED").
Proof.
  assert (Hrun : fst (transcribe undecodable "/app/temp/a.mp3" None Sample.world0)
                 = Raise (TranscriptionError
                            "Failed to convert audio: Format not recognised."
                            "AUDIO_PROCESSING_ERROR"))
    by (vm_compute; reflexivity).
  split; [exact Hrun|]. intros message H. rewrite Hrun in H. inversion H.
Qed.

(** The amended C4 on that upload. *)
Lemma conversion_fallback_witness :
  transcribe_frame undecodable "/app/temp/a.mp3" None ([], Sample.world0)
  = (Raise (TranscriptionError "Failed to convert audio: Format not recognised."
              "AUDIO_PROCESSING_ERROR"),
     ([], Sample.world0)).
Proof.
  destruct (conversion_fallback undecodable "/app/temp/a.mp3" None Sample.world0
              (LibraryError "Decoding failed. ffmpeg returned error code: 1")
              Sample.world0 eq_refl)
    as (_ & _ & Hboth).
  destruct (Hboth (LibraryError "Format not recognised.") Sample.world0 eq_refl)
    as (_ & Hrun).
  destruct (Hrun 30%Q eq_refl) as (Hout & _).
  - split; discriminate.
  - exact Hout.
Defined.

(** ** How failures are reported *)

(** [transcribe] raises nothing but a [TranscriptionError] with one of its
    four codes. *)
Lemma transcribe_raises (E : Env) audio_path language w e :
  fst (transcribe E audio_path language w) = Raise e ->
  exists message code,
    e = TranscriptionError message code /\ code ∈ pipeline_codes.
Proof.
  rewrite transcribe_run.
  pose proof (transcribe_guarded_run E audio_path language w) as Hrun.
  destruct (transcribe_guarded E audio_path language ([], w))
    as [outcome [temp_files w1]].
  simpl. intros ->. unfold pipeline_codes.
  inversion Hrun; subst; eexists _, _; (split; [reflexivity|]); set_solver.
Qed.

Lemma save_upload_run (E : Env) file name w :
  let ext := str_lower E (path_suffix E name) in
  let p := path_join E (temp_dir (settings E))
             (uuid4 E ++ (if String.eqb ext "" then ".wav" else ext)) in
  save_upload E file name w =
  match file with
  | inl detail =>
      (Raise (AudioProcessingError ("Failed to save upload: " ++ detail)), w)
  | inr content =>
      match open_write E (files w) p with
      | Written => (Ok p, set_files (insert p (Raw content)) w)
      | WriteFailed detail leftover =>
          (Raise (AudioProcessingError ("Failed to save upload: " ++ detail)),
           if leftover then set_files (insert p Truncated) w else w)
      end
  end.
Proof.
  intros ext p. unfold save_upload. fold ext. fold p.
  unfold try_except, bind, lib_read, lib_write, ret, raise.
  destruct file as [detail|content]; [reflexivity|].
  destruct (open_write E (files w) p) as [|detail [|]]; reflexivity.
Qed.

(** C8 (as amended).  An exception raised in the [try] block of [transcribe]
    that is neither a [TranscriptionError] nor an [AudioProcessingError] is
    reported by [transcribe] with code TRANSCRIPTION_FAILED and the message
    "Failed to transcribe audio: " followed by the exception's string; the
    endpoint passes that code and message on with status 500 and no separate
    details field.  The endpoint's INTERNAL_ERROR answer is never given for
    what the pipeline raises. *)
Theorem unexpected_exception_report (E : Env) (audio_path : string)
    (language : option string) (w : world) (e : exn)
    (s1 : list string * world) :
  transcribe_body E audio_path language ([], w) = (Raise e, s1) ->
  unexpected e ->
  let report := "Failed to transcribe audio: " ++ str e in
  fst (transcribe E audio_path language w)
  = Raise (TranscriptionError report "TRANSCRIPTION_FAILED")
  /\ (forall name file w0,
        save_upload E file name w0 = (Ok audio_path, w) ->
        fst (transcribe_upload E name file language w0)
        = Ok (HTTPError 500 "TRANSCRIPTION_FAILED" report None))
  /\ (forall name file w0 status code message details,
        fst (transcribe_upload E name file language w0)
        = Ok (HTTPError status code message details) ->
        code <> "INTERNAL_ERROR").
Proof.
  intros Hbody Hun report.
  assert (Hout : fst (transcribe E audio_path language w)
                 = Raise (TranscriptionError report "TRANSCRIPTION_FAILED")).
  { rewrite transcribe_run. unfold transcribe_guarded, try_except.
    rewrite Hbody. destruct s1 as [temp_files w1].
    destruct e; simpl in Hun; try contradiction; reflexivity. }
  split; [exact Hout|]. split.
  - intros name file w0 Hsave.
    unfold transcribe_upload, frame, try_finally, try_except.
    unfold bind at 1. unfold call at 1. simpl. rewrite Hsave.
    unfold bind at 1. unfold modify_local at 1. simpl.
    unfold bind at 1. unfold call at 1. simpl.
    destruct (transcribe E audio_path language w) as [o w2].
    simpl in Hout. subst o. simpl.
    unfold bind, get_local, call. simpl. rewrite cleanup_file_run. reflexivity.
  - intros name file w0 status code message details.
    unfold transcribe_upload, frame, try_finally, try_except.
    unfold bind at 1. unfold call at 1. simpl.
    pose proof (save_upload_run E file name w0) as Hsave. simpl in Hsave.
    destruct (save_upload E file name w0) as [[saved|es] wa].
    + unfold bind at 1. unfold modify_local at 1. simpl.
      unfold bind at 1. unfold call at 1. simpl.
      pose proof (transcribe_raises E saved language wa) as Hcodes.
      destruct (transcribe E saved language wa) as [[r|et] wb].
      * simpl. unfold bind, get_local, call. simpl.
        rewrite cleanup_file_run. simpl. discriminate.
      * destruct (Hcodes et eq_refl) as (m & c & -> & Hc). simpl.
        unfold bind, get_local, call. simpl. rewrite cleanup_file_run. simpl.
        intros Heq. inversion Heq; subst. unfold pipeline_codes in Hc.
        intros ->.
        repeat (apply elem_of_cons in Hc as [Hc|Hc]; [discriminate|]).
        apply elem_of_nil in Hc. exact Hc.
    + assert (Hes : exists m, es = AudioProcessingError m).
      { destruct file as [detail|content]; [inversion Hsave; eauto|].
        destruct (open_write E _ _); inversion Hsave; eauto. }
      destruct Hes as [m ->]. simpl. unfold bind, get_local. simpl.
      intros Heq. inversion Heq; subst. discriminate.
Qed.

(** C8 (as stated) fails: the recognizer's [RuntimeError], raised inside the
    pipeline, reaches the caller with code TRANSCRIPTION_FAILED and its own
    text in the message, not as INTERNAL_ERROR with a generic message. *)
Lemma unexpected_exception_counterexample :
  fst (transcribe unloaded "/app/temp/a.mp3" None Sample.world0)
  = Raise (TranscriptionError "Failed to transcribe audio: Model not loaded"
             "TRANSCRIPTION_FAILED")
  /\ fst (transcribe_audio unloaded talk None {| files := ∅; asr_log := [] |})
     = Ok (HTTPError 500 "TRANSCRIPTION_FAILED"
             "Failed to transcribe audio: Model not loaded" None)
  /\ forall status message details,
       fst (transcribe_audio unloaded talk None {| files := ∅; asr_log := [] |})
       <> Ok (HTTPError status "INTERNAL_ERROR" message details).
Proof.
  assert (Hanswer : fst (transcribe_audio unloaded talk None
                           {| files := ∅; asr_log := [] |})
                    = Ok (HTTPError 500 "TRANSCRIPTION_FAILED"
                            "Failed to transcribe audio: Model not loaded" None))
    by (vm_compute; reflexivity).
  split; [vm_compute; reflexivity|]. split; [exact Hanswer|].
  intros status message details H. rewrite Hanswer in H. inversion H.
Qed.

(** The amended C8 on that service. *)
Lemma unexpected_exception_report_witness :
  fst (transcribe unloaded "/app/temp/a.mp3" None Sample.world0)
  = Raise (TranscriptionError "Failed to transcribe audio: Model not loaded"
             "TRANSCRIPTION_FAILED").
Proof.
  apply (unexpected_exception_report unloaded "/app/temp/a.mp3" None
           Sample.world0 (RuntimeError "Model not loaded")
           (["/app/temp/a.converted.wav"],
            {| files := <["/app/temp/a.converted.wav" := Wav 16000 wave3]>
                          (files Sample.world0);
               asr_log := ["/app/temp/a.converted.wav"] |})).
  - vm_compute. reflexivity.
  - exact I.
Defined.

(** ** Chunk arithmetic *)

(** [np.ceil(total / cs)] as an integer quotient. *)
Lemma num_chunks_div (total cs : Z) :
  0 < cs -> num_chunks total cs = - ((- total) `div` cs).
Proof.
  intros Hcs. destruct cs as [|p|p]; try lia.
  unfold num_chunks, Qceiling, Qfloor, Qdiv, Qmult, Qinv, Qopp. simpl.
  rewrite Z.mul_1_r. reflexivity.
Qed.

(** It is the least [n] with [total <= n * cs]. *)
Lemma num_chunks_bounds (total cs : Z) :
  0 < cs ->
  (num_chunks total cs - 1) * cs < total <= num_chunks total cs * cs.
Proof.
  intros Hcs. rewrite num_chunks_div by exact Hcs.
  pose proof (Z.div_mod (- total) cs) as Hdm.
  pose proof (Z.mod_pos_bound (- total) cs Hcs) as Hmod.
  nia.
Qed.

Lemma num_chunks_unique (total cs n : Z) :
  0 < cs -> (n - 1) * cs < total <= n * cs -> num_chunks total cs = n.
Proof.
  intros Hcs Hn. pose proof (num_chunks_bounds total cs Hcs) as Hb. nia.
Qed.

Lemma slice_inner {A} (y : list A) (a b : Z) :
  0 <= a <= b -> b <= Z.of_nat (length y) ->
  slice y a b = take (Z.to_nat (b - a)) (drop (Z.to_nat a) y).
Proof.
  intros Hab Hb. unfold slice, clamp_index.
  destruct (a <? 0) eqn:Ha; [apply Z.ltb_lt in Ha; lia|].
  destruct (b <? 0) eqn:Hb0; [apply Z.ltb_lt in Hb0; lia|].
  rewrite !Z.min_l by lia. reflexivity.
Qed.

(** The first [k] chunks, put end to end, are the first samples of [y]. *)
Lemma chunks_concat (y : list sample) (cs : Z) (k : nat) :
  0 < cs ->
  let total := Z.of_nat (length y) in
  concat (map (fun i => slice y (chunk_start cs i) (chunk_stop cs total i))
            (seq 0 k))
  = take (Z.to_nat (Z.min (Z.of_nat k * cs) total)) y.
Proof.
  intros Hcs total. induction k as [|k IH].
  - simpl. rewrite Z.min_l by lia. reflexivity.
  - rewrite seq_S, map_app, concat_app, IH. simpl. rewrite app_nil_r.
    unfold chunk_start, chunk_stop.
    assert (Hk : 0 <= Z.of_nat k * cs) by nia.
    destruct (Z_lt_le_dec (Z.of_nat k * cs) total) as [Hlt|Hge].
    + rewrite slice_inner by (unfold total in *; lia).
      rewrite (Z.min_l (Z.of_nat k * cs)) by lia.
      rewrite take_take_drop. f_equal. lia.
    + assert (Hnow : Z.min (Z.of_nat k * cs) total = total) by lia.
      assert (Hnext : Z.min ((Z.of_nat k + 1) * cs) total = total) by lia.
      assert (Hsucc : Z.min (Z.of_nat (S k) * cs) total = total) by lia.
      rewrite Hnow, Hnext, Hsucc.
      unfold slice, clamp_index. fold total.
      destruct (Z.of_nat k * cs <? 0) eqn:Hneg; [apply Z.ltb_lt in Hneg; lia|].
      destruct (total <? 0) eqn:Ht; [apply Z.ltb_lt in Ht; lia|].
      rewrite Hnow, Z.min_id, Z.sub_diag. simpl. apply app_nil_r.
Qed.

(** When every chunk write returns, the loop returns. *)
Lemma split_loop_total (E : Env) p y sr total cs idx acc w :
  (forall fs q, sf_write E fs q = Written) ->
  split_loop E p y sr total cs idx (acc, w)
  = (Ok tt, ((acc ++ map (chunk_path E p) idx)%list,
             set_files (store_chunks E p y sr total cs idx) w)).
Proof.
  intros Hw. revert acc w. induction idx as [|i idx IH]; intros acc w.
  - simpl. rewrite app_nil_r. destruct w; reflexivity.
  - simpl. unfold bind at 1. unfold call at 1. simpl.
    unfold lib_write at 1. rewrite Hw.
    unfold bind at 1. unfold modify_local at 1. simpl.
    rewrite IH, <- app_assoc. reflexivity.
Qed.

(** C2.  For a canonical audio [y] of [total] samples at a positive sample
    rate [sr] and a positive chunk duration [C], the chunker, when its writes
    succeed, returns exactly [n = ceil(total / (C * sr))] chunk paths in index
    order, chunk [i] holding the samples [i*C*sr, min((i+1)*C*sr, total))
    (read back from its file when the chunk paths are pairwise distinct).
    The ranges are non-empty, start at 0, each ends where the next starts,
    the last ends at [total], every chunk but the last has [C*sr] samples and
    the last has at most that many: put end to end the chunks are [y].  With
    125 seconds of audio and 60-second chunks there are 3 chunks of 60, 60 and
    5 seconds. *)
Theorem chunk_partition (E : Env) (audio_path : string) (C : Z) (w : world)
    (y : list sample) :
  let sr := sample_rate (settings E) in
  let cs := C * sr in
  let total := Z.of_nat (length y) in
  let n := num_chunks total cs in
  0 < C -> 0 < sr ->
  librosa_load E (files w) audio_path sr = inr y ->
  (forall fs q, sf_write E fs q = Written) ->
  split_audio E audio_path C w
  = (Ok (map (chunk_path E audio_path) (range n)),
     set_files (store_chunks E audio_path y sr total cs (range n)) w)
  /\ Z.of_nat (length (map (chunk_path E audio_path) (range n))) = n
  /\ (n - 1) * cs < total <= n * cs
  /\ chunk_start cs 0 = 0
  /\ (forall i : nat, Z.of_nat i < n ->
        chunk_start cs i < chunk_stop cs total i
        /\ (Z.of_nat i + 1 < n ->
            chunk_stop cs total i = chunk_start cs (S i)
            /\ chunk_stop cs total i - chunk_start cs i = cs)
        /\ (Z.of_nat i + 1 = n ->
            chunk_stop cs total i = total
            /\ chunk_stop cs total i - chunk_start cs i <= cs))
  /\ concat (map (fun i => slice y (chunk_start cs i) (chunk_stop cs total i))
               (range n)) = y
  /\ (NoDup (map (chunk_path E audio_path) (range n)) ->
      forall i : nat, Z.of_nat i < n ->
        store_chunks E audio_path y sr total cs (range n) (files w)
          !! chunk_path E audio_path i
        = Some (Wav sr (slice y (chunk_start cs i) (chunk_stop cs total i))))
  /\ (C = 60 -> total = 125 * sr ->
      n = 3 /\ chunk_lengths total cs = [60 * sr; 60 * sr; 5 * sr]).
Proof.
  intros sr cs total n HC Hsr Hy Hw.
  assert (Hcs : 0 < cs) by (unfold cs; nia).
  pose proof (num_chunks_bounds total cs Hcs) as Hb. fold n in Hb.
  assert (Hn : 0 <= n) by (unfold total in *; nia).
  split; [|split; [|split; [exact Hb|split; [reflexivity|split; [|split; [|split]]]]]].
  - unfold split_audio, frame, try_except, split_try. fold sr.
    unfold bind at 1. unfold call at 1. unfold lib_read at 1. simpl.
    rewrite Hy. unfold bind at 1. unfold true_div at 1. fold cs.
    destruct (cs =? 0) eqn:Hz; [apply Z.eqb_eq in Hz; lia|].
    unfold ret at 1. unfold bind at 1. fold total. fold n.
    rewrite split_loop_total by exact Hw. reflexivity.
  - rewrite length_map. unfold range. rewrite length_seq. lia.
  - intros i Hi. unfold chunk_start, chunk_stop.
    assert (Hi0 : 0 <= Z.of_nat i * cs) by nia.
    split; [|split].
    + apply Z.min_glb_lt; nia.
    + intros Hnext. rewrite Z.min_l by nia. split; lia.
    + intros Hend. rewrite Z.min_r by nia. split; nia.
  - unfold range. rewrite chunks_concat by exact Hcs. fold total.
    rewrite Z2Nat.id by exact Hn. rewrite Z.min_r by lia.
    unfold total. rewrite Nat2Z.id. apply firstn_all.
  - intros Hnd i Hi.
    apply (store_chunks_lookup E audio_path y sr total cs (range n) (files w) i Hnd).
    unfold range. apply elem_of_seq. lia.
  - intros HC60 Htotal.
    assert (Hn3 : n = 3).
    { apply num_chunks_unique; [exact Hcs|]. unfold cs. rewrite HC60, Htotal. lia. }
    split; [exact Hn3|].
    unfold chunk_lengths. fold n. rewrite Hn3. simpl.
    unfold chunk_stop, chunk_start, cs. rewrite HC60, Htotal.
    repeat (f_equal; try lia).
Qed.

(** C2 at one sample per second: three chunks, in order. *)
Lemma chunk_partition_witness :
  fst (split_audio long_upload "/app/temp/a.converted.wav" 60 world_converted)
  = Ok ["/app/temp/a.converted_chunk_0000.wav";
        "/app/temp/a.converted_chunk_0001.wav";
        "/app/temp/a.converted_chunk_0002.wav"]
  /\ chunk_lengths 125 60 = [60; 60; 5].
Proof.
  destruct (chunk_partition long_upload "/app/temp/a.converted.wav" 60
              world_converted (replicate 125 0.5%Q))
    as (Hrun & _ & _ & _ & _ & _ & _ & Hexample).
  - lia.
  - simpl. lia.
  - reflexivity.
  - intros fs q. reflexivity.
  - split.
    + rewrite Hrun. vm_compute. reflexivity.
    + destruct Hexample as [_ Hlengths]; [reflexivity | reflexivity |].
      exact Hlengths.
Defined.

(** ** A chunking call that fails *)

(** C7 (as amended).  When the [try] block of the chunker raises with the
    local [chunks] holding [created], these are the chunk files written
    earlier in the call, all on disk at that moment.  The chunker then applies
    one guarded deletion to each of them and raises "Failed to split audio":
    a created chunk whose deletion does not raise is gone before the error
    propagates, one whose deletion raises stays.  When moreover no write
    fails leaving a file, no deletion raises and the chunk paths were free
    before the call, the files after the call are the files before it. *)
Theorem split_failure_cleanup (E : Env) (audio_path : string) (C : Z)
    (w : world) (e : exn) (created : list string) (w1 : world) :
  split_try E audio_path C ([], w) = (Raise e, (created, w1)) ->
  (exists k, created = map (chunk_path E audio_path) (seq 0 k))
  /\ (forall c, c ∈ created -> is_Some (files w1 !! c))
  /\ split_audio E audio_path C w
     = (Raise (AudioProcessingError ("Failed to split audio: " ++ str e)),
        set_files (sweep E created) w1)
  /\ (forall c, c ∈ created -> (forall fs, os_unlink E fs c = None) ->
                sweep E created (files w1) !! c = None)
  /\ (clean_failures E -> deletions_succeed E ->
      (forall i, files w !! chunk_path E audio_path i = None) ->
      sweep E created (files w1) = files w).
Proof.
  intros Htry.
  pose proof (split_try_spec E audio_path C w) as Hspec. simpl in Hspec.
  rewrite Htry in Hspec.
  destruct Hspec as (_ & Hk & Hin & _ & Hclean & _).
  assert (Hrun : split_audio E audio_path C w
                 = (Raise (AudioProcessingError ("Failed to split audio: " ++ str e)),
                    set_files (sweep E created) w1)).
  { unfold split_audio, frame, try_except. rewrite Htry.
    unfold split_handler, bind, get_local, call, raise. simpl.
    rewrite unlink_each_run. reflexivity. }
  split; [exact Hk|]. split; [exact Hin|]. split; [exact Hrun|]. split.
  - intros c Hc Hdel. apply sweep_gone; assumption.
  - intros Hcl Hdel Hfree. apply map_eq. intros q.
    rewrite (sweep_all E _ _ _ Hdel). case_decide as Hq.
    + destruct Hk as [k ->].
      apply list_elem_of_fmap in Hq as (i & -> & _). symmetry. apply Hfree.
    + apply Hclean; assumption.
Qed.

(** C7 (as stated) fails: the second chunk cannot be written, the deletion
    of the first raises and is passed over, and the first chunk file is left
    behind when the chunking error propagates. *)
Lemma split_failure_counterexample :
  fst (split_audio full_undeletable "/app/temp/a.converted.wav" 60 world_converted)
  = Raise (AudioProcessingError
             "Failed to split audio: [Errno 28] No space left on device")
  /\ files world_converted !! "/app/temp/a.converted_chunk_0000.wav" = None
  /\ files (snd (split_audio full_undeletable "/app/temp/a.converted.wav" 60
                   world_converted))
       !! "/app/temp/a.converted_chunk_0000.wav"
     = Some (Wav 1 (replicate 60 0.5%Q)).
Proof. repeat split; vm_compute; reflexivity. Qed.

(** The amended C7 on the full disk with working deletion: the first chunk
    is removed and the files are as before the call. *)
Lemma split_failure_cleanup_witness :
  files (snd (split_audio full_disk "/app/temp/a.converted.wav" 60 world_converted))
  = files world_converted.
Proof.
  edestruct (split_failure_cleanup full_disk "/app/temp/a.converted.wav" 60
               world_converted) as (_ & _ & Hrun & _ & Hnet).
  - vm_compute. reflexivity.
  - rewrite Hrun. simpl. apply Hnet.
    + intros fs p d. split; [discriminate|].
      simpl. unfold full_after_one. destruct (String.eqb p _); discriminate.
    + intros fs p. reflexivity.
    + intros i. unfold chunk_path. simpl.
      rewrite lookup_insert_ne by discriminate.
      apply lookup_singleton_ne. discriminate.
Defined.

(** ** Assembling the transcript *)

Lemma asr_transcribe_heard (E : Env) p w t w' :
  asr_transcribe E p w = (Ok t, w') -> heard E (files w) p = Some t.
Proof.
  rewrite asr_transcribe_run. unfold heard.
  destruct (recognizer E) as [decode|]; [|discriminate].
  destruct (decode (files w) p); intros H; inversion H; reflexivity.
Qed.

(** When the recognizer returns for every chunk, the loop returns the
    non-empty texts in order: an empty text is skipped, not an error. *)
Lemma transcribe_chunks_total (E : Env) chunks texts acc w :
  Forall2 (fun p t => heard E (files w) p = Some t) chunks texts ->
  fst (transcribe_chunks E chunks acc w)
  = Ok (acc ++ List.filter nonempty texts)%list.
Proof.
  revert texts acc w.
  induction chunks as [|c chunks IH]; intros texts acc w H; inversion H; subst.
  - simpl. rewrite app_nil_r. reflexivity.
  - simpl. unfold bind at 1. rewrite asr_transcribe_run.
    match goal with Hc : heard _ _ _ = Some _ |- _ => unfold heard in Hc end.
    destruct (recognizer E) as [decode|]; [|discriminate].
    destruct (decode (files w) c) as [detail|t] eqn:Hd; [discriminate|].
    match goal with Hc : Some _ = Some _ |- _ => inversion Hc; subst end.
    erewrite IH by (simpl; eassumption).
    simpl. destruct (nonempty (strip t)); [rewrite <- app_assoc|]; reflexivity.
Qed.

(** C6.  In a chunked run, whatever texts the recognizer returns for the
    chunks: when it returns a text for every chunk [split_audio] produced,
    the run returns, and its text is assembled from these per-chunk texts,
    the non-empty ones, in index order, joined by a single space, the whole
    trimmed.  An empty chunk text is skipped and is not an error; every
    chunk is counted and handed to the recognizer once, in index order. *)
Theorem assembled_text (E : Env) (audio_path : string)
    (language : option string) (w wa wb : world) (d : Q)
    (chunks : list string) (texts : list text) :
  librosa_get_duration E (files w) audio_path = inr d ->
  in_range E d ->
  (inject_Z (chunk_size_seconds (settings E)) < d)%Q ->
  convert_to_wav E audio_path w = (Ok (converted_path E audio_path), wa) ->
  split_audio E (converted_path E audio_path) (chunk_size_seconds (settings E)) wa
  = (Ok chunks, wb) ->
  Forall2 (fun p t => heard E (files wb) p = Some t) chunks texts ->
  exists r w',
    transcribe E audio_path language w = (Ok r, w')
    /\ text_of r = assemble texts
    /\ text_of r = strip (join space (List.filter nonempty texts))
    /\ chunks_processed r = Z.of_nat (length chunks)
    /\ asr_log w' = (asr_log w ++ chunks)%list.
Proof.
  intros Hd Hrange Hlt Hc Hs Hheard.
  pose proof (transcribe_chunks_total E chunks texts [] wb Hheard) as Hfst.
  pose proof (transcribe_chunks_spec E chunks [] wb) as Hspec.
  destruct (transcribe_chunks E chunks [] wb) as [[ts|e] wc] eqn:Ht;
    [|discriminate Hfst].
  simpl in Hfst. injection Hfst as ->.
  destruct Hspec as (_ & Hlog3 & _).
  pose proof (run_chunked E audio_path language w d wa chunks wb _ wc
                Hd Hrange Hc Hlt Hs Ht) as Hrun.
  apply guarded_run_sound in Hrun.
  eexists _, _. rewrite transcribe_run, Hrun.
  split; [reflexivity|]. split; [reflexivity|]. split; [reflexivity|].
  split; [reflexivity|]. simpl. rewrite Hlog3.
  destruct (split_audio_chunks E _ _ _ _ _ Hs) as (_ & _ & Hlog2 & _).
  pose proof (convert_to_wav_spec E audio_path w) as Hconv. simpl in Hconv.
  rewrite Hc in Hconv. destruct Hconv as (_ & Hlog1 & _).
  rewrite Hlog2, Hlog1. reflexivity.
Qed.

(** C6 on a 125-second upload whose second minute is silent: three chunks,
    the text of the second one empty. *)
Lemma assembled_text_witness :
  exists r w',
    transcribe
      (Sample.sunny Sample.settings_1hz 125 (replicate 125 0.5%Q) silent_middle)
      "/app/temp/a.mp3" None Sample.world0 = (Ok r, w')
    /\ text_of r = Sample.codepoints "good morning everyone".
Proof.
  destruct (assembled_text
              (Sample.sunny Sample.settings_1hz 125 (replicate 125 0.5%Q)
                 silent_middle)
              "/app/temp/a.mp3" None Sample.world0 world_converted
              (snd (split_audio
                      (Sample.sunny Sample.settings_1hz 125
                         (replicate 125 0.5%Q) silent_middle)
                      "/app/temp/a.converted.wav" 60 world_converted))
              125
              ["/app/temp/a.converted_chunk_0000.wav";
               "/app/temp/a.converted_chunk_0001.wav";
               "/app/temp/a.converted_chunk_0002.wav"]
              [Sample.codepoints "good morning"; [];
               Sample.codepoints "everyone"])
    as (r & w' & Hrun & Htext & _).
  - reflexivity.
  - split; discriminate.
  - reflexivity.
  - vm_compute. reflexivity.
  - vm_compute. reflexivity.
  - repeat constructor.
  - exists r, w'. split; [exact Hrun|]. rewrite Htext. vm_compute. reflexivity.
Defined.

Example silent_chunk_skipped :
  fst (transcribe
         (Sample.sunny Sample.settings_1hz 125 (replicate 125 0.5%Q) silent_middle)
         "/app/temp/a.mp3" None Sample.world0)
  = Ok {| text_of := Sample.codepoints "good morning everyone";
          language_of := "en";
          duration_of := 125;
          chunks_processed := 3;
          processing_time_ms := 1500 |}.
Proof. vm_compute. reflexivity. Qed.

(** ** When chunking happens *)

(** C9.  In every successful run the result carries the measured duration
    and chunking is decided by comparing it with the configured chunk size.
    When the duration does not exceed it, the converted file is registered
    alone, handed to the recognizer in one call, no other path is changed,
    and [chunks_processed] is 1.  When the duration exceeds it, the chunker
    returned chunk paths numbered from 0, [chunks_processed] is their number,
    and the recognizer was called on exactly these chunks, one call each, in
    index order. *)
Theorem chunking_threshold (E : Env) (audio_path : string)
    (language : option string) (w : world) (r : TranscriptionResult)
    (temp_files : list string) (w' : world) :
  transcribe_frame E audio_path language ([], w) = (Ok r, (temp_files, w')) ->
  let threshold := inject_Z (chunk_size_seconds (settings E)) in
  let converted := converted_path E audio_path in
  librosa_get_duration E (files w) audio_path = inr (duration_of r)
  /\ ((duration_of r <= threshold)%Q ->
      chunks_processed r = 1
      /\ temp_files = [converted]
      /\ asr_log w' = (asr_log w ++ [converted])%list
      /\ forall q, q <> converted -> files w' !! q = files w !! q)
  /\ ((threshold < duration_of r)%Q ->
      exists w1 w2 chunks,
        convert_to_wav E audio_path w = (Ok converted, w1)
        /\ split_audio E converted (chunk_size_seconds (settings E)) w1
           = (Ok chunks, w2)
        /\ (exists n, chunks = map (chunk_path E converted) (seq 0 n))
        /\ chunks_processed r = Z.of_nat (length chunks)
        /\ temp_files = converted :: chunks
        /\ asr_log w' = (asr_log w ++ chunks)%list).
Proof.
  intros Hrun threshold converted.
  rewrite transcribe_frame_run in Hrun.
  pose proof (transcribe_guarded_run E audio_path language w) as Hg.
  destruct (transcribe_guarded E audio_path language ([], w))
    as [outcome [tf w1]].
  inversion Hrun; subst; clear Hrun.
  assert (Hconv : forall wa,
            convert_to_wav E audio_path w = (Ok converted, wa) ->
            asr_log wa = asr_log w
            /\ forall q, q <> converted -> files wa !! q = files w !! q).
  { intros wa Hc.
    pose proof (convert_to_wav_spec E audio_path w) as Hspec. simpl in Hspec.
    rewrite Hc in Hspec. destruct Hspec as (_ & Hlog & b & ->).
    split; [exact Hlog|]. intros q Hq. apply lookup_insert_ne.
    unfold converted, converted_path in Hq. congruence. }
  inversion Hg; subst; simpl.
  - (* chunked *)
    split; [assumption|]. split; [intros Hle; absurd_order|]. intros _.
    match goal with
    | Hs : split_audio _ _ _ ?wa = (Ok ?cs, ?wb),
      Ht : transcribe_chunks _ _ _ _ = _ |- _ =>
        exists wa, wb, cs;
        pose proof (split_audio_spec E converted
                      (chunk_size_seconds (settings E)) wa) as Hspec;
        fold converted in Hs; rewrite Hs in Hspec;
        destruct Hspec as (Hlog2 & _ & y & _ & _ & Hnames & _);
        pose proof (transcribe_chunks_spec E cs [] wb) as Hloop;
        rewrite Ht in Hloop; destruct Hloop as (_ & Hlog3 & _)
    end.
    split; [assumption|]. split; [assumption|].
    split; [eexists; exact Hnames|]. split; [reflexivity|].
    split; [reflexivity|].
    rewrite Hlog3, Hlog2. f_equal. apply Hconv. assumption.
  - (* direct *)
    split; [assumption|]. split; [|intros Hlt; absurd_order]. intros _.
    match goal with
    | Ha : asr_transcribe _ _ ?wa = (_, ?wb),
      Hc : convert_to_wav _ _ _ = _ |- _ =>
        pose proof (asr_transcribe_files E (converted_path E audio_path) wa)
          as [Hfs Hlog];
        rewrite Ha in Hfs, Hlog; simpl in Hfs, Hlog;
        destruct (Hconv wa Hc) as [Hlog1 Hoff];
        split; [reflexivity|]; split; [reflexivity|];
        split; [rewrite Hlog, Hlog1; reflexivity|];
        intros q Hq;
        destruct (sweep_step_lookup E (files wb) (converted_path E audio_path) q)
          as [Hsame|[Heq _]]; [|contradiction];
        rewrite Hsame, Hfs; apply Hoff; exact Hq
    end.
Qed.

(** C9 on the 125-second upload with 60-second chunks: three chunks. *)
Lemma chunking_threshold_witness :
  exists r temp_files w',
    transcribe_frame long_upload "/app/temp/a.mp3" None ([], Sample.world0)
    = (Ok r, (temp_files, w'))
    /\ librosa_get_duration long_upload (files Sample.world0) "/app/temp/a.mp3"
       = inr (duration_of r).
Proof.
  destruct (transcribe_frame long_upload "/app/temp/a.mp3" None
              ([], Sample.world0)) as [[r|e] [temp_files w']] eqn:Hrun.
  - exists r, temp_files, w'. split; [reflexivity|].
    apply (chunking_threshold _ _ _ _ _ _ _ Hrun).
  - exfalso. vm_compute in Hrun. discriminate.
Defined.

(** ** The language of the result *)

Lemma count_if_nonneg p t : 0 <= count_if p t.
Proof. unfold count_if. lia. Qed.

Lemma count_if_app p t1 t2 :
  count_if p (t1 ++ t2)%list = count_if p t1 + count_if p t2.
Proof. unfold count_if. rewrite List.filter_app, length_app. lia. Qed.

Lemma count_if_rev p t : count_if p (rev t) = count_if p t.
Proof. unfold count_if. rewrite filter_rev, length_rev. reflexivity. Qed.

Lemma count_if_lstrip p t :
  (forall c, isspace c = true -> p c = false) ->
  count_if p (lstrip t) = count_if p t.
Proof.
  intros Hp. induction t as [|c t IH]; [reflexivity|].
  simpl. destruct (isspace c) eqn:Hc; [|reflexivity].
  rewrite IH. unfold count_if. simpl. rewrite (Hp c Hc). reflexivity.
Qed.

(** Trimming removes no code point that [p] counts, when [p] counts no
    white space. *)
Lemma count_if_strip p t :
  (forall c, isspace c = true -> p c = false) ->
  count_if p (strip t) = count_if p t.
Proof.
  intros Hp. unfold strip, rstrip.
  rewrite count_if_rev, count_if_lstrip, count_if_rev, count_if_lstrip by exact Hp.
  reflexivity.
Qed.

Lemma isspace_not_cyrillic c : isspace c = true -> is_cyrillic c = false.
Proof.
  unfold isspace, is_cyrillic. intros H.
  apply andb_false_iff.
  destruct (Z.leb_spec 1024 c); [|left; reflexivity].
  destruct (Z.leb_spec c 1279); [|right; reflexivity].
  exfalso.
  repeat match type of H with
         | (_ || _) = true => apply orb_true_iff in H as [H|H]
         end;
    repeat match type of H with
           | (_ && _) = true => apply andb_true_iff in H as [H ?]
           end;
    repeat match goal with
           | H' : (_ <=? _) = true |- _ => apply Z.leb_le in H'
           | H' : (_ =? _) = true |- _ => apply Z.eqb_eq in H'
           end;
    lia.
Qed.

(** The heuristic of the code is the rule on the two counts. *)
Lemma detect_language_classify (E : Env) t :
  detect_language E t = classify (count_if (isalpha E) t) (count_if is_cyrillic t).
Proof.
  unfold detect_language, classify. destruct t; reflexivity.
Qed.

(** C5.  In every successful run: a supplied non-empty language override is
    the result's language, whatever the text; without one (no override, or an
    empty one) the language follows from the result text: "en" when it has
    no alphabetic code point, "ru" when the ratio of its code points in
    U+0400..U+04FF to its alphabetic code points exceeds 0.3, "en" otherwise.
    So "привет как дела" is classified "ru" and "hello world" is "en". *)
Theorem language_rule (E : Env) (audio_path : string)
    (language : option string) (w : world) (r : TranscriptionResult)
    (w' : world) :
  (forall c, isspace c = true -> isalpha E c = false) ->
  transcribe E audio_path language w = (Ok r, w') ->
  let alpha := count_if (isalpha E) (text_of r) in
  let cyrillic := count_if is_cyrillic (text_of r) in
  (forall l, language = Some l -> l <> "" -> language_of r = l)
  /\ (language = None \/ language = Some "" ->
      language_of r = classify alpha cyrillic
      /\ (alpha = 0 -> language_of r = "en")
      /\ (alpha <> 0 -> (0.3 < inject_Z cyrillic / inject_Z alpha)%Q ->
          language_of r = "ru")
      /\ (alpha <> 0 -> ~ (0.3 < inject_Z cyrillic / inject_Z alpha)%Q ->
          language_of r = "en"))
  /\ ((forall c, 1072 <= c <= 1103 -> isalpha E c = true) ->
      detect_language E privet_kak_dela = "ru")
  /\ detect_language E hello_world = "en".
Proof.
  intros Hspace Hrun alpha cyrillic.
  assert (Hres : exists d full_text n,
            r = make_result E language d full_text n).
  { rewrite transcribe_run in Hrun.
    pose proof (transcribe_guarded_run E audio_path language w) as Hg.
    destruct (transcribe_guarded E audio_path language ([], w))
      as [outcome [tf w1]].
    inversion Hrun; subst. inversion Hg; subst; eauto. }
  destruct Hres as (d & full_text & n & ->).
  split; [|split; [|split]].
  - intros l -> Hl. simpl.
    destruct (String.eqb l "") eqn:Heq; [|reflexivity].
    apply String.eqb_eq in Heq. contradiction.
  - intros Hnone.
    assert (Hng : not_given language = true)
      by (destruct Hnone as [->| ->]; reflexivity).
    assert (Hlang : language_of (make_result E language d full_text n)
                    = classify alpha cyrillic).
    { simpl. rewrite Hng, detect_language_classify.
      unfold alpha, cyrillic. simpl.
      rewrite !count_if_strip; auto using isspace_not_cyrillic. }
    split; [exact Hlang|]. rewrite Hlang. unfold classify.
    split; [|split].
    + intros ->. reflexivity.
    + intros Ha Hlt. apply Z.eqb_neq in Ha. rewrite Ha.
      apply Qlt_bool_true in Hlt. rewrite Hlt. reflexivity.
    + intros Ha Hnlt. apply Z.eqb_neq in Ha. rewrite Ha.
      apply Qnot_lt_le, Qlt_bool_false in Hnlt. rewrite Hnlt. reflexivity.
  - intros Hletters. unfold detect_language, privet_kak_dela, count_if. simpl.
    destruct (isalpha E 32);
      repeat match goal with
             | |- context [isalpha E ?c] => rewrite (Hletters c) by lia
             end;
      reflexivity.
  - rewrite detect_language_classify. unfold classify.
    destruct (count_if (isalpha E) hello_world =? 0); [reflexivity|].
    replace (count_if is_cyrillic hello_world) with 0 by reflexivity.
    assert (Hzero : Qlt_bool 0.3 (inject_Z 0 / inject_Z (count_if (isalpha E) hello_world)) = false).
    { apply Qlt_bool_false. unfold Qdiv, Qmult, Qle. simpl. lia. }
    rewrite Hzero. reflexivity.
Qed.

(** The letters of the sample environment are not white space. *)
Lemma letter_not_space c : isspace c = true -> Sample.letter c = false.
Proof.
  intros Hc. unfold Sample.letter. unfold isspace in Hc.
  destruct (Z.leb_spec 65 c), (Z.leb_spec c 90), (Z.leb_spec 97 c),
    (Z.leb_spec c 122), (Z.leb_spec 1024 c), (Z.leb_spec c 1153),
    (Z.leb_spec 1162 c), (Z.leb_spec c 1327); simpl; try reflexivity;
    exfalso;
    repeat match type of Hc with
           | (_ || _) = true => apply orb_true_iff in Hc as [Hc|Hc]
           end;
    repeat match type of Hc with
           | (_ && _) = true => apply andb_true_iff in Hc as [Hc ?]
           end;
    repeat match goal with
           | H' : (_ <=? _) = true |- _ => apply Z.leb_le in H'
           | H' : (_ =? _) = true |- _ => apply Z.eqb_eq in H'
           end;
    lia.
Qed.

(** C5 on a short Russian upload with the override "fr". *)
Lemma language_rule_witness :
  exists r w',
    transcribe
      (Sample.sunny default_settings 30 wave3 (fun _ => privet_kak_dela))
      "/app/temp/a.mp3" (Some "fr") Sample.world0 = (Ok r, w')
    /\ language_of r = "fr".
Proof.
  destruct (transcribe
              (Sample.sunny default_settings 30 wave3 (fun _ => privet_kak_dela))
              "/app/temp/a.mp3" (Some "fr") Sample.world0)
    as [[r|e] w'] eqn:Hrun.
  - exists r, w'. split; [reflexivity|].
    refine (proj1 (language_rule
                     (Sample.sunny default_settings 30 wave3
                        (fun _ => privet_kak_dela))
                     _ _ _ _ _ letter_not_space Hrun)
              "fr" eq_refl _).
    discriminate.
  - exfalso. vm_compute in Hrun. discriminate.
Defined.

Example russian_detected :
  fst (transcribe
         (Sample.sunny default_settings 30 wave3 (fun _ => privet_kak_dela))
         "/app/temp/a.mp3" None Sample.world0)
  = Ok {| text_of := privet_kak_dela;
          language_of := "ru";
          duration_of := 30;
          chunks_processed := 1;
          processing_time_ms := 1500 |}.
Proof. vm_compute. reflexivity. Qed.

(** ** Saving an upload *)

(** C10.  [save_upload], when the file object yields its bytes and the write
    succeeds, writes exactly these bytes at the path it returns, which lies
    in the temp directory and is named by a fresh UUID followed by an
    extension: the lower-cased extension of the original filename, or ".wav"
    when that is empty (as it is when the filename has no extension).  No
    other file changes. *)
Theorem save_upload_stores (E : Env) (content : list Byte.byte)
    (name : string) (w : world) :
  let ext := str_lower E (path_suffix E name) in
  let saved_ext := if String.eqb ext "" then ".wav" else ext in
  let p := path_join E (temp_dir (settings E)) (uuid4 E ++ saved_ext) in
  open_write E (files w) p = Written ->
  save_upload E (inr content) name w
  = (Ok p, set_files (insert p (Raw content)) w)
  /\ files (snd (save_upload E (inr content) name w)) !! p = Some (Raw content)
  /\ (forall q, q <> p ->
        files (snd (save_upload E (inr content) name w)) !! q = files w !! q)
  /\ (ext <> "" -> saved_ext = ext)
  /\ (ext = "" -> saved_ext = ".wav")
  /\ (path_suffix E name = "" -> str_lower E "" = "" -> saved_ext = ".wav").
Proof.
  intros ext saved_ext p Hw.
  assert (Hrun : save_upload E (inr content) name w
                 = (Ok p, set_files (insert p (Raw content)) w)).
  { rewrite save_upload_run. fold ext. fold saved_ext. fold p.
    rewrite Hw. reflexivity. }
  assert (Hempty : ext = "" -> saved_ext = ".wav").
  { intros Hext. unfold saved_ext. rewrite Hext. reflexivity. }
  split; [exact Hrun|]. rewrite Hrun. simpl.
  split; [apply lookup_insert_eq|].
  split; [intros q Hq; apply lookup_insert_ne; congruence|].
  split; [|split; [exact Hempty|]].
  - intros Hext. unfold saved_ext.
    destruct (String.eqb ext "") eqn:Heq; [|reflexivity].
    apply String.eqb_eq in Heq. contradiction.
  - intros Hsuffix Hlower. apply Hempty. unfold ext.
    rewrite Hsuffix. exact Hlower.
Qed.

(** C10 on an upload named [Talk.MP3]: the saved file is
    [<uuid>.mp3] in the temp directory and holds the uploaded bytes. *)
Lemma save_upload_stores_witness :
  save_upload service (inr [Byte.x49; Byte.x44; Byte.x33]) "Talk.MP3"
    {| files := ∅; asr_log := [] |}
  = (Ok "/app/temp/3f2b8c1e-7d4a-4e19-9b06-5a1c2d3e4f50.mp3",
     {| files := {[ "/app/temp/3f2b8c1e-7d4a-4e19-9b06-5a1c2d3e4f50.mp3"
                    := Raw [Byte.x49; Byte.x44; Byte.x33] ]};
        asr_log := [] |}).
Proof.
  destruct (save_upload_stores service [Byte.x49; Byte.x44; Byte.x33] "Talk.MP3"
              {| files := ∅; asr_log := [] |} eq_refl) as (Hrun & _).
  rewrite Hrun. reflexivity.
Defined.

Example save_upload_without_extension :
  fst (save_upload service (inr [Byte.x49]) "recording"
         {| files := ∅; asr_log := [] |})
  = Ok "/app/temp/3f2b8c1e-7d4a-4e19-9b06-5a1c2d3e4f50.wav".
Proof. vm_compute. reflexivity. Qed.

Example saved_extension_is_lowercased :
  Sample.suffix "/app/temp/3f2b8c1e-7d4a-4e19-9b06-5a1c2d3e4f50.mp3"
  = Sample.lower (Sample.suffix "Talk.MP3").
Proof. vm_compute. reflexivity. Qed.

(** * Further properties of the code *)

(** ** The language hint *)

(** A way the guarded part ends for one language hint is a way it ends for
    any other, up to the language written in the result. *)
Lemma guarded_run_language (E : Env) audio_path language language' w
    outcome temp_files w1 :
  guarded_run E audio_path language w outcome temp_files w1 ->
  exists outcome',
    guarded_run E audio_path language' w outcome' temp_files w1
    /\ same_but_language outcome outcome'.
Proof.
  intros Hrun.
  destruct Hrun as [detail Hd|d Hd Hlong|d Hd Hle Hshort|d e wa Hd Hr Hc
                   |d wa e wb Hd Hr Hc Hlt Hs
                   |d wa chunks wb m wc Hd Hr Hc Hlt Hs Ht
                   |d wa chunks wb texts wc Hd Hr Hc Hlt Hs Ht
                   |d wa m wb Hd Hr Hc Hlt Ha
                   |d wa t wb Hd Hr Hc Hlt Ha];
    eexists; (split; [|shelve]).
  - exact (run_probe_failed E audio_path language' w detail Hd).
  - exact (run_too_long E audio_path language' w d Hd Hlong).
  - exact (run_too_short E audio_path language' w d Hd Hle Hshort).
  - exact (run_convert_failed E audio_path language' w d e wa Hd Hr Hc).
  - exact (run_split_failed E audio_path language' w d wa e wb Hd Hr Hc Hlt Hs).
  - exact (run_chunk_failed E audio_path language' w d wa chunks wb m wc
             Hd Hr Hc Hlt Hs Ht).
  - exact (run_chunked E audio_path language' w d wa chunks wb texts wc
             Hd Hr Hc Hlt Hs Ht).
  - exact (run_direct_failed E audio_path language' w d wa m wb Hd Hr Hc Hlt Ha).
  - exact (run_direct E audio_path language' w d wa t wb Hd Hr Hc Hlt Ha).
  Unshelve.
  all: simpl; auto.
Qed.

(** The language hint is not passed to the recognizer: two runs that differ
    only in the hint leave the same world and end alike, raising the same
    error or returning results with the same text, duration, chunk count and
    processing time. *)
Theorem language_only_labels (E : Env) (audio_path : string)
    (language language' : option string) (w : world) :
  snd (transcribe E audio_path language w)
  = snd (transcribe E audio_path language' w)
  /\ same_but_language (fst (transcribe E audio_path language w))
       (fst (transcribe E audio_path language' w)).
Proof.
  rewrite !transcribe_run.
  pose proof (transcribe_guarded_run E audio_path language w) as Hrun.
  destruct (transcribe_guarded E audio_path language ([], w))
    as [outcome [temp_files w1]].
  destruct (guarded_run_language E audio_path language language' w _ _ _ Hrun)
    as (outcome' & Hrun' & Hsame).
  apply guarded_run_sound in Hrun'. rewrite Hrun'. simpl. auto.
Qed.

(** ** The text of a result *)

Lemma lstrip_starts (t : text) : starts_with_space (lstrip t) = false.
Proof.
  induction t as [|c t IH]; [reflexivity|].
  simpl. destruct (isspace c) eqn:Hc; [exact IH | simpl; exact Hc].
Qed.

Lemma lstrip_snoc (t : text) (c : Z) :
  isspace c = false -> lstrip (t ++ [c]) = (lstrip t ++ [c])%list.
Proof.
  intros Hc. induction t as [|a t IH]; simpl.
  - rewrite Hc. reflexivity.
  - destruct (isspace a); [exact IH | reflexivity].
Qed.

Lemma lstrip_fixed (t : text) : starts_with_space t = false -> lstrip t = t.
Proof. destruct t as [|c t]; simpl; [reflexivity|]. intros ->. reflexivity. Qed.

(** Trimming leaves white space at neither end. *)
Lemma strip_ends (t : text) :
  starts_with_space (strip t) = false
  /\ starts_with_space (rev (strip t)) = false.
Proof.
  unfold strip, rstrip. split.
  - pose proof (lstrip_starts t) as Hhead.
    destruct (lstrip t) as [|c u]; [reflexivity|].
    simpl in Hhead. simpl. rewrite lstrip_snoc by exact Hhead.
    rewrite rev_app_distr. simpl. exact Hhead.
  - rewrite rev_involutive. apply lstrip_starts.
Qed.

(** A text with white space at neither end is left as it is. *)
Lemma strip_fixed (t : text) :
  starts_with_space t = false -> starts_with_space (rev t) = false ->
  strip t = t.
Proof.
  intros Hhead Hlast. unfold strip, rstrip.
  rewrite (lstrip_fixed t Hhead), (lstrip_fixed (rev t) Hlast).
  apply rev_involutive.
Qed.

(** The text of every result is trimmed: it neither begins nor ends with
    white space, so trimming it again changes nothing; this holds with and
    without chunking, whatever the recognizer returned. *)
Theorem result_text_trimmed (E : Env) (audio_path : string)
    (language : option string) (w : world) (r : TranscriptionResult)
    (w' : world) :
  transcribe E audio_path language w = (Ok r, w') ->
  starts_with_space (text_of r) = false
  /\ starts_with_space (rev (text_of r)) = false
  /\ strip (text_of r) = text_of r.
Proof.
  intros Hrun. rewrite transcribe_run in Hrun.
  pose proof (transcribe_guarded_run E audio_path language w) as Hg.
  destruct (transcribe_guarded E audio_path language ([], w))
    as [outcome [temp_files w1]].
  inversion Hrun; subst; clear Hrun.
  assert (Hends : forall t,
            starts_with_space (strip t) = false
            /\ starts_with_space (rev (strip t)) = false
            /\ strip (strip t) = strip t).
  { intros t. destruct (strip_ends t) as [Hhead Hlast].
    split; [exact Hhead|]. split; [exact Hlast|].
    apply strip_fixed; assumption. }
  inversion Hg; subst; simpl; apply Hends.
Qed.

(** A run whose recognizer returns text padded with white space. *)
Lemma result_text_trimmed_witness :
  exists r w',
    transcribe
      (Sample.sunny default_settings 30 wave3
         (fun _ => Sample.codepoints "  hello world "))
      "/app/temp/a.mp3" None Sample.world0 = (Ok r, w')
    /\ strip (text_of r) = text_of r.
Proof.
  destruct (transcribe
              (Sample.sunny default_settings 30 wave3
                 (fun _ => Sample.codepoints "  hello world "))
              "/app/temp/a.mp3" None Sample.world0) as [[r|e] w'] eqn:Hrun.
  - exists r, w'. split; [reflexivity|].
    apply (result_text_trimmed _ _ _ _ _ _ Hrun).
  - exfalso. vm_compute in Hrun. discriminate.
Defined.

(** ** The language heuristic in whole numbers *)

Lemma ratio_exceeds (cyrillic alpha : Z) :
  0 < alpha ->
  (0.3 < inject_Z cyrillic / inject_Z alpha)%Q <-> 3 * alpha < 10 * cyrillic.
Proof.
  intros Ha. destruct alpha as [|p|p]; try lia.
  unfold Qlt, Qdiv, Qmult, Qinv. simpl.
  rewrite Z.mul_1_r. lia.
Qed.

(** The heuristic answers "ru" exactly when the text has an alphabetic code
    point and more than three tenths of the alphabetic count are code points
    of the Cyrillic block, and "en" in every other case: at exactly three
    tenths, and for a text of Cyrillic code points none of which is
    alphabetic, the answer is "en". *)
Theorem detect_language_threshold (E : Env) (t : text) :
  let alpha := count_if (isalpha E) t in
  let cyrillic := count_if is_cyrillic t in
  (detect_language E t = "ru" <-> 0 < alpha /\ 3 * alpha < 10 * cyrillic)
  /\ (detect_language E t = "en" <-> alpha = 0 \/ 10 * cyrillic <= 3 * alpha)
  /\ (10 * cyrillic = 3 * alpha -> detect_language E t = "en")
  /\ (alpha = 0 -> detect_language E t = "en").
Proof.
  intros alpha cyrillic.
  pose proof (count_if_nonneg (isalpha E) t) as Hnonneg. fold alpha in Hnonneg.
  rewrite detect_language_classify. fold alpha. fold cyrillic.
  unfold classify.
  destruct (alpha =? 0) eqn:Hzero.
  - apply Z.eqb_eq in Hzero.
    repeat split; try (intros; discriminate); try (intros; reflexivity);
      try (intros; lia).
  - apply Z.eqb_neq in Hzero.
    assert (Hpos : 0 < alpha) by lia.
    destruct (Qlt_bool 0.3 (inject_Z cyrillic / inject_Z alpha)) eqn:Hratio.
    + apply Qlt_bool_true, ratio_exceeds in Hratio; [|exact Hpos].
      repeat split; try (intros; discriminate); try (intros; reflexivity);
        try (intros; lia); try (intros [?|?]; lia).
    + assert (Hle : 10 * cyrillic <= 3 * alpha).
      { apply Z.nlt_ge. intros Hlt.
        apply (ratio_exceeds cyrillic alpha Hpos), Qlt_bool_true in Hlt.
        congruence. }
      repeat split; try (intros; discriminate); try (intros; reflexivity);
        try (intros; lia); try (intros _; right; exact Hle).
Qed.

(** ** A chunk that cannot be recognized *)

(** The loop stops at the first chunk the recognizer fails on. *)
Lemma transcribe_chunks_stops (E : Env) decode done c rest ts detail acc w :
  recognizer E = Some decode ->
  Forall2 (fun p t => heard E (files w) p = Some t) done ts ->
  decode (files w) c = inl detail ->
  exists w',
    transcribe_chunks E (done ++ c :: rest) acc w
    = (Raise (RuntimeError ("Transcription failed: " ++ detail)), w')
    /\ files w' = files w
    /\ asr_log w' = (asr_log w ++ done ++ [c])%list.
Proof.
  intros Hrec Hdone Hfail. revert ts acc w Hdone Hfail.
  induction done as [|p done IH]; intros ts acc w Hdone Hfail.
  - simpl. unfold bind at 1. rewrite asr_transcribe_run, Hrec, Hfail.
    eexists. split; [reflexivity|]. split; reflexivity.
  - inversion Hdone as [|p' t done' ts' Hp Hrest]; subst.
    simpl. unfold bind at 1. rewrite asr_transcribe_run, Hrec.
    unfold heard in Hp. rewrite Hrec in Hp.
    destruct (decode (files w) p) as [d|u]; [discriminate|].
    destruct (IH ts' (if nonempty (strip u) then (acc ++ [strip u])%list else acc)
                (log_call p w) Hrest Hfail) as (w' & Hrun & Hfs & Hlog).
    exists w'. split; [exact Hrun|]. split; [exact Hfs|].
    rewrite Hlog. simpl. rewrite <- app_assoc. reflexivity.
Qed.

(** One chunk that cannot be recognized fails the whole run: the chunks
    before it have been recognized, the chunks after it are never handed to
    the recognizer, no partial transcript is returned, the engine's detail
    reaches the caller under both prefixes, and every chunk file, recognized
    or not, is still registered for deletion. *)
Theorem chunk_failure_aborts (E : Env) (audio_path : string)
    (language : option string) (w wa wb : world) (decode : decoder) (d : Q)
    (done rest : list string) (c : string) (ts : list text) (detail : string) :
  recognizer E = Some decode ->
  librosa_get_duration E (files w) audio_path = inr d ->
  in_range E d ->
  (inject_Z (chunk_size_seconds (settings E)) < d)%Q ->
  convert_to_wav E audio_path w = (Ok (converted_path E audio_path), wa) ->
  split_audio E (converted_path E audio_path) (chunk_size_seconds (settings E)) wa
  = (Ok (done ++ c :: rest)%list, wb) ->
  Forall2 (fun p t => heard E (files wb) p = Some t) done ts ->
  decode (files wb) c = inl detail ->
  exists w',
    transcribe_frame E audio_path language ([], w)
    = (Raise (TranscriptionError
                ("Failed to transcribe audio: Transcription failed: " ++ detail)
                "TRANSCRIPTION_FAILED"),
       ((converted_path E audio_path :: done ++ c :: rest)%list, w'))
    /\ asr_log w' = (asr_log w ++ done ++ [c])%list
    /\ forall q, q ∈ (converted_path E audio_path :: done ++ c :: rest)%list ->
                 (forall fs, os_unlink E fs q = None) -> files w' !! q = None.
Proof.
  intros Hrec Hd Hrange Hlt Hc Hs Hdone Hfail.
  destruct (transcribe_chunks_stops E decode done c rest ts detail [] wb
              Hrec Hdone Hfail) as (wc & Ht & Hfs & Hlog).
  pose proof (run_chunk_failed E audio_path language w d wa _ wb _ wc
                Hd Hrange Hc Hlt Hs Ht) as Hrun.
  apply guarded_run_sound in Hrun.
  rewrite transcribe_frame_run, Hrun.
  eexists. split; [reflexivity|]. simpl. split.
  - rewrite Hlog.
    destruct (split_audio_chunks E _ _ _ _ _ Hs) as (_ & _ & Hlog2 & _).
    pose proof (convert_to_wav_spec E audio_path w) as Hspec. simpl in Hspec.
    rewrite Hc in Hspec. destruct Hspec as (_ & Hlog1 & _).
    rewrite Hlog2, Hlog1. reflexivity.
  - intros q Hq Hdel.
    apply (sweep_gone E (converted_path E audio_path :: done ++ c :: rest)%list
             (files wc) q Hq Hdel).
Qed.

(** ** A service without a model *)

Lemma asr_unloaded (E : Env) p w :
  recognizer E = None ->
  asr_transcribe E p w = (Raise (RuntimeError "Model not loaded"), log_call p w).
Proof. intros Hrec. rewrite asr_transcribe_run, Hrec. reflexivity. Qed.

Lemma unloaded_outcomes (E : Env) (audio_path : string)
    (language : option string) (w : world) :
  recognizer E = None ->
  (forall r w', transcribe E audio_path language w = (Ok r, w') ->
     chunks_processed r = 0 /\ text_of r = [] /\ asr_log w' = asr_log w)
  /\ (forall message w',
        transcribe E audio_path language w
        = (Raise (TranscriptionError message "TRANSCRIPTION_FAILED"), w') ->
        message = "Failed to transcribe audio: Model not loaded").
Proof.
  intros Hrec. rewrite transcribe_run.
  pose proof (transcribe_guarded_run E audio_path language w) as Hg.
  destruct (transcribe_guarded E audio_path language ([], w))
    as [outcome [temp_files w1]].
  assert (Hloop : forall chunks wb,
            match transcribe_chunks E chunks [] wb with
            | (Ok texts, wc) => chunks = [] /\ texts = [] /\ wc = wb
            | (Raise e, _) => e = RuntimeError "Model not loaded"
            end).
  { intros chunks wb. destruct chunks as [|c chunks]; simpl.
    - auto.
    - unfold bind. rewrite (asr_unloaded E c wb Hrec). reflexivity. }
  assert (Hlogs : forall wa chunks wb,
            convert_to_wav E audio_path w
            = (Ok (converted_path E audio_path), wa) ->
            split_audio E (converted_path E audio_path)
              (chunk_size_seconds (settings E)) wa = (Ok chunks, wb) ->
            asr_log wb = asr_log w).
  { intros wa chunks wb Hc Hs.
    destruct (split_audio_chunks E _ _ _ _ _ Hs) as (_ & _ & Hlog2 & _).
    pose proof (convert_to_wav_spec E audio_path w) as Hspec. simpl in Hspec.
    rewrite Hc in Hspec. destruct Hspec as (_ & Hlog1 & _). congruence. }
  split.
  - intros r w' Heq. inversion Heq; subst; clear Heq.
    inversion Hg; subst.
    + match goal with
      | Ht : transcribe_chunks _ ?cs _ ?wb = _ |- _ =>
          pose proof (Hloop cs wb) as Hl; rewrite Ht in Hl;
          destruct Hl as (-> & -> & ->)
      end.
      simpl. repeat split. eapply Hlogs; eauto.
    + match goal with
      | Ha : asr_transcribe _ _ _ = _ |- _ =>
          rewrite (asr_unloaded E _ _ Hrec) in Ha; discriminate
      end.
  - intros message w' Heq. inversion Heq; subst; clear Heq.
    inversion Hg; subst.
    + match goal with
      | Ht : transcribe_chunks _ ?cs _ ?wb = _ |- _ =>
          pose proof (Hloop cs wb) as Hl; rewrite Ht in Hl;
          inversion Hl; reflexivity
      end.
    + match goal with
      | Ha : asr_transcribe _ _ _ = _ |- _ =>
          rewrite (asr_unloaded E _ _ Hrec) in Ha; inversion Ha; reflexivity
      end.
Qed.

(** While no model is loaded, a run can only succeed without recognizing
    anything: its result then has no chunk and an empty text, and the
    recognizer log is as before.  Every other run that reaches recognition
    fails with TRANSCRIPTION_FAILED and the message of the missing model. *)
Theorem unloaded_model_runs (E : Env) (audio_path : string)
    (language : option string) (w : world) :
  recognizer E = None ->
  (forall r w', transcribe E audio_path language w = (Ok r, w') ->
     chunks_processed r = 0 /\ text_of r = [] /\ asr_log w' = asr_log w)
  /\ (forall message w',
        transcribe E audio_path language w
        = (Raise (TranscriptionError message "TRANSCRIPTION_FAILED"), w') ->
        message = "Failed to transcribe audio: Model not loaded").
Proof. apply unloaded_outcomes. Qed.

(** The second of three chunks cannot be recognized: the third is never
    tried. *)
Lemma chunk_failure_aborts_witness :
  exists w',
    transcribe_frame second_chunk_fails "/app/temp/a.mp3" None ([], Sample.world0)
    = (Raise (TranscriptionError
                "Failed to transcribe audio: Transcription failed: invalid waveform"
                "TRANSCRIPTION_FAILED"),
       (["/app/temp/a.converted.wav";
         "/app/temp/a.converted_chunk_0000.wav";
         "/app/temp/a.converted_chunk_0001.wav";
         "/app/temp/a.converted_chunk_0002.wav"], w'))
    /\ asr_log w' = ["/app/temp/a.converted_chunk_0000.wav";
                     "/app/temp/a.converted_chunk_0001.wav"].
Proof.
  edestruct (chunk_failure_aborts second_chunk_fails "/app/temp/a.mp3" None
               Sample.world0 world_converted
               (snd (split_audio second_chunk_fails "/app/temp/a.converted.wav"
                       60 world_converted))
               (fun _ => deaf_to_second) 125
               ["/app/temp/a.converted_chunk_0000.wav"]
               ["/app/temp/a.converted_chunk_0002.wav"]
               "/app/temp/a.converted_chunk_0001.wav"
               [Sample.codepoints "hello"] "invalid waveform")
    as (w' & Hrun & Hlog & _).
  - reflexivity.
  - reflexivity.
  - split; discriminate.
  - reflexivity.
  - vm_compute. reflexivity.
  - vm_compute. reflexivity.
  - constructor; [vm_compute; reflexivity | constructor].
  - reflexivity.
  - exists w'. split; [exact Hrun | exact Hlog].
Defined.

(** The service whose model failed to load answers a thirty-second upload
    with the message of the missing model. *)
Lemma unloaded_model_runs_witness :
  exists w',
    transcribe unloaded "/app/temp/a.mp3" None Sample.world0
    = (Raise (TranscriptionError "Failed to transcribe audio: Model not loaded"
                "TRANSCRIPTION_FAILED"), w').
Proof.
  destruct (transcribe unloaded "/app/temp/a.mp3" None Sample.world0)
    as [[r|[message code| | | |]] w'] eqn:Hrun;
    try (exfalso; vm_compute in Hrun; discriminate).
  assert (Hcode : code = "TRANSCRIPTION_FAILED")
    by (vm_compute in Hrun; congruence).
  subst code. exists w'.
  rewrite (proj2 (unloaded_model_runs unloaded "/app/temp/a.mp3" None
                    Sample.world0 eq_refl) message w' Hrun).
  reflexivity.
Defined.

(** ** What the converter leaves on disk *)

(** When the converter returns, the path it returns holds a waveform at the
    configured sample rate: the audio pydub decoded when the pydub attempt
    went through, otherwise the audio librosa loaded after the pydub attempt
    raised; whatever a failed pydub export left at that path has been
    overwritten, and no other path has changed. *)
Theorem convert_to_wav_output (E : Env) (input_path : string) (w : world)
    (r : string) (w' : world) :
  convert_to_wav E input_path w = (Ok r, w') ->
  let sr := sample_rate (settings E) in
  r = converted_path E input_path
  /\ asr_log w' = asr_log w
  /\ (forall q, q <> r -> files w' !! q = files w !! q)
  /\ exists y,
       files w' !! r = Some (Wav sr y)
       /\ (convert_pydub E input_path r w = (Ok r, w')
           /\ pydub_from_file E (files w) input_path sr = inr y
           \/ exists e w1,
                convert_pydub E input_path r w = (Raise e, w1)
                /\ librosa_load E (files w1) input_path sr = inr y).
Proof.
  intros Hrun sr.
  pose proof (convert_to_wav_spec E input_path w) as Hspec. simpl in Hspec.
  rewrite Hrun in Hspec. destruct Hspec as (-> & Hlog & b & Hfs).
  unfold converted_path in *.
  remember (path_with_suffix E input_path ".converted.wav") as out eqn:Hout.
  split; [reflexivity|]. split; [exact Hlog|].
  split; [intros q Hq; rewrite Hfs; apply lookup_insert_ne; congruence|].
  clear Hfs Hlog b.
  unfold convert_to_wav in Hrun. cbv zeta in Hrun. rewrite <- Hout in Hrun.
  unfold try_except at 1 in Hrun.
  destruct (convert_pydub E input_path out w) as [[r1|e1] w1] eqn:Hp.
  - inversion Hrun; subst r1 w1; clear Hrun.
    unfold convert_pydub, bind, lib_read, lib_write, ret in Hp. fold sr in Hp.
    destruct (pydub_from_file E (files w) input_path sr) as [d|y] eqn:Hy;
      [discriminate|].
    exists y.
    destruct (pydub_export E (files w) out) as [|d [|]]; inversion Hp.
    split; [simpl; apply lookup_insert_eq|].
    left. split; reflexivity.
  - unfold try_except in Hrun.
    destruct (convert_librosa E input_path out w1) as [[r2|e2] w2] eqn:Hl;
      [|discriminate].
    inversion Hrun; subst r2 w2; clear Hrun.
    unfold convert_librosa, bind, lib_read, lib_write, ret in Hl. fold sr in Hl.
    destruct (librosa_load E (files w1) input_path sr) as [d|y] eqn:Hy;
      [discriminate|].
    exists y.
    destruct (sf_write E (files w1) out) as [|d [|]]; inversion Hl.
    split; [simpl; apply lookup_insert_eq|].
    right. exists e1, w1. split; [reflexivity|exact Hy].
Qed.

(** The fallback at work: pydub fails, the converted file holds what
    librosa loaded. *)
Lemma convert_to_wav_output_witness :
  files (snd (convert_to_wav needs_fallback "/app/temp/a.mp3" Sample.world0))
    !! "/app/temp/a.converted.wav"
  = Some (Wav 16000 wave3).
Proof.
  destruct (convert_to_wav needs_fallback "/app/temp/a.mp3" Sample.world0)
    as [[r|e] w'] eqn:Hrun.
  - destruct (convert_to_wav_output _ _ _ _ _ Hrun) as (-> & _ & _ & y & Hy & Hor).
    simpl snd. transitivity (Some (Wav 16000 y)); [exact Hy|]. f_equal. f_equal.
    destruct Hor as [[_ Hpydub]|(e & w1 & _ & Hload)].
    + vm_compute in Hpydub. discriminate.
    + injection Hload as <-. reflexivity.
  - exfalso. vm_compute in Hrun. discriminate.
Defined.

(** ** The chunker at its edges *)

Lemma num_chunks_zero (cs : Z) : num_chunks 0 cs = 0.
Proof.
  unfold num_chunks, Qceiling, Qfloor, Qdiv, Qmult, Qopp.
  destruct (Qinv (inject_Z cs)) as [n d]. reflexivity.
Qed.

(** A chunking call that fails before any chunk is written leaves the world
    exactly as it was: when the audio cannot be loaded the error carries the
    loader's detail, and when the audio is loaded and the chunk duration is
    zero the division raises and the error says "division by zero". *)
Theorem split_audio_fails_early (E : Env) (audio_path : string) (w : world) :
  let sr := sample_rate (settings E) in
  (forall C detail,
     librosa_load E (files w) audio_path sr = inl detail ->
     split_audio E audio_path C w
     = (Raise (AudioProcessingError ("Failed to split audio: " ++ detail)), w))
  /\ (forall y,
        librosa_load E (files w) audio_path sr = inr y ->
        split_audio E audio_path 0 w
        = (Raise (AudioProcessingError "Failed to split audio: division by zero"),
           w)).
Proof.
  intros sr. split.
  - intros C detail Hy.
    unfold split_audio, frame, try_except, split_try. fold sr.
    unfold bind at 1. unfold call at 1. unfold lib_read at 1. simpl.
    rewrite Hy. unfold split_handler, bind, get_local, call, raise. simpl.
    destruct w; reflexivity.
  - intros y Hy.
    unfold split_audio, frame, try_except, split_try. fold sr.
    unfold bind at 1. unfold call at 1. unfold lib_read at 1. simpl.
    rewrite Hy. unfold bind at 1. unfold true_div at 1. simpl.
    unfold split_handler, bind, get_local, call, raise. simpl.
    destruct w; reflexivity.
Qed.

(** A chunk duration of zero seconds on the converted 125-second upload:
    the audio is loaded, and the chunker fails on the division. *)
Lemma split_audio_fails_early_witness :
  split_audio long_upload "/app/temp/a.converted.wav" 0 world_converted
  = (Raise (AudioProcessingError "Failed to split audio: division by zero"),
     world_converted).
Proof.
  apply (proj2 (split_audio_fails_early long_upload "/app/temp/a.converted.wav"
                  world_converted) (replicate 125 0.5%Q)).
  reflexivity.
Defined.

(** An audio without samples is split into no chunk, and nothing is
    written. *)
Lemma split_audio_empty (E : Env) audio_path C w :
  librosa_load E (files w) audio_path (sample_rate (settings E)) = inr [] ->
  C * sample_rate (settings E) <> 0 ->
  split_audio E audio_path C w = (Ok [], w).
Proof.
  intros Hy Hz.
  unfold split_audio, frame, try_except, split_try.
  unfold bind at 1. unfold call at 1. unfold lib_read at 1. simpl.
  rewrite Hy. unfold bind at 1. unfold true_div at 1.
  destruct (C * sample_rate (settings E) =? 0) eqn:Hzero;
    [apply Z.eqb_eq in Hzero; contradiction|].
  unfold ret at 1. unfold bind at 1. simpl length. simpl Z.of_nat.
  change (Qceiling (inject_Z (Z.of_nat 0) / inject_Z (C * sample_rate (settings E))))
    with (num_chunks 0 (C * sample_rate (settings E))).
  rewrite num_chunks_zero. reflexivity.
Qed.

(** A long upload whose converted audio turns out to hold no sample is not
    an error: the run returns an empty text with zero chunks, the language
    hint or else "en", without ever calling the recognizer, and the converted
    file is swept as on any other run. *)
Theorem empty_waveform_run (E : Env) (audio_path : string)
    (language : option string) (w wa : world) (d : Q) :
  librosa_get_duration E (files w) audio_path = inr d ->
  in_range E d ->
  (inject_Z (chunk_size_seconds (settings E)) < d)%Q ->
  convert_to_wav E audio_path w = (Ok (converted_path E audio_path), wa) ->
  librosa_load E (files wa) (converted_path E audio_path)
    (sample_rate (settings E)) = inr [] ->
  chunk_size_seconds (settings E) * sample_rate (settings E) <> 0 ->
  transcribe E audio_path language w
  = (Ok {| text_of := [];
           language_of := if not_given language then "en" else default "" language;
           duration_of := d;
           chunks_processed := 0;
           processing_time_ms := elapsed_ms E |},
     set_files (sweep E [converted_path E audio_path]) wa)
  /\ asr_log wa = asr_log w.
Proof.
  intros Hd Hrange Hlt Hc Hy Hz.
  pose proof (split_audio_empty E _ _ wa Hy Hz) as Hs.
  pose proof (run_chunked E audio_path language w d wa [] wa [] wa
                Hd Hrange Hc Hlt Hs eq_refl) as Hrun.
  apply guarded_run_sound in Hrun.
  rewrite transcribe_run, Hrun. split; [reflexivity|].
  pose proof (convert_to_wav_spec E audio_path w) as Hspec. simpl in Hspec.
  rewrite Hc in Hspec. apply Hspec.
Qed.

(** The empty waveform at one sample per second. *)
Lemma empty_waveform_run_witness :
  fst (transcribe empty_waveform "/app/temp/a.mp3" None Sample.world0)
  = Ok {| text_of := [];
          language_of := "en";
          duration_of := 125;
          chunks_processed := 0;
          processing_time_ms := 1500 |}.
Proof.
  destruct (empty_waveform_run empty_waveform "/app/temp/a.mp3" None
              Sample.world0
              {| files := <["/app/temp/a.converted.wav" := Wav 1 []]>
                            (files Sample.world0);
                 asr_log := [] |} 125) as [Hrun _].
  - reflexivity.
  - split; discriminate.
  - reflexivity.
  - vm_compute. reflexivity.
  - reflexivity.
  - discriminate.
  - rewrite Hrun. reflexivity.
Defined.

(** ** The answers of the endpoint *)

(** The endpoint, step by step: the upload is saved, the pipeline runs, the
    handler turns an exception into an answer, and the [finally] block
    deletes the saved upload when there is one. *)
Lemma transcribe_upload_run (E : Env) name file language w :
  transcribe_upload E name file language w =
  match save_upload E file name w with
  | (Ok p, wa) =>
      match transcribe E p language wa with
      | (Ok r, wb) =>
          (Ok (Success (text_of r) (language_of r) (duration_of r)
                 (processing_time_ms r)),
           set_files (fun fs => sweep_step E fs p) wb)
      | (Raise e, wb) =>
          (fst (endpoint_handler e tt),
           set_files (fun fs => sweep_step E fs p) wb)
      end
  | (Raise e, wa) => (fst (endpoint_handler e tt), wa)
  end.
Proof.
  unfold transcribe_upload, frame, try_finally, try_except.
  unfold bind at 1. unfold call at 1. simpl.
  destruct (save_upload E file name w) as [[p|e] wa].
  - unfold bind at 1. unfold modify_local at 1. simpl.
    unfold bind at 1. unfold call at 1. simpl.
    destruct (transcribe E p language wa) as [[r|e] wb]; simpl.
    + unfold bind, get_local, call. simpl. rewrite cleanup_file_run. reflexivity.
    + destruct e; simpl; unfold bind, get_local, call; simpl;
        rewrite cleanup_file_run; reflexivity.
  - destruct e; simpl; unfold bind, get_local; simpl; destruct wa; reflexivity.
Qed.

(** Every request is answered, and in one of five ways: with the
    transcription; with status 400 and MISSING_FILENAME or
    INVALID_AUDIO_FORMAT, or with status 413 and FILE_TOO_LARGE, the world
    being untouched; with status 400 and AUDIO_PROCESSING_ERROR when the
    upload could not be saved, the message beginning "Failed to save upload: ",
    nothing having been recognized, and what the failed write left at the
    upload's path still being there; or with status 500 and one of the four
    codes of the pipeline.  No answer but the transcription carries anything
    beyond code and message. *)
Theorem endpoint_answers (E : Env) (audio : UploadFile)
    (language : option string) (w : world) :
  exists r w',
    transcribe_audio E audio language w = (Ok r, w')
    /\ match r with
       | Success _ _ _ _ => True
       | HTTPError status_code code message details =>
           details = None
           /\ (status_code = 400
               /\ code ∈ ["MISSING_FILENAME"; "INVALID_AUDIO_FORMAT"]
               /\ w' = w
               \/ status_code = 413 /\ code = "FILE_TOO_LARGE" /\ w' = w
               \/ status_code = 400
                  /\ code = "AUDIO_PROCESSING_ERROR"
                  /\ (exists detail,
                        message = "Failed to save upload: " ++ detail)
                  /\ (w' = w
                      \/ exists p, w' = set_files (insert p Truncated) w)
               \/ status_code = 500 /\ code ∈ pipeline_codes)
       end.
Proof.
  unfold transcribe_audio.
  destruct (filename audio) as [[|a name]|].
  - eexists _, _. split; [reflexivity|]. split; [reflexivity|].
    left. repeat split. apply elem_of_cons. left. reflexivity.
  - destruct (validate_format E (String a name)); simpl.
    + destruct (match size audio with
                | Some n =>
                    negb (n =? 0)
                    && (max_file_size_mb (settings E) * 1024 * 1024 <? n)
                | None => false
                end).
      * eexists _, _. split; [reflexivity|]. split; [reflexivity|].
        right. left. repeat split.
      * rewrite transcribe_upload_run, save_upload_run.
        destruct (file audio) as [detail|content].
        { eexists _, _. split; [reflexivity|]. split; [reflexivity|].
          right. right. left. repeat split; eauto. }
        match goal with
        | |- context [open_write E (files w) ?p] =>
            destruct (open_write E (files w) p) as [|detail leftover]
        end.
        { match goal with
          | |- context [transcribe E ?p language ?wa] =>
              pose proof (transcribe_raises E p language wa) as Hcodes;
              destruct (transcribe E p language wa) as [[r|e] wb]
          end.
          - eexists _, _. split; [reflexivity|]. exact I.
          - destruct (Hcodes e eq_refl) as (m & c & -> & Hc).
            eexists _, _. split; [reflexivity|]. split; [reflexivity|].
            right. right. right. split; [reflexivity | exact Hc]. }
        { eexists _, _. split; [reflexivity|]. split; [reflexivity|].
          right. right. left. split; [reflexivity|]. split; [reflexivity|].
          split; [eauto|]. destruct leftover; eauto. }
    + eexists _, _. split; [reflexivity|]. split; [reflexivity|].
      left. repeat split. apply elem_of_cons. right.
      apply elem_of_cons. left. reflexivity.
  - eexists _, _. split; [reflexivity|]. split; [reflexivity|].
    left. repeat split. apply elem_of_cons. left. reflexivity.
Qed.

(** When no write fails leaving a file, no deletion raises, and the path of
    the saved upload and the artifact paths of its run are free and distinct
    from it, a request leaves the files exactly as it found them, whatever
    its answer: the upload, the converted file and the chunks are all
    removed. *)
Theorem request_leaves_no_file (E : Env) (audio : UploadFile)
    (language : option string) (w : world) :
  clean_failures E ->
  deletions_succeed E ->
  (forall fs p d, open_write E fs p <> WriteFailed d true) ->
  (forall name,
     filename audio = Some name ->
     let ext := str_lower E (path_suffix E name) in
     let p := path_join E (temp_dir (settings E))
                (uuid4 E ++ (if String.eqb ext "" then ".wav" else ext)) in
     files w !! p = None
     /\ forall q, artifact E p q -> q <> p /\ files w !! q = None) ->
  files (snd (transcribe_audio E audio language w)) = files w.
Proof.
  intros Hclean Hdel Hopen Hfree. unfold transcribe_audio.
  destruct (filename audio) as [[|a name]|]; try reflexivity.
  destruct (validate_format E (String a name)); simpl; [|reflexivity].
  destruct (match size audio with
            | Some n =>
                negb (n =? 0)
                && (max_file_size_mb (settings E) * 1024 * 1024 <? n)
            | None => false
            end); [reflexivity|].
  specialize (Hfree (String a name) eq_refl). simpl in Hfree.
  rewrite transcribe_upload_run, save_upload_run.
  destruct (file audio) as [detail|content]; [reflexivity|].
  revert Hfree.
  match goal with
  | |- context [open_write E (files w) ?p] => generalize p
  end.
  intros p [Hp Hart].
  destruct (open_write E (files w) p) as [|detail leftover] eqn:Hw.
  - set (wa := set_files (insert p (Raw content)) w).
    assert (Hswept : forall o tf w1,
              guarded_run E p language wa o tf w1 ->
              sweep_step E (sweep E tf (files w1)) p = files w).
    { intros o tf w1 Hrun.
      pose proof (guarded_run_swept E p language wa o tf w1 Hclean Hdel Hrun)
        as Hq.
      assert (Hnot : ~ artifact E p p) by (intros Ha; apply (Hart p Ha); reflexivity).
      assert (Hpres : sweep E tf (files w1) !! p = Some (Raw content)).
      { destruct (Hq p) as [Heq|[Ha _]]; [|contradiction].
        rewrite Heq. simpl. apply lookup_insert_eq. }
      unfold sweep_step. rewrite Hpres, Hdel.
      apply map_eq. intros q. destruct (decide (q = p)) as [->|Hne].
      - rewrite lookup_delete_eq. symmetry. exact Hp.
      - rewrite lookup_delete_ne by congruence.
        destruct (Hq q) as [Heq|[Ha Hnone]].
        + rewrite Heq. simpl. apply lookup_insert_ne. congruence.
        + rewrite Hnone. symmetry. apply (Hart q Ha). }
    rewrite transcribe_run.
    pose proof (transcribe_guarded_run E p language wa) as Hrun.
    fold wa.
    destruct (transcribe_guarded E p language ([], wa)) as [[r|e] [tf w1]];
      simpl; eapply Hswept; exact Hrun.
  - destruct leftover; [exfalso; eapply Hopen; exact Hw | reflexivity].
Qed.

(** A three-byte upload named [talk.mp3] on the sample service: the temp
    directory is as empty afterwards as it was before. *)
Lemma request_leaves_no_file_witness :
  files (snd (transcribe_audio
                (Sample.sunny default_settings 30 wave3
                   (fun _ => Sample.codepoints "hello"))
                talk None {| files := ∅; asr_log := [] |}))
  = ∅.
Proof.
  apply (request_leaves_no_file
           (Sample.sunny default_settings 30 wave3
              (fun _ => Sample.codepoints "hello"))
           talk None {| files := ∅; asr_log := [] |}).
  - apply sunny_clean.
  - apply sunny_deletes.
  - intros fs p d. discriminate.
  - intros name Hname. injection Hname as <-. simpl.
    split; [apply lookup_empty|].
    intros q [->|[i ->]]; (split; [|apply lookup_empty]).
    + vm_compute. discriminate.
    + unfold chunk_path, converted_path. simpl. discriminate.
Defined.

(** ** Emptying the temp directory *)

Lemma sweep_lookup (E : Env) ps fs q :
  sweep E ps fs !! q = fs !! q \/ sweep E ps fs !! q = None.
Proof.
  revert fs. induction ps as [|p ps IH]; intros fs; [left; reflexivity|].
  simpl. destruct (IH (sweep_step E fs p)) as [Heq|Hnone]; [|right; exact Hnone].
  rewrite Heq. destruct (sweep_step_lookup E fs p q) as [?|[_ ?]]; auto.
Qed.

Lemma sweep_subseteq (E : Env) ps fs : sweep E ps fs ⊆ fs.
Proof.
  apply map_subseteq_spec. intros q x Hq.
  destruct (sweep_lookup E ps fs q) as [Heq|Hnone]; congruence.
Qed.

(** A sweep keeps a file whose deletion raises. *)
Lemma sweep_kept (E : Env) ps fs q b :
  fs !! q = Some b -> (forall fs', os_unlink E fs' q <> None) ->
  sweep E ps fs !! q = Some b.
Proof.
  intros Hq Hdel. revert fs Hq.
  induction ps as [|p rest IH]; intros fs Hq; [exact Hq|].
  simpl. apply IH. unfold sweep_step.
  destruct (fs !! p) eqn:Hp; [|exact Hq].
  destruct (os_unlink E fs p) eqn:Hd; [exact Hq|].
  destruct (decide (p = q)) as [->|Hne].
  - exfalso. eapply Hdel. exact Hd.
  - rewrite lookup_delete_ne by exact Hne. exact Hq.
Qed.

(** One turn of the loop whose [is_file] test does not raise: the entry is
    swept, and counted when it has disappeared. *)
Lemma remove_entries_step (H : Host) p rest count w :
  stat_error H (files w) p = None ->
  remove_entries H (p :: rest) count w
  = remove_entries H rest
      (count + (Z.of_nat (base.size (files w))
                - Z.of_nat (base.size (sweep_step (env H) (files w) p))))
      (set_files (fun fs => sweep_step (env H) fs p) w).
Proof.
  intros Hstat. cbn [remove_entries]. unfold bind at 1. unfold is_file at 1.
  rewrite Hstat. unfold present. destruct w as [fs lg]. cbn [files].
  unfold set_files. cbn [files asr_log]. unfold sweep_step.
  destruct (fs !! p) as [b|] eqn:Hp.
  - rewrite bool_decide_eq_true_2 by eauto.
    unfold bind at 1. unfold try_except at 1. unfold bind at 1.
    unfold unlink at 1. cbn [files]. rewrite Hp.
    destruct (os_unlink (env H) fs p) as [detail|] eqn:Hd.
    + unfold raise, ret. f_equal. lia.
    + unfold ret.
      assert (Hsize : base.size (delete p fs) = pred (base.size fs))
        by (apply map_size_delete_Some; eauto).
      assert (Hpos : base.size fs <> 0%nat).
      { intros Hz. apply map_size_empty_iff in Hz. subst fs.
        rewrite lookup_empty in Hp. discriminate. }
      unfold set_files. cbn [files asr_log]. f_equal. lia.
  - rewrite bool_decide_eq_false_2 by (intros [? ?]; discriminate).
    f_equal. lia.
Qed.

(** A turn whose [is_file] test raises ends the loop. *)
Lemma remove_entries_raise (H : Host) p rest count w detail :
  stat_error H (files w) p = Some detail ->
  remove_entries H (p :: rest) count w = (Raise (LibraryError detail), w).
Proof.
  intros Hstat. cbn [remove_entries]. unfold bind, is_file.
  rewrite Hstat. reflexivity.
Qed.

(** The loop sweeps the entries in order until it ends or [is_file] raises:
    it returns [count] raised by the number of files that have disappeared,
    or raises the error of [is_file] with the entries before swept. *)
Lemma remove_entries_run (H : Host) entries count w :
  exists done rest,
    entries = (done ++ rest)%list
    /\ snd (remove_entries H entries count w)
       = set_files (sweep (env H) done) w
    /\ match fst (remove_entries H entries count w) with
       | Ok n =>
           rest = []
           /\ n = count + (Z.of_nat (base.size (files w))
                           - Z.of_nat (base.size (sweep (env H) done (files w))))
       | Raise e =>
           exists q rest' detail,
             rest = q :: rest'
             /\ stat_error H (sweep (env H) done (files w)) q = Some detail
             /\ e = LibraryError detail
       end.
Proof.
  revert count w. induction entries as [|p entries IH]; intros count w.
  - exists [], []. split; [reflexivity|].
    split; [destruct w; reflexivity|]. simpl. split; [reflexivity | lia].
  - destruct (stat_error H (files w) p) as [detail|] eqn:Hstat.
    + exists [], (p :: entries). split; [reflexivity|].
      rewrite (remove_entries_raise H p entries count w detail Hstat).
      split; [destruct w; reflexivity|]. simpl.
      exists p, entries, detail. auto.
    + rewrite (remove_entries_step H p entries count w Hstat).
      set (c1 := count + (Z.of_nat (base.size (files w))
                          - Z.of_nat (base.size (sweep_step (env H) (files w) p)))).
      set (w1 := set_files (fun fs => sweep_step (env H) fs p) w).
      assert (Hfs : files w1 = sweep_step (env H) (files w) p)
        by (destruct w; reflexivity).
      destruct (IH c1 w1) as (done & rest & -> & Hsnd & Hfst).
      exists (p :: done), rest. split; [reflexivity|].
      split; [rewrite Hsnd; unfold w1; destruct w; reflexivity|].
      change (sweep (env H) (p :: done) (files w))
        with (sweep (env H) done (sweep_step (env H) (files w) p)).
      rewrite <- Hfs.
      destruct (fst (remove_entries H (done ++ rest) c1 w1)) as [n|e].
      * destruct Hfst as [-> ->]. split; [reflexivity|].
        unfold c1. rewrite <- Hfs. lia.
      * exact Hfst.
Qed.

(** The call when the temp directory exists: the listing, then the loop. *)
Lemma cleanup_temp_directory_run (H : Host) (s : server) :
  stat_error H (files (srv_world s)) (temp_dir (settings (env H))) = None ->
  srv_temp_dir s = true ->
  cleanup_temp_directory H s
  = match iterdir H (files (srv_world s)) (temp_dir (settings (env H))) with
    | inl detail => (Raise (LibraryError detail), s)
    | inr entries =>
        (fst (remove_entries H entries 0 (srv_world s)),
         set_world (snd (remove_entries H entries 0 (srv_world s))) s)
    end.
Proof.
  intros Hstat Htemp. unfold cleanup_temp_directory.
  rewrite Hstat, Htemp. cbn [negb].
  unfold in_world, bind, lib_read.
  destruct (iterdir H (files (srv_world s)) (temp_dir (settings (env H))))
    as [detail|entries]; [destruct s; reflexivity|].
  destruct (remove_entries H entries 0 (srv_world s)); reflexivity.
Qed.

(** [cleanup_temp_directory] when the temp directory exists.  When the
    test for the directory or the listing raises, that error is raised and
    nothing has changed.  Otherwise the call touches no path outside the listing, creates nothing,
    leaves the recognizer log and the model alone, and keeps every file
    whose deletion raises.  When it returns, it returns the number of files
    that have disappeared, and every listed path whose deletion does not
    raise is absent.  It raises only when [is_file] raises on a listed
    path, with that error, what was removed before staying removed; so it
    returns whenever [is_file] raises on no listed path. *)
Theorem temp_directory_cleanup (H : Host) (s : server) :
  srv_temp_dir s = true ->
  let w := srv_world s in
  match stat_error H (files w) (temp_dir (settings (env H))),
        iterdir H (files w) (temp_dir (settings (env H))) with
  | Some detail, _ | None, inl detail =>
      cleanup_temp_directory H s = (Raise (LibraryError detail), s)
  | None, inr entries =>
      exists r w',
        cleanup_temp_directory H s = (r, set_world w' s)
        /\ asr_log w' = asr_log w
        /\ files w' ⊆ files w
        /\ (forall q, q ∉ entries -> files w' !! q = files w !! q)
        /\ (forall q b, files w !! q = Some b ->
              (forall fs, os_unlink (env H) fs q <> None) ->
              files w' !! q = Some b)
        /\ match r with
           | Ok n =>
               Z.of_nat (base.size (files w)) = n + Z.of_nat (base.size (files w'))
               /\ (forall q, q ∈ entries ->
                     (forall fs, os_unlink (env H) fs q = None) ->
                     files w' !! q = None)
           | Raise e =>
               exists q detail,
                 q ∈ entries
                 /\ stat_error H (files w') q = Some detail
                 /\ e = LibraryError detail
           end
        /\ ((forall fs q, q ∈ entries -> stat_error H fs q = None) ->
            exists n, r = Ok n)
  end.
Proof.
  intros Htemp w.
  destruct (stat_error H (files w) (temp_dir (settings (env H))))
    as [detail|] eqn:Hstat0.
  { unfold cleanup_temp_directory. fold w. rewrite Hstat0. reflexivity. }
  rewrite (cleanup_temp_directory_run H s Hstat0 Htemp). fold w.
  destruct (iterdir H (files w) (temp_dir (settings (env H))))
    as [detail|entries]; [reflexivity|].
  destruct (remove_entries_run H entries 0 w)
    as (done & rest & Hsplit & Hsnd & Hfst).
  destruct (remove_entries H entries 0 w) as [r w'] eqn:Hrun.
  cbn [fst snd] in *. subst w'.
  exists r, (set_files (sweep (env H) done) w).
  split; [reflexivity|].
  destruct w as [fs lg] eqn:Hw. cbn [files asr_log set_files] in *.
  split; [reflexivity|].
  split; [apply sweep_subseteq|].
  split.
  { intros q Hq. apply sweep_other. intros Hin. apply Hq.
    rewrite Hsplit. apply elem_of_app. left. exact Hin. }
  split; [intros q b Hq Hdel; apply sweep_kept; assumption|].
  split.
  - destruct r as [n|e].
    + destruct Hfst as [-> ->]. rewrite app_nil_r in Hsplit. subst done.
      split; [lia|]. intros q Hq Hdel. apply sweep_gone; assumption.
    + destruct Hfst as (q & rest' & detail & -> & Hstat & ->).
      exists q, detail. split; [|split; [exact Hstat | reflexivity]].
      rewrite Hsplit. apply elem_of_app. right. apply elem_of_cons. left.
      reflexivity.
  - intros Hfine. destruct r as [n|e]; [eauto|].
    destruct Hfst as (q & rest' & detail & -> & Hstat & _).
    rewrite Hfine in Hstat; [discriminate Hstat|].
    rewrite Hsplit. apply elem_of_app. right. apply elem_of_cons. left.
    reflexivity.
Qed.

(** Two stale files in the temp directory: both are removed and counted, the
    model files stay. *)
Lemma temp_directory_cleanup_witness :
  fst (cleanup_temp_directory broken_loader (cold stale_world)) = Ok 2.
Proof.
  pose proof (temp_directory_cleanup broken_loader (cold stale_world) eq_refl)
    as Hc.
  cbv zeta in Hc.
  change (stat_error broken_loader (files (srv_world (cold stale_world)))
            (temp_dir (settings (env broken_loader))))
    with (@None string) in Hc.
  destruct (iterdir broken_loader (files (srv_world (cold stale_world)))
              (temp_dir (settings (env broken_loader))))
    as [detail|entries] eqn:Hl.
  - exfalso. vm_compute in Hl. discriminate Hl.
  - destruct Hc as (r & w' & Hrun & _).
    rewrite Hrun. simpl. vm_compute in Hrun. congruence.
Defined.

(** ** Loading the model *)

Lemma missing_files_nil (H : Host) fs :
  missing_files H fs = [] <->
  Forall (fun f => is_Some (fs !! f))
    [encoder_path H; decoder_path H; joiner_path H; tokens_path H].
Proof.
  unfold missing_files, present.
  repeat rewrite Forall_cons. rewrite Forall_nil.
  simpl.
  destruct (decide (is_Some (fs !! encoder_path H)));
    destruct (decide (is_Some (fs !! decoder_path H)));
    destruct (decide (is_Some (fs !! joiner_path H)));
    destruct (decide (is_Some (fs !! tokens_path H)));
    repeat (rewrite bool_decide_eq_true_2 by assumption);
    repeat (rewrite bool_decide_eq_false_2 by assumption);
    simpl; split; try discriminate; try tauto.
Qed.


(** ** The life of the process *)

Lemma load_model_run (H : Host) (s : server) :
  load_model H s =
  if is_loaded s then (Ok tt, s)
  else
    match missing_files H (files (srv_world s)),
          from_transducer H (files (srv_world s)) with
    | [], inr d => (Ok tt, set_model (Some d) s)
    | [], inl detail =>
        (Raise (RuntimeError ("Failed to load ASR model: " ++ detail)), s)
    | missing, _ =>
        (Raise (RuntimeError
                  ("Missing model files: " ++ repr_list H missing
                   ++ String (ascii_of_nat 10)
                        ("Expected in: " ++ model_dir (model_settings H)))),
         s)
    end.
Proof.
  unfold load_model.
  assert (Hs : set_world (srv_world s) s = s) by (destruct s; reflexivity).
  destruct (is_loaded s); [reflexivity|].
  unfold bind, in_world, validate_model_files.
  destruct (missing_files H (files (srv_world s))) as [|m l]; rewrite Hs.
  - unfold try_except.
    destruct (from_transducer H (files (srv_world s))); reflexivity.
  - destruct (from_transducer H (files (srv_world s))); reflexivity.
Qed.

(** Emptying the temp directory leaves the model alone, creates no file
    and asks for no recognition, whether it returns or raises. *)
Lemma cleanup_temp_directory_frame (H : Host) (s : server) :
  match cleanup_temp_directory H s with
  | (r, sc) =>
      srv_model sc = srv_model s
      /\ files (srv_world sc) ⊆ files (srv_world s)
      /\ asr_log (srv_world sc) = asr_log (srv_world s)
  end.
Proof.
  destruct (stat_error H (files (srv_world s)) (temp_dir (settings (env H))))
    as [detail|] eqn:Hstat.
  { unfold cleanup_temp_directory. rewrite Hstat. auto. }
  destruct (srv_temp_dir s) eqn:Htemp.
  - rewrite (cleanup_temp_directory_run H s Hstat Htemp).
    destruct (iterdir H (files (srv_world s)) (temp_dir (settings (env H))))
      as [detail|entries]; [auto|].
    destruct (remove_entries_run H entries 0 (srv_world s))
      as (done & rest & _ & Hsnd & _).
    rewrite Hsnd. cbn [srv_model srv_world set_world].
    split; [reflexivity|].
    destruct (srv_world s) as [fs lg]. simpl.
    split; [apply sweep_subseteq | reflexivity].
  - unfold cleanup_temp_directory. rewrite Hstat, Htemp. cbn [negb].
    destruct (mkdir_error H (files (srv_world s)) (temp_dir (settings (env H))));
      simpl; auto.
Qed.

(** It does not look at the model either. *)
Lemma cleanup_temp_directory_model (H : Host) (s : server) m :
  cleanup_temp_directory H (set_model m s)
  = (fst (cleanup_temp_directory H s),
     set_model m (snd (cleanup_temp_directory H s))).
Proof.
  destruct (stat_error H (files (srv_world s)) (temp_dir (settings (env H))))
    as [detail|] eqn:Hstat.
  { unfold cleanup_temp_directory. cbn [srv_world set_model].
    rewrite Hstat. reflexivity. }
  destruct (srv_temp_dir s) eqn:Htemp.
  - rewrite (cleanup_temp_directory_run H s Hstat Htemp).
    rewrite (cleanup_temp_directory_run H (set_model m s) Hstat Htemp).
    cbn [srv_world set_model].
    destruct (iterdir H (files (srv_world s)) (temp_dir (settings (env H))));
      reflexivity.
  - unfold cleanup_temp_directory. cbn [srv_temp_dir srv_world set_model].
    rewrite Hstat, Htemp. cbn [negb].
    destruct (mkdir_error H (files (srv_world s)) (temp_dir (settings (env H))));
      reflexivity.
Qed.

(** Starting the process fails only when emptying the temp directory fails,
    and then the model has not been looked at; a model that cannot be
    loaded never fails it.  When the cleanup returns, the process starts,
    and afterwards the model is loaded, and [/health] says "healthy",
    exactly when the four model files are still there after that cleanup
    and the loader accepts them.  Stopping the process always unloads the
    model, so that [/health] would say "degraded", creates no file and asks
    for no recognition; it fails exactly when its cleanup of the temp
    directory fails, with that error. *)
Theorem lifespan_outcome (H : Host) (s : server) :
  match cleanup_temp_directory H s with
  | (Raise e, sc) =>
      startup H s = (Raise e, sc) /\ srv_model sc = srv_model s
  | (Ok n, sc) =>
      exists s1,
        startup H s = (Ok tt, s1)
        /\ srv_world s1 = srv_world sc
        /\ (status (health_check H s1) = "healthy" <-> is_loaded s1 = true)
        /\ (is_loaded s = false ->
            (is_loaded s1 = true <->
             Forall (fun f => is_Some (files (srv_world sc) !! f))
               [encoder_path H; decoder_path H; joiner_path H; tokens_path H]
             /\ exists d, from_transducer H (files (srv_world sc)) = inr d))
  end
  /\ match shutdown H s with
     | (r, s2) =>
         is_loaded s2 = false
         /\ status (health_check H s2) = "degraded"
         /\ files (srv_world s2) ⊆ files (srv_world s)
         /\ asr_log (srv_world s2) = asr_log (srv_world s)
         /\ r = match fst (cleanup_temp_directory H s) with
                | Ok _ => Ok tt
                | Raise e => Raise e
                end
     end.
Proof.
  split.
  - pose proof (cleanup_temp_directory_frame H s) as Hframe.
    assert (Hstart : startup H s
                     = match cleanup_temp_directory H s with
                       | (Ok n, sc) => (Ok tt, snd (load_model H sc))
                       | (Raise e, sc) => (Raise e, sc)
                       end).
    { unfold startup, bind, try_except, ret.
      destruct (cleanup_temp_directory H s) as [[n|e] sc]; [|reflexivity].
      destruct (load_model H sc) as [[[]|e] sb]; reflexivity. }
    rewrite Hstart. clear Hstart.
    destruct (cleanup_temp_directory H s) as [[n|e] sc].
    2:{ split; [reflexivity | apply Hframe]. }
    destruct Hframe as (Hmodel & _ & _).
    assert (Hla : is_loaded sc = is_loaded s)
      by (unfold is_loaded; rewrite Hmodel; reflexivity).
    pose proof (load_model_run H sc) as Hload.
    exists (snd (load_model H sc)).
    split; [reflexivity|].
    split.
    { rewrite Hload. destruct (is_loaded sc); [reflexivity|].
      destruct (missing_files H (files (srv_world sc)));
        destruct (from_transducer H (files (srv_world sc))); reflexivity. }
    split.
    { unfold health_check. cbn [status].
      destruct (is_loaded (snd (load_model H sc))); split; congruence. }
    intros Hl. rewrite Hload, Hla, Hl.
    destruct (missing_files H (files (srv_world sc))) as [|m l] eqn:Hm.
    + apply missing_files_nil in Hm.
      destruct (from_transducer H (files (srv_world sc))) as [detail|d];
        cbn [snd].
      * rewrite Hla, Hl. split; [intros Hx; discriminate Hx|].
        intros [_ [d Hd]]. discriminate Hd.
      * split; [intros _; split; [exact Hm | eauto] | intros _; reflexivity].
    + assert (Hno : ~ Forall (fun f => is_Some (files (srv_world sc) !! f))
                        [encoder_path H; decoder_path H; joiner_path H;
                         tokens_path H]).
      { intros Hall. apply missing_files_nil in Hall. congruence. }
      destruct (from_transducer H (files (srv_world sc))); cbn [snd];
        rewrite Hla, Hl;
        (split; [intros Hx; discriminate Hx | intros [Hall _]; contradiction]).
  - assert (Hunload : try_except unload_model (fun _ => ret tt) s
                      = (Ok tt, set_model None s)).
    { unfold try_except, unload_model, is_loaded.
      destruct s as [w0 [m|] t]; reflexivity. }
    assert (Hshut : shutdown H s
                    = match cleanup_temp_directory H s with
                      | (Ok n, sc) => (Ok tt, set_model None sc)
                      | (Raise e, sc) => (Raise e, set_model None sc)
                      end).
    { unfold shutdown, bind. rewrite Hunload.
      rewrite cleanup_temp_directory_model.
      destruct (cleanup_temp_directory H s) as [[n|e] sc]; reflexivity. }
    rewrite Hshut. clear Hshut.
    pose proof (cleanup_temp_directory_frame H s) as Hframe.
    destruct (cleanup_temp_directory H s) as [[n|e] sc]; cbn [fst snd];
      destruct Hframe as (_ & Hsub & Hlog);
      (split; [reflexivity|]); (split; [reflexivity|]);
      (split; [exact Hsub|]); (split; [exact Hlog | reflexivity]).
Qed.

(** The loader rejects the model: the process starts all the same, and
    [/health] says "degraded". *)
Lemma lifespan_outcome_witness :
  fst (startup broken_loader (cold stale_world)) = Ok tt
  /\ status (health_check broken_loader
               (snd (startup broken_loader (cold stale_world))))
     = "degraded".
Proof.
  destruct (lifespan_outcome broken_loader (cold stale_world)) as [Hstart _].
  destruct (cleanup_temp_directory broken_loader (cold stale_world))
    as [[n|e] sc] eqn:Hc.
  - destruct Hstart as (s1 & Hstart & _ & _ & Hload).
    rewrite Hstart. split; [reflexivity|]. simpl snd.
    destruct (is_loaded s1) eqn:Hl.
    + exfalso. destruct (proj1 (Hload eq_refl) eq_refl) as [_ [d Hd]].
      discriminate Hd.
    + unfold health_check. rewrite Hl. reflexivity.
  - exfalso. vm_compute in Hc. discriminate Hc.
Defined.

(** The temp directory cannot be listed: the process does not start, though
    the model could have been loaded. *)
Example startup_fails_on_listing :
  fst (startup (unlistable service (inr (fun _ _ => inr [])))
         (cold stale_world))
  = Raise (LibraryError "[Errno 13] Permission denied: '/app/temp'").
Proof. vm_compute. reflexivity. Qed.

(** While no model is loaded, every request is still answered and none
    loads a model.  The answer is a transcription only when nothing had to
    be recognized, and then its text is empty and the recognizer was not
    called; an answer with code TRANSCRIPTION_FAILED has status 500 and the
    message "Failed to transcribe audio: Model not loaded". *)
Theorem degraded_service_answers (H : Host) (audio : UploadFile)
    (language : option string) (s : server) :
  is_loaded s = false ->
  exists r w',
    handle_transcribe H audio language s = (Ok r, set_world w' s)
    /\ match r with
       | Success t _ _ _ => t = [] /\ asr_log w' = asr_log (srv_world s)
       | HTTPError status_code code message _ =>
           code = "TRANSCRIPTION_FAILED" ->
           status_code = 500
           /\ message = "Failed to transcribe audio: Model not loaded"
       end.
Proof.
  intros Hl. unfold handle_transcribe, in_world.
  assert (Hm : srv_model s = None)
    by (unfold is_loaded in Hl; destruct (srv_model s); [discriminate|reflexivity]).
  rewrite Hm. set (E := with_recognizer None (env H)).
  set (w := srv_world s).
  assert (Hrec : recognizer E = None) by reflexivity.
  unfold transcribe_audio.
  destruct (filename audio) as [[|a name]|].
  - eexists _, _. split; [reflexivity|]. intros Hc. discriminate Hc.
  - destruct (validate_format E (String a name)); cbn [negb].
    + match goal with
      | |- context [if ?c then ret (HTTPError 413 _ _ _) else _] => destruct c
      end.
      * eexists _, _. split; [reflexivity|]. intros Hc. discriminate Hc.
      * rewrite transcribe_upload_run, save_upload_run.
        destruct (file audio) as [detail|content].
        { eexists _, _. split; [reflexivity|]. intros Hc. discriminate Hc. }
        match goal with
        | |- context [open_write E (files w) ?p] =>
            destruct (open_write E (files w) p) as [|detail leftover]
        end.
        { match goal with
          | |- context [transcribe E ?p language ?wa] =>
              pose proof (transcribe_raises E p language wa) as Hcodes;
              destruct (unloaded_outcomes E p language wa Hrec) as [Hok Hfail];
              destruct (transcribe E p language wa) as [[r|e] wb]
          end.
          - destruct (Hok r wb eq_refl) as (_ & Ht & Hlog).
            eexists _, _. split; [reflexivity|].
            split; [exact Ht|]. simpl. rewrite Hlog. reflexivity.
          - destruct (Hcodes e eq_refl) as (m & c & -> & Hc).
            eexists _, _. split; [reflexivity|]. simpl.
            intros ->. split; [reflexivity|].
            apply (Hfail m wb eq_refl). }
        { eexists _, _. split; [reflexivity|]. intros Hc. discriminate Hc. }
    + eexists _, _. split; [reflexivity|]. intros Hc. discriminate Hc.
  - eexists _, _. split; [reflexivity|]. intros Hc. discriminate Hc.
Qed.

(** An upload to the process whose loader rejected the model. *)
Lemma degraded_service_answers_witness :
  fst (handle_transcribe broken_loader talk None (cold stale_world))
  = Ok (HTTPError 500 "TRANSCRIPTION_FAILED"
          "Failed to transcribe audio: Model not loaded" None).
Proof.
  destruct (degraded_service_answers broken_loader talk None (cold stale_world)
              eq_refl) as (r & w' & Hrun & Hr).
  rewrite Hrun. simpl.
  assert (Hfst : fst (handle_transcribe broken_loader talk None (cold stale_world))
                 = Ok r) by (rewrite Hrun; reflexivity).
  vm_compute in Hfst. injection Hfst as <-. reflexivity.
Defined.

(** ** When a request is rejected *)

Lemma transcribe_upload_codes (E : Env) name file language w c :
  answer_code (fst (transcribe_upload E name file language w)) = Some c ->
  c ∈ pipeline_codes.
Proof.
  rewrite transcribe_upload_run, save_upload_run.
  assert (Hape : "AUDIO_PROCESSING_ERROR" ∈ pipeline_codes).
  { unfold pipeline_codes. do 2 (apply elem_of_cons; right).
    apply elem_of_cons. left. reflexivity. }
  destruct file as [detail|content].
  { simpl. intros Hc. injection Hc as <-. exact Hape. }
  match goal with
  | |- context [open_write E (files w) ?p] =>
      destruct (open_write E (files w) p) as [|detail leftover]
  end.
  - match goal with
    | |- context [transcribe E ?p language ?wa] =>
        pose proof (transcribe_raises E p language wa) as Hcodes;
        destruct (transcribe E p language wa) as [[r|e] wb]
    end.
    + simpl. intros Hc. discriminate Hc.
    + destruct (Hcodes e eq_refl) as (m & c' & -> & Hc'). simpl.
      intros Hc. injection Hc as <-. exact Hc'.
  - simpl. intros Hc. injection Hc as <-. exact Hape.
Qed.

(** The three rejections and their conditions, in the order the endpoint
    checks them: MISSING_FILENAME exactly when there is no filename or an
    empty one; INVALID_AUDIO_FORMAT exactly when there is a filename and its
    extension is not supported, whatever the size; FILE_TOO_LARGE exactly
    when the extension is supported and a size is known, is not zero and
    exceeds the limit in MB times 1024 * 1024.  An upload of unknown size,
    or of exactly the limit, is not rejected for its size. *)
Theorem rejection_conditions (E : Env) (audio : UploadFile)
    (language : option string) (w : world) :
  let code := answer_code (fst (transcribe_audio E audio language w)) in
  let limit := max_file_size_mb (settings E) * 1024 * 1024 in
  (code = Some "MISSING_FILENAME"
   <-> filename audio = None \/ filename audio = Some "")
  /\ (code = Some "INVALID_AUDIO_FORMAT"
      <-> exists name,
            filename audio = Some name /\ name <> ""
            /\ validate_format E name = false)
  /\ (code = Some "FILE_TOO_LARGE"
      <-> exists name n,
            filename audio = Some name /\ name <> ""
            /\ validate_format E name = true
            /\ size audio = Some n /\ n <> 0 /\ limit < n).
Proof.
  intros code limit. subst code.
  assert (Hpipe : forall name,
            ~ (answer_code (fst (transcribe_upload E name (file audio) language w))
               ∈ [Some "MISSING_FILENAME"; Some "INVALID_AUDIO_FORMAT";
                  Some "FILE_TOO_LARGE"])).
  { intros name Hin.
    destruct (answer_code (fst (transcribe_upload E name (file audio) language w)))
      as [c|] eqn:Hc.
    - apply transcribe_upload_codes in Hc. unfold pipeline_codes in Hc.
      repeat (apply elem_of_cons in Hin as [Hin|Hin];
              [injection Hin as ->;
               repeat (apply elem_of_cons in Hc as [Hc|Hc]; [discriminate Hc|]);
               apply elem_of_nil in Hc; exact Hc|]).
      apply elem_of_nil in Hin. exact Hin.
    - repeat (apply elem_of_cons in Hin as [Hin|Hin]; [discriminate Hin|]).
      apply elem_of_nil in Hin. exact Hin. }
  unfold transcribe_audio.
  destruct (filename audio) as [[|a name]|] eqn:Hname.
  - simpl. split; [split; auto|]. split.
    + split; [intros Hc; discriminate Hc|].
      intros (n & Hn & Hne & _). injection Hn as <-. contradiction.
    + split; [intros Hc; discriminate Hc|].
      intros (n & k & Hn & Hne & _). injection Hn as <-. contradiction.
  - destruct (validate_format E (String a name)) eqn:Hfmt; cbn [negb].
    + destruct (size audio) as [n|] eqn:Hsize.
      * destruct (n =? 0) eqn:Hzero; cbn [negb andb].
        { apply Z.eqb_eq in Hzero. specialize (Hpipe (String a name)).
          split; [|split]; (split; [intros Hc; exfalso; apply Hpipe; rewrite Hc;
                                    set_solver|]).
          - intros [Hx|Hx]; discriminate Hx.
          - intros (n' & Hn & _ & Hv). injection Hn as <-. congruence.
          - intros (n' & k & Hn & _ & _ & Hk & Hne & _).
            injection Hk as <-. contradiction. }
        apply Z.eqb_neq in Hzero.
        destruct (limit <? n) eqn:Hlim; fold limit; rewrite Hlim.
        { apply Z.ltb_lt in Hlim. simpl.
          split; [split; [intros Hc; discriminate Hc
                         | intros [Hx|Hx]; discriminate Hx]|].
          split.
          - split; [intros Hc; discriminate Hc|].
            intros (n' & Hn & _ & Hv). injection Hn as <-. congruence.
          - split; [|reflexivity]. intros _. exists (String a name), n.
            repeat split; auto; discriminate. }
        apply Z.ltb_ge in Hlim. specialize (Hpipe (String a name)).
        split; [|split]; (split; [intros Hc; exfalso; apply Hpipe; rewrite Hc;
                                  set_solver|]).
        { intros [Hx|Hx]; discriminate Hx. }
        { intros (n' & Hn & _ & Hv). injection Hn as <-. congruence. }
        { intros (n' & k & Hn & _ & _ & Hk & _ & Hlt).
          injection Hk as <-. lia. }
      * specialize (Hpipe (String a name)).
        split; [|split]; (split; [intros Hc; exfalso; apply Hpipe; rewrite Hc;
                                  set_solver|]).
        { intros [Hx|Hx]; discriminate Hx. }
        { intros (n' & Hn & _ & Hv). injection Hn as <-. congruence. }
        { intros (n' & k & Hn & _ & _ & Hk & _). discriminate Hk. }
    + simpl. split; [split; [intros Hc; discriminate Hc
                            | intros [Hx|Hx]; discriminate Hx]|].
      split.
      * split; [|reflexivity]. intros _. exists (String a name).
        repeat split; auto; discriminate.
      * split; [intros Hc; discriminate Hc|].
        intros (n' & k & Hn & _ & Hv & _). injection Hn as <-. congruence.
  - simpl. split; [split; auto|]. split.
    + split; [intros Hc; discriminate Hc|].
      intros (n & Hn & _). discriminate Hn.
    + split; [intros Hc; discriminate Hc|].
      intros (n & k & Hn & _). discriminate Hn.
Qed.

(** When the empty extension is not among the supported formats, an upload
    whose filename has no extension never reaches [save_upload]: it is
    rejected with status 400, and nothing is written.  So the endpoint never
    saves an upload under the default extension [.wav]. *)
Theorem extensionless_upload_rejected (E : Env) (audio : UploadFile)
    (language : option string) (w : world) (name : string) :
  "" ∉ supported_formats (settings E) ->
  filename audio = Some name ->
  str_lower E (path_suffix E name) = "" ->
  exists code message,
    transcribe_audio E audio language w
    = (Ok (HTTPError 400 code message None), w)
    /\ code ∈ ["MISSING_FILENAME"; "INVALID_AUDIO_FORMAT"].
Proof.
  intros Hsup Hname Hext. unfold transcribe_audio. rewrite Hname.
  destruct name as [|a name].
  - eexists _, _. split; [reflexivity|]. set_solver.
  - assert (Hfmt : validate_format E (String a name) = false).
    { unfold validate_format. rewrite Hext. simpl.
      apply bool_decide_eq_false_2. exact Hsup. }
    rewrite Hfmt. simpl. eexists _, _. split; [reflexivity|]. set_solver.
Qed.

(** An upload named [recording]. *)
Lemma extensionless_upload_rejected_witness :
  answer_code (fst (transcribe_audio service bare_name None
                      {| files := ∅; asr_log := [] |}))
  = Some "INVALID_AUDIO_FORMAT".
Proof.
  destruct (extensionless_upload_rejected service bare_name None
              {| files := ∅; asr_log := [] |} "recording")
    as (code & message & Hrun & Hcode).
  - vm_compute. intros Hin.
    repeat (apply elem_of_cons in Hin as [Hin|Hin]; [discriminate Hin|]).
    apply elem_of_nil in Hin. exact Hin.
  - reflexivity.
  - reflexivity.
  - assert (Hfst : fst (transcribe_audio service bare_name None
                          {| files := ∅; asr_log := [] |})
                   = Ok (HTTPError 400 code message None))
      by (rewrite Hrun; reflexivity).
    rewrite Hrun. simpl. vm_compute in Hfst. injection Hfst as <- _.
    reflexivity.
Defined.

(** ** The names of the chunks *)









